(** * GitTaskBench runner of RepoMaster: a shallow embedding

    Source: [src/gittaskbench/gittaskbench_runner.py], class
    [GitTaskBenchRunner].

    The runner is sequential orchestration code: it reads two configuration
    documents per task, calls an external agent, copies files between two
    directories and writes JSON documents.  The embedding keeps that shape:

    - Python values read from YAML/JSON are a dynamically typed [value],
      and the operations the runner applies to them raise what Python
      raises on a value of the wrong type;
    - [pathlib] paths are parsed paths ([ppath]) with the POSIX rules;
    - the part of the file system the runner writes (temporary directory
      and output root) is a tree of [node]s, threaded through a state monad
      [M] in which an exception keeps the state reached so far, as in
      Python; [shutil] and [tempfile] are modelled on that tree;
    - the external agent ([get_llm_config], [RepoMasterAgent] and its
      [run_repository_agent]) is a variable of the section: any function
      from its arguments and the file system to an outcome and a new file
      system;
    - the float arithmetic of the success rate is binary64, with the
      operations of [SpecFloat].

    What is left out: console output; file metadata, permissions, links
    and special files; the text of the JSON documents (a file holds the
    document itself); the two configuration stores are given parsed.  A
    task identifier is taken to be a directory name, and a string to be
    text that UTF-8 encodes; what the agent returns need not be JSON data.
    The two roots the constructor is given are walked as the kernel walks
    them, [..] included; the paths the runner derives from them are
    located in the tree by their components as they are.

    Besides the methods that run tasks, the constructor and
    [grade_with_gittaskbench] are embedded, the evaluator of the benchmark
    being a variable as the agent is; and [main] of
    [script/gittaskbench_cli.py], from the parsed arguments on.

    The file has three parts: the definitions, the facts proved about
    them, and a small benchmark on which the definitions are run. *)

From Stdlib Require Import String Ascii List ZArith Lia Bool Arith.
From Stdlib Require Import DecimalString.
From Stdlib Require Import Floats.SpecFloat.
From Stdlib Require Import Sorted Permutation.
Import ListNotations.

Set Warnings "-register-all".

Local Open Scope string_scope.
Local Open Scope list_scope.

(** ** Python strings *)

Module PyStr.

(** [s.startswith(p)] *)
Definition startswith (s p : string) : bool := String.prefix p s.

(** [skip] characters of a match are still to be dropped; otherwise the
    leftmost occurrence of [old] is replaced by [new] and the scan resumes
    after it.  [old] is not empty. *)
Fixpoint replace_from (skip : nat) (old new s : string) : string :=
  match s with
  | EmptyString => EmptyString
  | String c s' =>
      match skip with
      | S k => replace_from k old new s'
      | O =>
          if String.prefix old s
          then new ++ replace_from (String.length old - 1) old new s'
          else String c (replace_from 0 old new s')
      end
  end.

(** [s.replace(old, new)] for a non-empty [old]: every non-overlapping
    occurrence, scanning from the left. *)
Definition replace (s old new : string) : string := replace_from 0 old new s.

(** [s.split(sep)] for a one-character separator. *)
Fixpoint split (sep : ascii) (s : string) : list string :=
  match s with
  | EmptyString => [EmptyString]
  | String c s' =>
      if Ascii.eqb c sep then EmptyString :: split sep s'
      else match split sep s' with
           | [] => [String c EmptyString]
           | w :: ws => String c w :: ws
           end
  end.

(** [sub in s] *)
Fixpoint contains (sub s : string) : bool :=
  String.prefix sub s ||
  match s with
  | EmptyString => false
  | String _ s' => contains sub s'
  end.

(** [str(n)] for a natural number. *)
Definition of_nat (n : nat) : string := NilZero.string_of_uint (Nat.to_uint n).

End PyStr.

(** ** pathlib: pure POSIX paths

    A parsed path is its root (the empty string, one slash or two slashes)
    and its components; empty components and [.] are dropped by the parser,
    [..] is kept. *)

Module PurePath.

Record ppath := { root : string; parts : list string }.

Definition splitroot (s : string) : string :=
  if String.prefix "///" s then "/"
  else if String.prefix "//" s then "//"
  else if String.prefix "/" s then "/"
  else "".

Definition keep_part (x : string) : bool :=
  negb (String.eqb x "") && negb (String.eqb x ".").

(** [Path(s)] *)
Definition parse (s : string) : ppath :=
  {| root := splitroot s; parts := filter keep_part (PyStr.split "/" s) |}.

(** [str(p)] *)
Definition str (p : ppath) : string :=
  match root p, parts p with
  | EmptyString, [] => "."
  | r, ps => r ++ String.concat "/" ps
  end.

(** [p / s]: an absolute [s] replaces [p]. *)
Definition truediv (p : ppath) (s : string) : ppath :=
  let q := parse s in
  if String.eqb (root q) "" then {| root := root p; parts := parts p ++ parts q |}
  else q.

(** [p.name] *)
Definition name (p : ppath) : string := last (parts p) "".

(** [p.parent]: a path without components is its own parent. *)
Definition parent (p : ppath) : ppath :=
  {| root := root p; parts := removelast (parts p) |}.

End PurePath.

Import PurePath.
Notation "p // s" := (truediv p s) (at level 40, left associativity).

(** ** Values of the configuration documents *)

Inductive value :=
| VNone
| VBool (b : bool)
| VInt (z : Z)
| VStr (s : string)
| VList (l : list value)
| VDict (d : list (string * value)).

(** A Python [dict] with string keys, in insertion order. *)
Definition dict := list (string * value).

Module Dict.

Fixpoint get (k : string) (d : dict) : option value :=
  match d with
  | [] => None
  | (k', v) :: d' => if String.eqb k k' then Some v else get k d'
  end.

(** [d.get(k, default)] *)
Definition get_default (k : string) (default : value) (d : dict) : value :=
  match get k d with Some v => v | None => default end.

(** [d[k] = v]: an existing key keeps its position. *)
Fixpoint set (k : string) (v : value) (d : dict) : dict :=
  match d with
  | [] => [(k, v)]
  | (k', v') :: d' => if String.eqb k k' then (k, v) :: d' else (k', v') :: set k v d'
  end.

End Dict.

(** Truth value of a document value ([if x:], [if not x:]). *)
Definition truthy (v : value) : bool :=
  match v with
  | VNone => false
  | VBool b => b
  | VInt z => negb (Z.eqb z 0)
  | VStr s => negb (String.eqb s "")
  | VList l => match l with [] => false | _ => true end
  | VDict d => match d with [] => false | _ => true end
  end.


Definition type_name (v : value) : string :=
  match v with
  | VNone => "NoneType"
  | VBool _ => "bool"
  | VInt _ => "int"
  | VStr _ => "str"
  | VList _ => "list"
  | VDict _ => "dict"
  end.

(** ** Exceptions

    [exc_type] is [type(e).__name__], [exc_msg] is [str(e)];
    [is_Exception] tells whether the class derives from [Exception]
    ([KeyboardInterrupt] and [SystemExit] do not), which is what
    [except Exception] tests. *)

Record exc := { exc_type : string; exc_msg : string; is_Exception : bool }.

Definition ValueError (msg : string) : exc :=
  {| exc_type := "ValueError"; exc_msg := msg; is_Exception := true |}.
Definition TypeError (msg : string) : exc :=
  {| exc_type := "TypeError"; exc_msg := msg; is_Exception := true |}.
Definition AttributeError (msg : string) : exc :=
  {| exc_type := "AttributeError"; exc_msg := msg; is_Exception := true |}.
Definition KeyError (msg : string) : exc :=
  {| exc_type := "KeyError"; exc_msg := msg; is_Exception := true |}.

Inductive outcome (A : Type) :=
| Ret (a : A)
| Raise (e : exc).
Arguments Ret {A} a.
Arguments Raise {A} e.

(** Pure computations that may raise. *)
Definition obind {A B} (c : outcome A) (k : A -> outcome B) : outcome B :=
  match c with
  | Ret a => k a
  | Raise e => Raise e
  end.

(** ** Execution results and the documents written by the runner

    [result_data] and [error_data] of [run_single_task] are the two shapes of
    one dictionary, told apart by its ['success'] key. *)

(** What the agent returns, which the runner stores in the record and
    hands to [json.dump]: JSON data; any other object (a set, an instance
    of a class, data that holds one), on which [json.dump] raises [e]; or
    text with a lone surrogate, which [json.dump] writes when it escapes
    what is not ASCII and on which the UTF-8 file raises [e] when it does
    not. *)
Inductive payload :=
| Json (v : value)
| NotJson (e : exc)
| NotUtf8 (e : exc).

Coercion Json : value >-> payload.

Inductive exec_result :=
| ResultData (task_id : string) (result : payload) (output_dir repository : string)
             (task_description : value)
| ErrorData (task_id error error_type traceback output_dir : string).

(** [result['success']] *)
Definition success (r : exec_result) : bool :=
  match r with
  | ResultData _ _ _ _ _ => true
  | ErrorData _ _ _ _ _ => false
  end.

(** [result['task_id']] *)
Definition task_id_of (r : exec_result) : string :=
  match r with
  | ResultData t _ _ _ _ => t
  | ErrorData t _ _ _ _ => t
  end.

Record summary := {
  total_tasks : nat;
  successful : nat;
  failed : nat;
  success_rate : string;
  summary_api_type : string;
  summary_output_root : string;
  results : list exec_result
}.

(** What a regular file holds: raw bytes; the JSON text that [json.dump]
    writes for one of the runner's documents, kept as the document; or the
    beginning of such a text, as far as [json.dump] wrote it before it
    raised. *)
Inductive content :=
| Bytes (b : string)
| ResultJson (r : exec_result)
| ProgressJson (rs : list exec_result)
| SummaryJson (s : summary)
| Partial (doc : content).

(** What [json.dump] raises on a document, if it raises: the error of the
    first payload, in the order of the text, that it cannot write.
    [ensure_ascii] is the option of that name. *)
Definition payload_error (ensure_ascii : bool) (p : payload) : option exc :=
  match p with
  | Json _ => None
  | NotJson e => Some e
  | NotUtf8 e => if ensure_ascii then None else Some e
  end.

Definition result_error (ensure_ascii : bool) (r : exec_result) : option exc :=
  match r with
  | ResultData _ result _ _ _ => payload_error ensure_ascii result
  | ErrorData _ _ _ _ _ => None
  end.

Fixpoint results_error (ensure_ascii : bool) (rs : list exec_result) : option exc :=
  match rs with
  | [] => None
  | r :: rs' =>
      match result_error ensure_ascii r with
      | Some e => Some e
      | None => results_error ensure_ascii rs'
      end
  end.

Definition dump_error (ensure_ascii : bool) (c : content) : option exc :=
  match c with
  | ResultJson r => result_error ensure_ascii r
  | ProgressJson rs => results_error ensure_ascii rs
  | SummaryJson s => results_error ensure_ascii (results s)
  | Bytes _ | Partial _ => None
  end.

(** ** File system

    Regular files and directories; no symbolic links, devices or
    permissions.  A directory lists its entries in the order [os.listdir]
    reports them.  The message of an operating-system error names the path
    from the root of the tree. *)

Inductive node :=
| File (c : content)
| Dir (entries : list (string * node)).

Inductive errno := ENOENT | ENOTDIR | EEXIST | EISDIR.

Module FS.

Definition path := list string.

Definition render (p : path) : string := "/" ++ String.concat "/" p.

Definition os_error (e : errno) (p : path) : exc :=
  match e with
  | ENOENT => {| exc_type := "FileNotFoundError";
                 exc_msg := "[Errno 2] No such file or directory: '" ++ render p ++ "'";
                 is_Exception := true |}
  | ENOTDIR => {| exc_type := "NotADirectoryError";
                  exc_msg := "[Errno 20] Not a directory: '" ++ render p ++ "'";
                  is_Exception := true |}
  | EEXIST => {| exc_type := "FileExistsError";
                 exc_msg := "[Errno 17] File exists: '" ++ render p ++ "'";
                 is_Exception := true |}
  | EISDIR => {| exc_type := "IsADirectoryError";
                 exc_msg := "[Errno 21] Is a directory: '" ++ render p ++ "'";
                 is_Exception := true |}
  end.

(** Entries of one directory, by name (the first entry of that name). *)
Fixpoint entry (k : string) (es : list (string * node)) : option node :=
  match es with
  | [] => None
  | (k', n) :: es' => if String.eqb k k' then Some n else entry k es'
  end.

Fixpoint set_entry (k : string) (n : node) (es : list (string * node))
  : list (string * node) :=
  match es with
  | [] => [(k, n)]
  | (k', n') :: es' =>
      if String.eqb k k' then (k, n) :: es' else (k', n') :: set_entry k n es'
  end.

Definition del_entry (k : string) (es : list (string * node)) : list (string * node) :=
  filter (fun kn => negb (String.eqb k (fst kn))) es.

Fixpoint lookup (p : path) (n : node) : option node :=
  match p with
  | [] => Some n
  | c :: p' =>
      match n with
      | File _ => None
      | Dir es => match entry c es with
                  | Some m => lookup p' m
                  | None => None
                  end
      end
  end.

Definition is_dir (p : path) (fs : node) : bool :=
  match lookup p fs with Some (Dir _) => true | _ => false end.

Definition is_file (p : path) (fs : node) : bool :=
  match lookup p fs with Some (File _) => true | _ => false end.

(** Bind [new] at [p]; the parent of [p] is an existing directory. *)
Fixpoint put (p : path) (new : node) (n : node) : errno + node :=
  match p with
  | [] => inr new
  | c :: p' =>
      match n with
      | File _ => inl ENOTDIR
      | Dir es =>
          match entry c es, p' with
          | None, [] => inr (Dir (set_entry c new es))
          | None, _ :: _ => inl ENOENT
          | Some m, _ =>
              match put p' new m with
              | inl e => inl e
              | inr m' => inr (Dir (set_entry c m' es))
              end
          end
      end
  end.

(** As [put], creating the missing directories on the way. *)
Fixpoint put_parents (p : path) (new : node) (n : node) : errno + node :=
  match p with
  | [] => inr new
  | c :: p' =>
      match n with
      | File _ => inl ENOTDIR
      | Dir es =>
          match put_parents p' new
                  (match entry c es with Some m => m | None => Dir [] end) with
          | inl e => inl e
          | inr m' => inr (Dir (set_entry c m' es))
          end
      end
  end.

(** [Path.mkdir(exist_ok=True, parents=True)]: an existing directory is
    kept, missing ancestors are created, a regular file in the way is an
    error. *)
Fixpoint mkdirs (p : path) (n : node) : errno + node :=
  match p with
  | [] => match n with
          | Dir _ => inr n
          | File _ => inl EEXIST
          end
  | c :: p' =>
      match n with
      | File _ => inl ENOTDIR
      | Dir es =>
          match mkdirs p' (match entry c es with Some m => m | None => Dir [] end) with
          | inl e => inl e
          | inr m' => inr (Dir (set_entry c m' es))
          end
      end
  end.

(** The place a path leads to from the directory [cur], walked as the
    kernel walks it: each component is looked up in the directory reached
    so far, which must be one; [..] is the parent of that directory, the
    root being its own parent. *)
Fixpoint resolve (fs : node) (cur : path) (p : list string) : errno + path :=
  match p with
  | [] => inr cur
  | c :: p' =>
      match lookup cur fs with
      | Some (Dir es) =>
          if String.eqb c ".." then resolve fs (removelast cur) p'
          else match entry c es with
               | Some _ => resolve fs (cur ++ [c]) p'
               | None => inl ENOENT
               end
      | Some (File _) => inl ENOTDIR
      | None => inl ENOENT
      end
  end.

(** [os.stat]: the node a path leads to. *)
Definition stat (cur : path) (p : list string) (fs : node) : errno + node :=
  match resolve fs cur p with
  | inr q => match lookup q fs with
             | Some n => inr n
             | None => inl ENOENT
             end
  | inl e => inl e
  end.

(** [os.mkdir]: the path is walked up to its last component, which names
    the directory to make; nothing is made where something is, and [..] is
    always there. *)
Definition mkdir (cur : path) (p : list string) (fs : node) : errno + node :=
  match resolve fs cur (removelast p) with
  | inr dir =>
      match lookup dir fs with
      | Some (Dir es) =>
          match p with
          | [] => inl EEXIST
          | _ :: _ =>
              let c := last p "" in
              if String.eqb c ".." then inl EEXIST
              else match entry c es with
                   | Some _ => inl EEXIST
                   | None => put (dir ++ [c]) (Dir []) fs
                   end
          end
      | Some (File _) => inl ENOTDIR
      | None => inl ENOENT
      end
  | inl e => inl e
  end.

(** Unbind [p] (the root cannot be unbound). *)
Fixpoint remove (p : path) (n : node) : node :=
  match p with
  | [] => n
  | c :: p' =>
      match n with
      | File _ => n
      | Dir es =>
          match p' with
          | [] => Dir (del_entry c es)
          | _ :: _ => match entry c es with
                      | Some m => Dir (set_entry c (remove p' m) es)
                      | None => n
                      end
          end
      end
  end.

(** Two paths that part at some component: neither is a prefix of the
    other. *)
Fixpoint incomparable (p q : path) : bool :=
  match p, q with
  | c :: p', d :: q' => if String.eqb c d then incomparable p' q' else true
  | _, _ => false
  end.

(** What copying the node [src], named [k], yields at a destination that
    currently holds [dst]: the node to bind there ([None]: destination left
    as it is) and the errors met.

    A file is [shutil.copy2]: onto an existing directory it is copied
    _into_ that directory under its own name, and fails if that name is a
    directory there.  A directory is [shutil.copytree(dirs_exist_ok=True)]:
    [os.makedirs] fails on a regular file; then every entry is copied, the
    errors of the entries being collected while the others are still
    copied. *)
Fixpoint copy_node (k : string) (src : node) (dst : option node) {struct src}
  : option node * list errno :=
  match src with
  | File c =>
      match dst with
      | Some (Dir inner) =>
          match entry k inner with
          | Some (Dir _) => (None, [EISDIR])
          | _ => (Some (Dir (set_entry k (File c) inner)), [])
          end
      | _ => (Some (File c), [])
      end
  | Dir es =>
      match dst with
      | Some (File _) => (None, [EEXIST])
      | _ =>
          let ds := match dst with Some (Dir ds) => ds | _ => [] end in
          let '(ds', errs) :=
            (fix copy_all (es : list (string * node)) (ds : list (string * node))
               : list (string * node) * list errno :=
               match es with
               | [] => (ds, [])
               | (k', n) :: es' =>
                   let '(upd, e1) := copy_node k' n (entry k' ds) in
                   let ds1 := match upd with
                              | Some m => set_entry k' m ds
                              | None => ds
                              end in
                   let '(ds2, e2) := copy_all es' ds1 in
                   (ds2, e1 ++ e2)
               end) es ds in
          (Some (Dir ds'), errs)
      end
  end.

(** The loop of [copytree] over the entries of the source directory, on
    the entries [ds] of the destination directory. *)
Fixpoint copy_all (es : list (string * node)) (ds : list (string * node))
  : list (string * node) * list errno :=
  match es with
  | [] => (ds, [])
  | (k', n) :: es' =>
      let '(upd, e1) := copy_node k' n (entry k' ds) in
      let ds1 := match upd with
                 | Some m => set_entry k' m ds
                 | None => ds
                 end in
      let '(ds2, e2) := copy_all es' ds1 in
      (ds2, e1 ++ e2)
  end.

(** The failures [copytree] collects while it copies the node at [src],
    named [k], onto the path [dst] that currently holds [d]: for each one
    the source and the destination of the entry that failed, the error and
    the path the error names.  A file fails where [copy2] would write onto
    a directory, a directory where [os.makedirs] finds a regular file; the
    failures of a directory are those of its entries, each copied onto the
    destination as the entries before it left it. *)
Definition failure : Type := path * path * errno * path.

Fixpoint copy_failures (k : string) (src dst : path) (n : node) (d : option node)
  {struct n} : list failure :=
  match n with
  | File _ =>
      match d with
      | Some (Dir inner) =>
          match entry k inner with
          | Some (Dir _) => [(src, dst, EISDIR, dst ++ [k])]
          | _ => []
          end
      | _ => []
      end
  | Dir es =>
      match d with
      | Some (File _) => [(src, dst, EEXIST, dst)]
      | _ =>
          let ds := match d with Some (Dir ds) => ds | _ => [] end in
          (fix failures_all (es : list (string * node)) (ds : list (string * node))
             : list failure :=
             match es with
             | [] => []
             | (k', m) :: es' =>
                 let ds1 := match fst (copy_node k' m (entry k' ds)) with
                            | Some u => set_entry k' u ds
                            | None => ds
                            end in
                 copy_failures k' (src ++ [k']) (dst ++ [k']) m (entry k' ds)
                 ++ failures_all es' ds1
             end) es ds
      end
  end.

(** The failures of the entries [es] of the directory [src], copied onto
    the entries [ds] of the directory [dst]. *)
Definition failures_all (src dst : path)
  : list (string * node) -> list (string * node) -> list failure :=
  fix failures_all (es : list (string * node)) (ds : list (string * node))
    : list failure :=
    match es with
    | [] => []
    | (k', m) :: es' =>
        let ds1 := match fst (copy_node k' m (entry k' ds)) with
                   | Some u => set_entry k' u ds
                   | None => ds
                   end in
        copy_failures k' (src ++ [k']) (dst ++ [k']) m (entry k' ds)
        ++ failures_all es' ds1
    end.


End FS.

(** ** Computations on the file system

    [M A] runs on a file system and ends with a value or an exception; in
    both cases the file system reached is kept. *)

Definition M (A : Type) : Type := node -> outcome A * node.

Definition ret {A} (a : A) : M A := fun fs => (Ret a, fs).
Definition raise {A} (e : exc) : M A := fun fs => (Raise e, fs).
Definition lift {A} (c : outcome A) : M A := fun fs => (c, fs).

Definition bind {A B} (c : M A) (k : A -> M B) : M B :=
  fun fs =>
    match c fs with
    | (Ret a, fs') => k a fs'
    | (Raise e, fs') => (Raise e, fs')
    end.

(** [try: body / except Exception as e: handler e] *)
Definition try_except {A} (body : M A) (handler : exc -> M A) : M A :=
  fun fs =>
    match body fs with
    | (Ret a, fs') => (Ret a, fs')
    | (Raise e, fs') => if is_Exception e then handler e fs' else (Raise e, fs')
    end.

Declare Scope run_scope.
Delimit Scope run_scope with run.
Notation "x <- c ;; k" := (bind c (fun x => k))
  (at level 61, c at next level, right associativity) : run_scope.
Notation "c ;;; k" := (bind c (fun _ => k))
  (at level 61, right associativity) : run_scope.
Notation "x <~ c ;; k" := (obind c (fun x => k))
  (at level 61, c at next level, right associativity) : run_scope.
Local Open Scope run_scope.

Module Sh.
Import FS.

Definition from_errno (p : path) (r : errno + node) (fs : node) : outcome unit * node :=
  match r with
  | inr fs' => (Ret tt, fs')
  | inl e => (Raise (os_error e p), fs)
  end.

(** [p.is_dir()], [p.is_file()] *)
Definition is_dir (p : path) : M bool := fun fs => (Ret (FS.is_dir p fs), fs).
Definition is_file (p : path) : M bool := fun fs => (Ret (FS.is_file p fs), fs).

(** [p.mkdir(exist_ok=True, parents=True)] *)
Definition mkdir_p (p : path) : M unit := fun fs => from_errno p (mkdirs p fs) fs.

(** [p.exists()] and [p.is_dir()] of a path [p] given from the directory
    [cur]: the answer of [os.stat], a path that cannot be walked being
    reported as missing. *)
Definition exists_from (cur : path) (p : list string) : M bool :=
  fun fs => (Ret (match stat cur p fs with inr _ => true | inl _ => false end), fs).

Definition is_dir_from (cur : path) (p : list string) : M bool :=
  fun fs => (Ret (match stat cur p fs with inr (Dir _) => true | _ => false end), fs).

(** [Path.mkdir(parents=True, exist_ok=True)] of [pathlib], on the path
    whose components are [rp], the last one first: [os.mkdir] is tried;
    when it reports that a directory on the way is missing, the parent is
    made in the same manner and [os.mkdir] is tried again, once; any other
    error is dropped if the path is a directory by then.  The parent of a
    path is the path without its last component, and the path without
    components is its own parent. *)
Fixpoint mkdir_rec (cur : path) (rp : list string) : M unit :=
  fun fs =>
    let p := rev rp in
    match FS.mkdir cur p fs with
    | inr fs' => (Ret tt, fs')
    | inl ENOENT =>
        match rp with
        | [] => (Raise (os_error ENOENT (cur ++ p)), fs)
        | _ :: rparent =>
            match mkdir_rec cur rparent fs with
            | (Ret _, fs1) =>
                match FS.mkdir cur p fs1 with
                | inr fs2 => (Ret tt, fs2)
                | inl ENOENT => (Raise (os_error ENOENT (cur ++ p)), fs1)
                | inl e =>
                    match is_dir_from cur p fs1 with
                    | (Ret true, _) => (Ret tt, fs1)
                    | _ => (Raise (os_error e (cur ++ p)), fs1)
                    end
                end
            | (Raise e, fs1) => (Raise e, fs1)
            end
        end
    | inl e =>
        match is_dir_from cur p fs with
        | (Ret true, _) => (Ret tt, fs)
        | _ => (Raise (os_error e (cur ++ p)), fs)
        end
    end.

Definition mkdir_parents (cur : path) (p : list string) : M unit :=
  mkdir_rec cur (rev p).

(** [p.iterdir()]: the names in the directory when the loop starts. *)
Definition iterdir (p : path) : M (list string) :=
  fun fs =>
    match lookup p fs with
    | Some (Dir es) => (Ret (map fst es), fs)
    | Some (File _) => (Raise (os_error ENOTDIR p), fs)
    | None => (Raise (os_error ENOENT p), fs)
    end.

(** [open(p, 'w')], the writing of the text [c] and the closing of the
    file: the file is created, or what it held is replaced. *)
Definition write_file (p : path) (c : content) : M unit :=
  fun fs =>
    match lookup p fs with
    | Some (Dir _) => (Raise (os_error EISDIR p), fs)
    | _ => from_errno p (put p (File c) fs) fs
    end.

(** [with open(p, 'w', ...) as f: json.dump(doc, f, ...)]: the file is
    created or emptied when it is opened; when [json.dump] then raises, the
    file is closed on the text written so far, which is what it holds
    from then on. *)
Definition json_dump (ensure_ascii : bool) (p : path) (doc : content) : M unit :=
  fun fs =>
    match dump_error ensure_ascii doc with
    | None => write_file p doc fs
    | Some e =>
        match write_file p (Partial doc) fs with
        | (Ret _, fs') => (Raise e, fs')
        | (Raise e', fs') => (Raise e', fs')
        end
    end.

Definition SameFileError (src dst : path) : exc :=
  {| exc_type := "SameFileError";
     exc_msg := "PosixPath('" ++ render src ++ "') and PosixPath('" ++ render dst
                ++ "') are the same file";
     is_Exception := true |}.

(** [shutil.Error]: raised by [copytree] after all entries were tried.  Its
    text is that of the list of failures, each a tuple of the source, the
    destination and the text of the error; the last is written between
    double quotes, as it holds single ones. *)
Definition double_quote : string := String (ascii_of_nat 34) "".

Definition failure_text (f : failure) : string :=
  let '(src, dst, e, p) := f in
  "('" ++ render src ++ "', '" ++ render dst ++ "', "
  ++ double_quote ++ exc_msg (os_error e p) ++ double_quote ++ ")".

Definition Error (errs : list failure) : exc :=
  {| exc_type := "Error";
     exc_msg := "[" ++ String.concat ", " (map failure_text errs) ++ "]";
     is_Exception := true |}.

Definition path_eqb (p q : path) : bool :=
  if list_eq_dec string_dec p q then true else false.

(** [shutil.copy2(src, dst)] for a regular file [src]. *)
Definition copy2 (src dst : path) : M unit :=
  fun fs =>
    match lookup src fs with
    | Some (File c) =>
        let dst' := match lookup dst fs with
                    | Some (Dir _) => dst ++ [last src ""]
                    | _ => dst
                    end in
        if path_eqb src dst' then (Raise (SameFileError src dst'), fs)
        else match lookup dst' fs with
             | Some (Dir _) => (Raise (os_error EISDIR dst'), fs)
             | _ => from_errno dst' (put dst' (File c) fs) fs
             end
    | Some (Dir _) => (Raise (os_error EISDIR src), fs)
    | None => (Raise (os_error ENOENT src), fs)
    end.

(** [shutil.copytree(src, dst, dirs_exist_ok=True)] for a directory [src];
    the source tree is read before the destination is written. *)
Definition copytree (src dst : path) : M unit :=
  fun fs =>
    match lookup src fs with
    | Some (Dir es) =>
        match copy_node (last dst "") (Dir es) (lookup dst fs) with
        | (Some n', errs) =>
            match put_parents dst n' fs with
            | inr fs' =>
                match errs with
                | [] => (Ret tt, fs')
                | _ :: _ =>
                    (Raise (Error (copy_failures (last dst "") src dst (Dir es)
                                                 (lookup dst fs))), fs')
                end
            | inl e => (Raise (os_error e dst), fs)
            end
        | (None, _) => (Raise (os_error EEXIST dst), fs)
        end
    | Some (File _) => (Raise (os_error ENOTDIR src), fs)
    | None => (Raise (os_error ENOENT src), fs)
    end.

(** [shutil.rmtree(p, ignore_errors=...)]: only a directory can be removed;
    with [ignore_errors] the failure is dropped. *)
Definition rmtree (p : path) (ignore_errors : bool) : M unit :=
  fun fs =>
    match lookup p fs with
    | Some (Dir _) => (Ret tt, remove p fs)
    | Some (File _) =>
        if ignore_errors then (Ret tt, fs) else (Raise (os_error ENOTDIR p), fs)
    | None =>
        if ignore_errors then (Ret tt, fs) else (Raise (os_error ENOENT p), fs)
    end.

(** [p.exists()] *)
Definition path_exists (p : path) : M bool :=
  fun fs => (Ret (match lookup p fs with Some _ => true | None => false end), fs).

(** [c] leaves the binding of every path in [P] as it was, whatever its
    outcome. *)
Definition preserves {A} (P : path -> Prop) (c : M A) : Prop :=
  forall fs o fs', c fs = (o, fs') -> forall q, P q -> lookup q fs' = lookup q fs.

(** The paths that part from [p]. *)
Definition off (p : path) : path -> Prop := fun q => incomparable q p = true.

(** [fs'] is [fs] with directories added and nothing else: the regular
    files are the same ones, and what was a directory is one. *)
Definition adds_directories (fs fs' : node) : Prop :=
  (forall q c, lookup q fs' = Some (File c) <-> lookup q fs = Some (File c)) /\
  (forall q, FS.is_dir q fs = true -> FS.is_dir q fs' = true).

(** What is there stays there: a regular file as it is, a directory as a
    directory. *)
Definition same_kind (n n' : node) : Prop :=
  match n with
  | File c => n' = File c
  | Dir _ => exists es', n' = Dir es'
  end.

Definition grows (fs fs' : node) : Prop :=
  forall q n, lookup q fs = Some n -> exists n', lookup q fs' = Some n' /\ same_kind n n'.

(** No regular file of [fs'] is new. *)
Definition no_new_file (fs fs' : node) : Prop :=
  forall q c, lookup q fs' = Some (File c) -> lookup q fs = Some (File c).

(** [q] is not on the way to [p]. *)
Definition aside (p q : path) : Prop := forall r, p <> q ++ r.

End Sh.

(** ** Dynamically typed operations used by the runner *)

Module Py.

(** [v.get(k, default)]: only a [dict] has the method. *)
Definition get (v : value) (k : string) (default : value) : outcome value :=
  match v with
  | VDict d => Ret (Dict.get_default k default d)
  | _ => Raise (AttributeError
                  ("'" ++ type_name v ++ "' object has no attribute 'get'"))
  end.

(** [v[k] = x] for a string [k]: only a [dict] takes it. *)
Definition not_assignable (v : value) : exc :=
  TypeError (match v with
             | VList _ => "list indices must be integers or slices, not str"
             | _ => "'" ++ type_name v ++ "' object does not support item assignment"
             end).

Definition setitem (v : value) (k : string) (x : value) : outcome value :=
  match v with
  | VDict d => Ret (VDict (Dict.set k x d))
  | _ => Raise (not_assignable v)
  end.

(** [v[0]] for a truthy [v]. *)
Definition index0 (v : value) : outcome value :=
  match v with
  | VList (x :: _) => Ret x
  | VList [] => Raise {| exc_type := "IndexError"; exc_msg := "list index out of range";
                         is_Exception := true |}
  | VStr (String c _) => Ret (VStr (String c EmptyString))
  | VStr EmptyString => Raise {| exc_type := "IndexError";
                                 exc_msg := "string index out of range";
                                 is_Exception := true |}
  | VDict _ => Raise (KeyError "0")
  | _ => Raise (TypeError ("'" ++ type_name v ++ "' object is not subscriptable"))
  end.

(** [v.startswith(p)]: only a [str] has the method. *)
Definition startswith (v : value) (p : string) : outcome bool :=
  match v with
  | VStr s => Ret (PyStr.startswith s p)
  | _ => Raise (AttributeError
                  ("'" ++ type_name v ++ "' object has no attribute 'startswith'"))
  end.

(** [v.replace(old, new)] *)
Definition replace (v : value) (old new : string) : outcome string :=
  match v with
  | VStr s => Ret (PyStr.replace s old new)
  | _ => Raise (AttributeError
                  ("'" ++ type_name v ++ "' object has no attribute 'replace'"))
  end.

(** [p / v]: the right operand is a [str]. *)
Definition truediv (p : ppath) (v : value) : outcome ppath :=
  match v with
  | VStr s => Ret (p // s)
  | _ => Raise (TypeError ("unsupported operand type(s) for /: 'PosixPath' and '"
                           ++ type_name v ++ "'"))
  end.

(** [v[:100]], evaluated for the console narration only: strings and lists
    can be sliced. *)
Definition sliceable (v : value) : outcome unit :=
  match v with
  | VStr _ | VList _ => Ret tt
  | VDict _ => Raise (TypeError "unhashable type: 'slice'")
  | _ => Raise (TypeError ("'" ++ type_name v ++ "' object is not subscriptable"))
  end.

(** ['path' in v] *)
Definition contains_path (v : value) : outcome bool :=
  match v with
  | VDict d => Ret (match Dict.get "path" d with Some _ => true | None => false end)
  | VStr s => Ret (PyStr.contains "path" s)
  | VList l => Ret (existsb (fun x => match x with
                                      | VStr s => String.eqb s "path"
                                      | _ => false
                                      end) l)
  | _ => Raise (TypeError ("argument of type '" ++ type_name v ++ "' is not iterable"))
  end.

(** [for x in v]: the items the loop visits. *)
Definition iter (v : value) : outcome (list value) :=
  match v with
  | VList l => Ret l
  | VDict d => Ret (map (fun kv => VStr (fst kv)) d)
  | VStr s => Ret (map (fun c => VStr (String c EmptyString)) (list_ascii_of_string s))
  | _ => Raise (TypeError ("'" ++ type_name v ++ "' object is not iterable"))
  end.

(** [l[:n]] *)
Definition slice_to {A} (n : Z) (l : list A) : list A :=
  if (0 <=? n)%Z then firstn (Z.to_nat n) l
  else firstn (length l - Z.to_nat (- n)) l.

(** [sorted(l)] on strings. *)
Fixpoint insert_sorted (x : string) (l : list string) : list string :=
  match l with
  | [] => [x]
  | y :: l' => if String.leb x y then x :: l else y :: insert_sorted x l'
  end.

Definition sorted (l : list string) : list string :=
  fold_right insert_sorted [] l.

(** Binary64 arithmetic and ["{:.2f}"] *)
Definition prec : Z := 53.
Definition emax : Z := 1024.

(** [float(n)] *)
Definition float_of_nat (n : nat) : spec_float :=
  binary_normalize prec emax (Z.of_nat n) 0 false.

(** [a / b] on [int]s with [b] not zero, as a float *)
Definition truediv_int (a b : nat) : spec_float :=
  SFdiv prec emax (float_of_nat a) (float_of_nat b).

Definition fmul (x y : spec_float) : spec_float := SFmul prec emax x y.

(** Hundredths of [m * 2^e], rounded to nearest, ties to even. *)
Definition hundredths (m : positive) (e : Z) : Z :=
  if (0 <=? e)%Z then (Zpos m * 2 ^ e * 100)%Z
  else
    let d := (2 ^ (- e))%Z in
    let q := (Zpos m * 100 / d)%Z in
    let r := (Zpos m * 100 mod d)%Z in
    match (2 * r ?= d)%Z with
    | Lt => q
    | Gt => (q + 1)%Z
    | Eq => if Z.even q then q else (q + 1)%Z
    end.

Definition two_digits (n : nat) : string :=
  if (n <? 10)%nat then "0" ++ PyStr.of_nat n else PyStr.of_nat n.

Definition fixed2 (h : Z) : string :=
  PyStr.of_nat (Z.to_nat (h / 100)) ++ "." ++ two_digits (Z.to_nat (h mod 100)).

(** [f"{x:.2f}"] *)
Definition format_2f (x : spec_float) : string :=
  match x with
  | S754_zero s => (if s then "-" else "") ++ "0.00"
  | S754_infinity s => (if s then "-" else "") ++ "inf"
  | S754_nan => "nan"
  | S754_finite s m e => (if s then "-" else "") ++ fixed2 (hundredths m e)
  end.

End Py.

(** ** The runner *)

Module GitTaskBenchRunner.

Record runner := {
  gittaskbench_root : ppath;
  output_root : ppath;
  api_type : string
}.

(** The prefix that stands for the benchmark root in [query.json]. *)
Definition PLACEHOLDER : string := "/GitTaskBench/".

Fixpoint find_doc (task_id : string) (store : list (string * dict)) : option dict :=
  match store with
  | [] => None
  | (k, d) :: store' => if String.eqb task_id k then Some d else find_doc task_id store'
  end.

(** [load_task_config] from the two files as they load.  [None] is a file
    that is not there; a file that is there gives what [open] and
    [yaml.safe_load] or [json.load] give on it: an exception, or a value,
    which need not be a mapping ([None] for an empty [task_info.yaml]).
    In an assignment the value is computed before it is stored. *)
Definition load_task_config_from (config_path : ppath)
  (config_file query_file : option (outcome value)) : outcome value :=
  match config_file with
  | None => Raise (ValueError ("Task config not found: " ++ str config_path))
  | Some loaded =>
      task_info <~ loaded ;;
      match query_file with
      | Some loaded =>
          query_info <~ loaded ;;
          task_description <~ Py.get query_info "task_description" (VStr "") ;;
          task_info <~ Py.setitem task_info "task_description" task_description ;;
          repositories <~ Py.get query_info "repositories" (VList []) ;;
          task_info <~ Py.setitem task_info "repositories" repositories ;;
          file_paths <~ Py.get query_info "file_paths" (VDict []) ;;
          input_files <~ Py.get file_paths "input_files" (VList []) ;;
          Py.setitem task_info "input_data" input_files
      | None => Ret task_info
      end
  end.

(** A document of a store, as a file that loads. *)
Definition as_loaded (doc : option dict) : option (outcome value) :=
  option_map (fun d => Ret (VDict d)) doc.

Section Runner.

(** The instance ([__init__] has run: the benchmark root exists and the
    output root was created). *)
Variable self : runner.

(** The two configuration stores, by task directory name: the parsed
    [config/<task>/task_info.yaml] and [queries/<task>/query.json]
    documents that exist, each a mapping.  They are read only. *)
Variable config_store : list (string * dict).
Variable query_store : list (string * dict).

(** Where relative paths start, and [tempfile.gettempdir()]. *)
Variable cwd : FS.path.
Variable tempdir : FS.path.

(** [tempfile]'s candidate names and its bound on the attempts. *)
Variable random_name : nat -> string.
Variable TMP_MAX : nat.

(** The external agent: [get_llm_config(api_type)], the construction of
    [RepoMasterAgent] on [work_dir] and [run_repository_agent]. *)
Variable agent : string -> FS.path -> value -> string -> option value -> M payload.

(** [traceback.format_exc()] while the exception is handled. *)
Variable format_exc : exc -> string.

Definition config_dir : ppath := gittaskbench_root self // "config".
Definition queries_dir : ppath := gittaskbench_root self // "queries".
Definition code_base_dir : ppath := gittaskbench_root self // "code_base".

(** The place of a path in the file-system tree. *)
Definition loc (p : ppath) : FS.path :=
  if String.eqb (root p) "" then cwd ++ parts p else parts p.

(** [get_all_tasks] *)
Definition get_all_tasks : list string := Py.sorted (map fst config_store).

(** [load_task_config] *)
Definition load_task_config (task_id : string) : outcome dict :=
  let config_path := config_dir // task_id // "task_info.yaml" in
  match find_doc task_id config_store with
  | None => Raise (ValueError ("Task config not found: " ++ str config_path))
  | Some task_info =>
      match find_doc task_id query_store with
      | Some query_info =>
          let task_info :=
            Dict.set "task_description"
              (Dict.get_default "task_description" (VStr "") query_info) task_info in
          let task_info :=
            Dict.set "repositories"
              (Dict.get_default "repositories" (VList []) query_info) task_info in
          input_files <~ Py.get (Dict.get_default "file_paths" (VDict []) query_info)
                                "input_files" (VList []) ;;
          Ret (Dict.set "input_data" input_files task_info)
      | None => Ret task_info
      end
  end.

(** [run_single_task], "Determine repository path". *)
Definition resolve_repository (repo_info : value) : outcome string :=
  repo_path <~ Py.get repo_info "path" (VStr "") ;;
  prefixed <~ Py.startswith repo_path PLACEHOLDER ;;
  if prefixed : bool then
    relative_path <~ Py.replace repo_path PLACEHOLDER "" ;;
    Ret (str (gittaskbench_root self // relative_path))
  else
    repo_name <~ Py.get repo_info "name" (VStr "") ;;
    p <~ Py.truediv code_base_dir repo_name ;;
    Ret (str p).

(** [run_single_task], "Process input data": one [data_item]. *)
Definition resolve_item (data_item : value) : outcome value :=
  has_path <~ Py.contains_path data_item ;;
  if has_path : bool then
    match data_item with
    | VDict d =>
        let path := Dict.get_default "path" VNone d in
        prefixed <~ Py.startswith path PLACEHOLDER ;;
        if prefixed : bool then
          relative_path <~ Py.replace path PLACEHOLDER "" ;;
          Ret (VDict (Dict.set "path"
                        (VStr (str (gittaskbench_root self // relative_path))) d))
        else Ret data_item
    | VStr _ => Raise (TypeError "string indices must be integers, not 'str'")
    | _ => Raise (TypeError "list indices must be integers or slices, not str")
    end
  else Ret data_item.

Fixpoint resolve_items (items : list value) : outcome (list value) :=
  match items with
  | [] => Ret []
  | x :: rest =>
      x' <~ resolve_item x ;;
      rest' <~ resolve_items rest ;;
      Ret (x' :: rest')
  end.

Definition resolve_input_data (input_data : value) : outcome value :=
  if truthy input_data then
    items <~ Py.iter input_data ;;
    items' <~ resolve_items items ;;
    Ret (match input_data with
         | VList _ => VList items'
         | _ => input_data
         end)
  else Ret input_data.

(** [tempfile.mkdtemp(prefix=...)]: the first candidate name that is free in
    the temporary directory; the directory is created under that name, one
    path component. *)
Fixpoint mkdtemp_from (attempts i : nat) (prefix : string) : M FS.path :=
  fun fs =>
    match attempts with
    | O => (Raise {| exc_type := "FileExistsError";
                     exc_msg := "[Errno 17] No usable temporary directory name found";
                     is_Exception := true |}, fs)
    | S attempts' =>
        let file := tempdir ++ [(prefix ++ random_name i)%string] in
        match FS.lookup file fs with
        | Some _ => mkdtemp_from attempts' (S i) prefix fs
        | None =>
            match FS.put file (Dir []) fs with
            | inr fs' => (Ret file, fs')
            | inl e => (Raise (FS.os_error e file), fs)
            end
        end
    end.

Definition mkdtemp (prefix : string) : M FS.path := mkdtemp_from TMP_MAX 0 prefix.

Definition RESULT_FILE : string := "execution_result.json".
Definition ERROR_FILE : string := "execution_error.json".
Definition DATASET_DIR : string := "input_dataset".

(** [item.name in [Path(repository).name, 'input_dataset']] *)
Definition skipped_name (repository : string) (nm : string) : bool :=
  String.eqb nm (name (parse repository)) || String.eqb nm DATASET_DIR.

(** [run_single_task], one turn of the loop over [temp_work_dir.iterdir()].
    An entry name is one path component, so [final_output_dir / item.name]
    is the child of that name. *)
Definition collect_item (repository : string) (temp_work_dir out : FS.path)
           (nm : string) : M unit :=
  let item := temp_work_dir ++ [nm] in
  d <- Sh.is_dir item ;;
  if d && skipped_name repository nm then ret tt
  else
    f <- Sh.is_file item ;;
    if f : bool then Sh.copy2 item (out ++ [nm])
    else
      d' <- Sh.is_dir item ;;
      if d' : bool then Sh.copytree item (out ++ [nm]) else ret tt.

Fixpoint collect (repository : string) (temp_work_dir out : FS.path)
         (names : list string) : M unit :=
  match names with
  | [] => ret tt
  | nm :: rest =>
      collect_item repository temp_work_dir out nm ;;;
      collect repository temp_work_dir out rest
  end.

(** The local variables of [run_single_task] that its [try] statement
    uses. *)
Record locals := {
  task_description : value;
  repository : string;
  input_data : value;
  temp_work_dir : FS.path;
  final_output_dir : ppath
}.

(** [run_single_task] up to its [try] statement: the configuration is
    loaded and resolved, then the two directories are created. *)
Definition setup (task_id : string) (verbose : bool) : M locals :=
  task_info <- lift (load_task_config task_id) ;;
  let task_description := Dict.get_default "task_description" (VStr "") task_info in
  let repositories := Dict.get_default "repositories" (VList []) task_info in
  if negb (truthy repositories)
  then raise (ValueError ("No repository found for task " ++ task_id))
  else
    repo_info <- lift (Py.index0 repositories) ;;
    repository <- lift (resolve_repository repo_info) ;;
    input_data <- lift (resolve_input_data
                          (Dict.get_default "input_data" (VList []) task_info)) ;;
    temp_work_dir <- mkdtemp ("repomaster_" ++ task_id ++ "_") ;;
    let final_output_dir := output_root self // task_id in
    Sh.mkdir_p (loc final_output_dir) ;;;
    (if verbose then lift (Py.sliceable task_description) else ret tt) ;;;
    ret {| task_description := task_description;
           repository := repository;
           input_data := input_data;
           temp_work_dir := temp_work_dir;
           final_output_dir := final_output_dir |}.

(** The call of the agent. *)
Definition invoke (l : locals) : M payload :=
  agent (api_type self) (temp_work_dir l) (task_description l) (repository l)
        (if truthy (input_data l) then Some (input_data l) else None).

(** [run_single_task], the body of [try] after the agent returned
    [result]: the outputs are collected, the result is saved and the
    temporary directory is removed. *)
Definition collect_and_save (task_id : string) (l : locals) (result : payload)
  : M exec_result :=
  names <- Sh.iterdir (temp_work_dir l) ;;
  collect (repository l) (temp_work_dir l) (loc (final_output_dir l)) names ;;;
  let result_data :=
    ResultData task_id result (str (final_output_dir l)) (repository l)
               (task_description l) in
  Sh.json_dump false (loc (final_output_dir l) ++ [RESULT_FILE])
               (ResultJson result_data) ;;;
  Sh.rmtree (temp_work_dir l) true ;;;
  ret result_data.

(** [run_single_task], the body of [try]. *)
Definition attempt (task_id : string) (l : locals) : M exec_result :=
  result <- invoke l ;;
  collect_and_save task_id l result.

(** [run_single_task], the body of [except Exception as e]. *)
Definition on_error (task_id : string) (l : locals) (e : exc) : M exec_result :=
  let error_data :=
    ErrorData task_id (exc_msg e) (exc_type e) (format_exc e)
              (str (final_output_dir l)) in
  Sh.json_dump true (loc (final_output_dir l) ++ [ERROR_FILE])
               (ResultJson error_data) ;;;
  Sh.rmtree (temp_work_dir l) true ;;;
  ret error_data.

(** [run_single_task] *)
Definition run_single_task (task_id : string) (verbose : bool) : M exec_result :=
  l <- setup task_id verbose ;;
  try_except (attempt task_id l) (on_error task_id l).

Definition PROGRESS_FILE : string := "evaluation_progress.json".
Definition SUMMARY_FILE : string := "evaluation_summary.json".

(** [_save_progress] *)
Definition _save_progress (results : list exec_result) : M unit :=
  Sh.json_dump true (loc (output_root self) ++ [PROGRESS_FILE]) (ProgressJson results).

(** [f"{successful/total*100:.2f}%" if total > 0 else "0%"] *)
Definition rate (successful total : nat) : string :=
  if (0 <? total)%nat
  then Py.format_2f (Py.fmul (Py.truediv_int successful total) (Py.float_of_nat 100))
       ++ "%"
  else "0%".

(** [_generate_summary] *)
Definition _generate_summary (results : list exec_result) (successful failed : nat)
  : M summary :=
  let total := length results in
  let summary := {|
    total_tasks := total;
    successful := successful;
    failed := failed;
    success_rate := rate successful total;
    summary_api_type := api_type self;
    summary_output_root := str (output_root self);
    results := results
  |} in
  Sh.json_dump true (loc (output_root self) ++ [SUMMARY_FILE]) (SummaryJson summary) ;;;
  ret summary.

(** [run_batch]: the task list after [task_ids is None] and [if max_tasks]. *)
Definition select_tasks (task_ids : option (list string)) (max_tasks : option Z)
  : list string :=
  let task_ids := match task_ids with
                  | None => get_all_tasks
                  | Some l => l
                  end in
  match max_tasks with
  | Some n => if negb (Z.eqb n 0) then Py.slice_to n task_ids else task_ids
  | None => task_ids
  end.

(** The loop variables of [run_batch]: [results], [successful], [failed]. *)
Definition counters : Type := list exec_result * nat * nat.

(** One iteration of the loop of [run_batch]. *)
Definition batch_step (task_id : string) (st : counters) : M counters :=
  let '(results, successful, failed) := st in
  result <- run_single_task task_id false ;;
  let results := results ++ [result] in
  let '(successful, failed) :=
    if success result then (S successful, failed) else (successful, S failed) in
  _save_progress results ;;;
  ret (results, successful, failed).

Fixpoint batch_loop (task_ids : list string) (st : counters) : M counters :=
  match task_ids with
  | [] => ret st
  | task_id :: rest =>
      st' <- batch_step task_id st ;;
      batch_loop rest st'
  end.

(** [run_batch] *)
Definition run_batch (task_ids : option (list string)) (max_tasks : option Z)
  : M summary :=
  st <- batch_loop (select_tasks task_ids max_tasks) ([], 0, 0) ;;
  let '(results, successful, failed) := st in
  _generate_summary results successful failed.

End Runner.

(** *** The constructor *)

Section Init.

Variable cwd : FS.path.

(** [Path(__file__)] of the module of the runner. *)
Variable module_file : ppath.

(** Where the walk of a path starts: the root for an absolute path, the
    working directory for a relative one. *)
Definition start (p : ppath) : FS.path :=
  if String.eqb (root p) "" then cwd else [].

(** [__init__]: the benchmark root must exist; the output root is created
    if it is missing.  [None] stands for an argument left to its default.
    The two roots are given by the caller, the command line has
    [../GitTaskBench] for the first: they are walked as the kernel walks
    them, [..] included. *)
Definition __init__ (gittaskbench_root output_root api_type : option string)
  : M runner :=
  let gittaskbench_root :=
    match gittaskbench_root with
    | None => parent (parent (parent (parent module_file))) // "GitTaskBench"
    | Some s => parse s
    end in
  found <- Sh.exists_from (start gittaskbench_root) (parts gittaskbench_root) ;;
  if negb found
  then raise (ValueError ("GitTaskBench not found at: " ++ str gittaskbench_root))
  else
    let output_root :=
      match output_root with
      | None => parent (parent (parent module_file)) // "gittaskbench_results"
      | Some s => parse s
      end in
    Sh.mkdir_parents (start output_root) (parts output_root) ;;;
    ret {| gittaskbench_root := gittaskbench_root;
           output_root := output_root;
           api_type := match api_type with None => "basic" | Some s => s end |}.

End Init.

(** *** Grading *)

(** The dictionary that [grade_with_gittaskbench] returns, told apart by
    its ['graded'] key. *)
Inductive grade_result :=
| Graded (task_id : string) (result : value)
| NotGraded (task_id error : string).

Definition graded (g : grade_result) : bool :=
  match g with
  | Graded _ _ => true
  | NotGraded _ _ => false
  end.

Definition graded_task (g : grade_result) : string :=
  match g with
  | Graded t _ => t
  | NotGraded t _ => t
  end.

Definition NO_OUTPUT : string := "Output directory not found. Run task first.".
Definition NO_MODULE : string :=
  "GitTaskBench grading module not available. Install GitTaskBench properly.".

Section Grading.

Variable self : runner.
Variable cwd : FS.path.

(** The external evaluator: [from gittaskbench import TaskEvaluator], and
    [TaskEvaluator(task_id).grade(output_dir=...)]. *)
Variable import_TaskEvaluator : M unit.
Variable evaluate : string -> string -> M value.

(** [isinstance(e, ImportError)] *)
Variable is_ImportError : exc -> bool.

(** [grade_with_gittaskbench], the body of [try]. *)
Definition try_grade (task_id : string) : M grade_result :=
  import_TaskEvaluator ;;;
  let output_dir := output_root self // task_id in
  found <- Sh.path_exists (loc cwd output_dir) ;;
  if negb found then ret (NotGraded task_id NO_OUTPUT)
  else
    grade_result <- evaluate task_id (str output_dir) ;;
    ret (Graded task_id grade_result).

(** [grade_with_gittaskbench]: [except ImportError] comes before
    [except Exception as e]. *)
Definition grade_with_gittaskbench (task_id : string) : M grade_result :=
  fun fs =>
    match try_grade task_id fs with
    | (Ret g, fs') => (Ret g, fs')
    | (Raise e, fs') =>
        if is_ImportError e then (Ret (NotGraded task_id NO_MODULE), fs')
        else if is_Exception e then (Ret (NotGraded task_id (exc_msg e)), fs')
        else (Raise e, fs')
    end.

End Grading.

End GitTaskBenchRunner.

(** ** The command line

    Source: [script/gittaskbench_cli.py].  [main] is modelled from the
    parsed arguments on: [argparse] makes one of [--task], [--tasks],
    [--all], [--list] present, and only one. *)

Module Cli.
Import GitTaskBenchRunner.

(** The namespace that [parser.parse_args()] returns ([list_] is its
    [list]). *)
Record args := {
  task : option string;
  tasks : option (list string);
  all : bool;
  list_ : bool;
  gittaskbench_root : string;
  output_dir : string;
  api_type : string;
  max_tasks : option Z;
  grade : bool
}.

Section Main.

Variables config_store query_store : list (string * dict).
Variables cwd tempdir : FS.path.
Variable random_name : nat -> string.
Variable TMP_MAX : nat.
Variable agent : string -> FS.path -> value -> string -> option value -> M payload.
Variable format_exc : exc -> string.
Variable module_file : ppath.
Variable import_TaskEvaluator : M unit.
Variable evaluate : string -> string -> M value.
Variable is_ImportError : exc -> bool.

(** [except ValueError]: of the exceptions the constructor raises, the one
    of that class is its own. *)
Definition is_ValueError (e : exc) : bool := String.eqb (exc_type e) "ValueError".

(** [main], once the runner is there; the value is what [main] returns,
    [None] when it falls off its end. *)
Definition dispatch (a : args) (runner : runner) : M (option Z) :=
  if list_ a then
    let _tasks := get_all_tasks config_store in
    ret (Some 0%Z)
  else
    match task a, tasks a with
    | Some (String c t), _ =>
        result <- run_single_task runner config_store query_store cwd tempdir
                                  random_name TMP_MAX agent format_exc
                                  (String c t) true ;;
        (if grade a && success result
         then
           grade_with_gittaskbench runner cwd import_TaskEvaluator evaluate
                                   is_ImportError (String c t) ;;;
           ret tt
         else ret tt) ;;;
        ret (Some (if success result then 0 else 1)%Z)
    | _, Some (t :: ts) =>
        summary <- run_batch runner config_store query_store cwd tempdir
                             random_name TMP_MAX agent format_exc
                             (Some (t :: ts)) None ;;
        ret (Some (if Nat.eqb (failed summary) 0 then 0 else 1)%Z)
    | _, _ =>
        if all a then
          summary <- run_batch runner config_store query_store cwd tempdir
                               random_name TMP_MAX agent format_exc
                               None (max_tasks a) ;;
          ret (Some (if Nat.eqb (failed summary) 0 then 0 else 1)%Z)
        else ret None
    end.

(** [main] *)
Definition main (a : args) : M (option Z) :=
  fun fs =>
    match __init__ cwd module_file (Some (gittaskbench_root a)) (Some (output_dir a))
                   (Some (api_type a)) fs with
    | (Ret runner, fs') => dispatch a runner fs'
    | (Raise e, fs') =>
        if is_ValueError e then (Ret (Some 1%Z), fs') else (Raise e, fs')
    end.

(** [sys.exit(main())]: the exit status. *)
Definition exit_status (code : option Z) : Z :=
  match code with
  | None => 0%Z
  | Some z => z
  end.

End Main.

End Cli.

(** ** The placeholder rule as the specification words it

    "a path beginning with the placeholder prefix is rewritten to the
    concrete path obtained by joining the benchmark root with the
    remainder": the remainder is what follows the prefix. *)

Definition remainder_after_placeholder (path : string) : string :=
  let n := String.length GitTaskBenchRunner.PLACEHOLDER in
  String.substring n (String.length path - n) path.

Definition joined_with_remainder (benchmark_root : ppath) (path : string) : string :=
  str (benchmark_root // remainder_after_placeholder path).

(** ** A small benchmark

    Seven tasks and a scripted agent, to run the definitions on. *)

Module Example.
Import GitTaskBenchRunner.

Definition self : runner :=
  {| gittaskbench_root := parse "/bench";
     output_root := parse "/out";
     api_type := "basic" |}.

Definition repo : value :=
  VDict [("name", VStr "Repo"); ("path", VStr "/GitTaskBench/code_base/Repo")].

Definition query (descr : string) : dict :=
  [("task_description", VStr descr);
   ("repositories", VList [repo]);
   ("file_paths",
    VDict [("input_files",
            VList [VDict [("path", VStr "/GitTaskBench/queries/in.txt")];
                   VDict [("path", VStr "notes.txt")]])])].

Definition config_store : list (string * dict) :=
  [("X", [("grading", VStr "exact")]);
   ("Y", []);
   ("E", [("repositories", VList [])]);
   ("D", []);
   ("A", []);
   ("W", []);
   ("M", [("task_description", VStr "from metadata"); ("grading", VStr "exact")]);
   ("N", [("task_description", VStr "only metadata")])].

Definition query_store : list (string * dict) :=
  [("X", query "collect");
   ("Y", query "fail");
   ("D", query "dataset file");
   ("A", query "error artifact");
   ("W", query "two directories");
   ("M", [])].

Definition cwd : FS.path := [].
Definition tempdir : FS.path := ["tmp"].
Definition random_name : nat -> string := PyStr.of_nat.
Definition TMP_MAX : nat := 100.

Definition format_exc (e : exc) : string :=
  "Traceback (most recent call last): " ++ exc_type e ++ ": " ++ exc_msg e.

(** The agent writes the given entries into its working directory. *)
Definition produce (work_dir : FS.path) (es : list (string * node)) (fs : node) : node :=
  fold_left (fun s kn => match FS.put (work_dir ++ [fst kn]) (snd kn) s with
                         | inr s' => s'
                         | inl _ => s
                         end) es fs.

Definition RuntimeError (msg : string) : exc :=
  {| exc_type := "RuntimeError"; exc_msg := msg; is_Exception := true |}.

(** What the agent does is told by the task description. *)
Definition agent (api : string) (work_dir : FS.path) (descr : value) (repository : string)
           (input_data_json : option value) : M payload :=
  fun fs =>
    match descr with
    | VStr "collect" =>
        (Ret (Json (VStr "done")),
         produce work_dir
                 [("out.txt", File (Bytes "hello"));
                  ("Repo", Dir [("README", File (Bytes "cloned"))]);
                  ("input_dataset", Dir [("in.txt", File (Bytes "data"))]);
                  ("res", Dir [("a", File (Bytes "A"));
                               ("sub", Dir [("b", File (Bytes "B"))])])] fs)
    | VStr "dataset file" =>
        (Ret (Json (VStr "done")),
         produce work_dir [("input_dataset", File (Bytes "rows"))] fs)
    | VStr "error artifact" =>
        (Ret (Json (VStr "done")),
         produce work_dir [("execution_error.json", File (Bytes "agent log"))] fs)
    | VStr "two directories" =>
        (Ret (Json (VStr "done")),
         produce work_dir [("execution_result.json", Dir []);
                           ("execution_error.json", Dir [])] fs)
    | _ =>
        (Raise (RuntimeError "boom"),
         produce work_dir [("out.txt", File (Bytes "hello"))] fs)
    end.

(** An empty temporary directory and an empty output root. *)
Definition fs0 : node := Dir [("tmp", Dir []); ("out", Dir [])].

(** The same after task [A] failed once: its error document is there. *)
Definition stale_error : exec_result :=
  ErrorData "A" "boom" "RuntimeError" "Traceback" "/out/A".

Definition fs_stale : node :=
  Dir [("tmp", Dir []);
       ("out", Dir [("A", Dir [("execution_error.json",
                                File (ResultJson stale_error))])])].

Definition load_task_config := load_task_config self config_store query_store.
Definition setup := setup self config_store query_store cwd tempdir random_name TMP_MAX.
Definition invoke := invoke self agent.
Definition run_single_task :=
  run_single_task self config_store query_store cwd tempdir random_name TMP_MAX
                  agent format_exc.
Definition _save_progress := _save_progress self cwd.
Definition _generate_summary := _generate_summary self cwd.
Definition batch_loop :=
  batch_loop self config_store query_store cwd tempdir random_name TMP_MAX
             agent format_exc.
Definition run_batch :=
  run_batch self config_store query_store cwd tempdir random_name TMP_MAX
            agent format_exc.

(** The local variables of the run of a task that resolves as [repo]. *)
Definition locals_of (task_id descr : string) : locals :=
  {| task_description := VStr descr;
     repository := "/bench/code_base/Repo";
     input_data := VList [VDict [("path", VStr "/bench/queries/in.txt")];
                          VDict [("path", VStr "notes.txt")]];
     temp_work_dir := ["tmp"; ("repomaster_" ++ task_id ++ "_0")%string];
     final_output_dir := {| root := "/"; parts := ["out"; task_id] |} |}.

Definition boom : exc := RuntimeError "boom".

(** Task [X] alone, from [fs0]: the agent returns. *)
Definition X_locals : locals := locals_of "X" "collect".
Definition X_entered : node := Eval vm_compute in snd (setup "X" false fs0).
Definition X_produced : node := Eval vm_compute in snd (invoke X_locals X_entered).
Definition X_result : exec_result :=
  ResultData "X" (VStr "done") "/out/X" "/bench/code_base/Repo" (VStr "collect").
Definition X_done : node := Eval vm_compute in snd (run_single_task "X" false fs0).

(** Task [Y] alone, from [fs0]: the agent raises [boom]. *)
Definition Y_locals : locals := locals_of "Y" "fail".
Definition Y_entered : node := Eval vm_compute in snd (setup "Y" false fs0).
Definition Y_raised : node := Eval vm_compute in snd (invoke Y_locals Y_entered).
Definition Y_result : exec_result :=
  ErrorData "Y" "boom" "RuntimeError" (format_exc boom) "/out/Y".
Definition Y_done : node := Eval vm_compute in snd (run_single_task "Y" false fs0).

(** Task [D]: the agent leaves a regular file named [input_dataset]. *)
Definition D_locals : locals := locals_of "D" "dataset file".

(** Task [A], from [fs_stale]: the agent leaves a file named as the error
    document. *)
Definition A_result : exec_result :=
  ResultData "A" (VStr "done") "/out/A" "/bench/code_base/Repo" (VStr "error artifact").
Definition A_done : node := Eval vm_compute in snd (run_single_task "A" false fs_stale).

(** The batch of [X] then [Y], from [fs0]. *)
Definition XY_progress1 : node :=
  Eval vm_compute in snd (_save_progress [X_result] X_done).
Definition XY_entered : node := Eval vm_compute in snd (setup "Y" false XY_progress1).
Definition XY_raised : node := Eval vm_compute in snd (invoke Y_locals XY_entered).
Definition XY_recorded : node :=
  Eval vm_compute in
    snd (Sh.write_file ["out"; "Y"; "execution_error.json"] (ResultJson Y_result)
                       XY_raised).
Definition XY_progress2 : node :=
  Eval vm_compute in
    snd (_save_progress [X_result; Y_result]
                       (snd (Sh.rmtree ["tmp"; "repomaster_Y_0"] true XY_recorded))).
Definition XY_summary : summary :=
  {| total_tasks := 2; successful := 1; failed := 1; success_rate := "50.00%";
     summary_api_type := "basic"; summary_output_root := "/out";
     results := [X_result; Y_result] |}.
Definition XY_done : node :=
  Eval vm_compute in snd (_generate_summary [X_result; Y_result] 1 1 XY_progress2).

End Example.

(** ** The command line on the small benchmark

    The benchmark root is there; the evaluator is scripted by the task, as
    the agent is by the description. *)

Module CliExample.
Import GitTaskBenchRunner.

Definition module_file : ppath :=
  parse "/work/RepoMaster/src/gittaskbench/gittaskbench_runner.py".

(** The benchmark root and an empty temporary directory, with and without
    the output root. *)
Definition fs_bench : node := Dir [("bench", Dir []); ("tmp", Dir []); ("out", Dir [])].
Definition fs_new : node := Dir [("bench", Dir []); ("tmp", Dir [])].

(** A first candidate name for the scratch directory of [X] is taken. *)
Definition fs_taken : node :=
  Dir [("tmp", Dir [("repomaster_X_0", Dir [])]); ("out", Dir [])].

Definition KeyboardInterrupt : exc :=
  {| exc_type := "KeyboardInterrupt"; exc_msg := ""; is_Exception := false |}.

(** An agent that is interrupted after it wrote a file. *)
Definition interrupted (api : string) (work_dir : FS.path) (descr : value)
           (repository : string) (input_data_json : option value) : M payload :=
  fun fs =>
    (Raise KeyboardInterrupt,
     Example.produce work_dir [("out.txt", File (Bytes "hello"))] fs).

(** An agent that returns a set, which [json.dump] refuses. *)
Definition not_serializable : exc :=
  TypeError "Object of type set is not JSON serializable".

Definition returns_set (api : string) (work_dir : FS.path) (descr : value)
           (repository : string) (input_data_json : option value) : M payload :=
  fun fs =>
    (Ret (NotJson not_serializable),
     Example.produce work_dir [("out.txt", File (Bytes "hello"))] fs).

(** A regular file is where the output directory of [X] should be. *)
Definition fs_blocked : node :=
  Dir [("tmp", Dir []); ("out", Dir [("X", File (Bytes "in the way"))])].

Definition ImportError (msg : string) : exc :=
  {| exc_type := "ImportError"; exc_msg := msg; is_Exception := true |}.

Definition is_ImportError (e : exc) : bool :=
  String.eqb (exc_type e) "ImportError" || String.eqb (exc_type e) "ModuleNotFoundError".

Definition import_TaskEvaluator : M unit := ret tt.

(** The evaluator passes [X], lacks a module for [A] and fails on the
    others. *)
Definition evaluate (task_id output_dir : string) : M value :=
  fun fs =>
    match task_id with
    | "X" => (Ret (VDict [("status", VStr "pass"); ("output_dir", VStr output_dir)]), fs)
    | "A" => (Raise (ImportError "No module named 'cv2'"), fs)
    | _ => (Raise (Example.RuntimeError "no grader"), fs)
    end.

Definition args_of (task : option string) (tasks : option (list string))
           (all list_ : bool) (max_tasks : option Z) (grade : bool) : Cli.args :=
  {| Cli.task := task; Cli.tasks := tasks; Cli.all := all; Cli.list_ := list_;
     Cli.gittaskbench_root := "/bench"; Cli.output_dir := "/out";
     Cli.api_type := "basic"; Cli.max_tasks := max_tasks; Cli.grade := grade |}.

Definition __init__ := __init__ Example.cwd module_file.
Definition grade_with_gittaskbench :=
  grade_with_gittaskbench Example.self Example.cwd import_TaskEvaluator evaluate
                          is_ImportError.
Definition main :=
  Cli.main Example.config_store Example.query_store Example.cwd Example.tempdir
           Example.random_name Example.TMP_MAX Example.agent Example.format_exc
           module_file import_TaskEvaluator evaluate is_ImportError.

(** The run of [X] with the interrupted agent, from [Example.fs0]. *)
Definition X_interrupted : node :=
  Eval vm_compute in
    snd (interrupted "basic" ["tmp"; "repomaster_X_0"] (VStr "collect")
                     "/bench/code_base/Repo" None Example.X_entered).

(** The run of [X] when the first name is taken. *)
Definition X_second : locals :=
  {| task_description := VStr "collect";
     repository := "/bench/code_base/Repo";
     input_data := VList [VDict [("path", VStr "/bench/queries/in.txt")];
                          VDict [("path", VStr "notes.txt")]];
     temp_work_dir := ["tmp"; "repomaster_X_1"];
     final_output_dir := {| root := "/"; parts := ["out"; "X"] |} |}.
Definition X_second_entered : node :=
  Eval vm_compute in snd (Example.setup "X" false fs_taken).

(** Task [W]: the agent leaves directories named as the two documents. *)
Definition W_locals : locals := Example.locals_of "W" "two directories".
Definition W_entered : node := Eval vm_compute in snd (Example.setup "W" false Example.fs0).
Definition W_left : node :=
  Eval vm_compute in snd (Example.run_single_task "W" false Example.fs0).


(** The command line: one task, graded; and the batch of [X] then [Y]. *)
Definition X_run : node :=
  Eval vm_compute in snd (Example.run_single_task "X" true fs_bench).
Definition X_grade : grade_result :=
  Graded "X" (VDict [("status", VStr "pass"); ("output_dir", VStr "/out/X")]).
Definition XY_run : node :=
  Eval vm_compute in snd (Example.run_batch (Some ["X"; "Y"]) None fs_bench).

(** The run of [X] on [fs_blocked]: the output directory cannot be made. *)
Definition X_blocked : node :=
  Eval vm_compute in snd (Example.run_single_task "X" false fs_blocked).

(** [X] ran and succeeded; it runs again, and the agent returns a set. *)
Definition X_refused_record : exec_result :=
  ErrorData "X" "Object of type set is not JSON serializable" "TypeError"
            (Example.format_exc not_serializable) "/out/X".
Definition X_again : node := Eval vm_compute in snd (Example.setup "X" false Example.X_done).
Definition X_again_produced : node :=
  Eval vm_compute in
    snd (returns_set "basic" ["tmp"; "repomaster_X_0"] (VStr "collect")
                     "/bench/code_base/Repo" None X_again).
Definition X_refused : node :=
  Eval vm_compute in
    snd (run_single_task Example.self Example.config_store Example.query_store
                         Example.cwd Example.tempdir Example.random_name
                         Example.TMP_MAX returns_set Example.format_exc
                         "X" false Example.X_done).

(** RepoMaster and the benchmark side by side, as the command line expects
    them, the working directory being that of RepoMaster. *)
Definition cwd_repo : FS.path := ["work"; "RepoMaster"].
Definition fs_side : node :=
  Dir [("work", Dir [("RepoMaster", Dir [("README", File (Bytes "RepoMaster"))]);
                     ("GitTaskBench", Dir [])])].
Definition side_runner : runner :=
  {| gittaskbench_root := parse "../GitTaskBench";
     output_root := parse "../results/run1";
     api_type := "basic" |}.
Definition fs_side_made : node :=
  Eval vm_compute in
    snd (GitTaskBenchRunner.__init__ cwd_repo module_file (Some "../GitTaskBench")
           (Some "../results/run1") None fs_side).

(** An output directory that cannot be made, given through a directory
    that is not there yet. *)
Definition args_through : Cli.args :=
  {| Cli.task := Some "X"; Cli.tasks := None; Cli.all := false; Cli.list_ := false;
     Cli.gittaskbench_root := "../GitTaskBench"; Cli.output_dir := "new/../README/out";
     Cli.api_type := "basic"; Cli.max_tasks := None; Cli.grade := false |}.
Definition main_side :=
  Cli.main Example.config_store Example.query_store cwd_repo Example.tempdir
           Example.random_name Example.TMP_MAX Example.agent Example.format_exc
           module_file import_TaskEvaluator evaluate is_ImportError.
Definition fs_side_through : node :=
  Eval vm_compute in snd (main_side args_through fs_side).

End CliExample.

(** * Facts *)

(** ** The file-system tree *)

Module FSFacts.
Import FS.

Lemma entry_set_same k n es : entry k (set_entry k n es) = Some n.
Proof.
  induction es as [|[k' n'] es IH]; simpl.
  - now rewrite String.eqb_refl.
  - destruct (String.eqb k k') eqn:E; simpl; rewrite ?String.eqb_refl, ?E; auto.
Qed.

Lemma entry_set_other k k' n es :
  k <> k' -> entry k' (set_entry k n es) = entry k' es.
Proof.
  intros Hne. induction es as [|[k0 n0] es IH]; simpl.
  - destruct (String.eqb k' k) eqn:E; auto.
    apply String.eqb_eq in E. congruence.
  - destruct (String.eqb k k0) eqn:E; simpl.
    + apply String.eqb_eq in E. subst k0.
      destruct (String.eqb k' k) eqn:E'; auto.
      apply String.eqb_eq in E'. congruence.
    + now rewrite IH.
Qed.

Lemma entry_del_same k es : entry k (del_entry k es) = None.
Proof.
  unfold del_entry. induction es as [|[k' n'] es IH]; simpl; auto.
  destruct (String.eqb k k') eqn:E; simpl; auto. now rewrite E.
Qed.

Lemma entry_del_other k k' es :
  k <> k' -> entry k' (del_entry k es) = entry k' es.
Proof.
  intros Hne. unfold del_entry. induction es as [|[k0 n0] es IH]; simpl; auto.
  destruct (String.eqb k k0) eqn:E; simpl.
  - apply String.eqb_eq in E. subst k0.
    destruct (String.eqb k' k) eqn:E'; auto.
    apply String.eqb_eq in E'. congruence.
  - now rewrite IH.
Qed.

Lemma entry_In k n es : entry k es = Some n -> In (k, n) es.
Proof.
  induction es as [|[k' n'] es IH]; simpl; [discriminate|].
  destruct (String.eqb k k') eqn:E.
  - apply String.eqb_eq in E. intros [= ->]. subst. now left.
  - auto.
Qed.


Lemma lookup_app p q fs :
  lookup (p ++ q) fs =
  match lookup p fs with Some n => lookup q n | None => None end.
Proof.
  revert fs. induction p as [|c p IH]; intros fs; simpl; auto.
  destruct fs as [?|es]; auto. destruct (entry c es); auto.
Qed.

Lemma incomparable_sym p q : incomparable p q = incomparable q p.
Proof.
  revert q. induction p as [|c p IH]; intros [|d q]; simpl; auto.
  rewrite (String.eqb_sym c d). destruct (String.eqb d c); auto.
Qed.

Lemma incomparable_nil_r p : incomparable p [] = false.
Proof. now destruct p. Qed.

Lemma incomparable_app p q x y :
  incomparable p q = true -> incomparable (p ++ x) (q ++ y) = true.
Proof.
  revert q. induction p as [|c p IH]; intros [|d q]; simpl; try discriminate.
  destruct (String.eqb c d); auto.
Qed.

Lemma incomparable_siblings p a b x y :
  a <> b -> incomparable (p ++ a :: x) (p ++ b :: y) = true.
Proof.
  intros Hne. induction p as [|c p IH]; simpl.
  - destruct (String.eqb a b) eqn:E; auto. apply String.eqb_eq in E. congruence.
  - now rewrite String.eqb_refl.
Qed.


(** *** Binding a node *)

Lemma put_same p new fs fs' : put p new fs = inr fs' -> lookup p fs' = Some new.
Proof.
  revert fs fs'. induction p as [|c p IH]; intros fs fs'; simpl.
  - now intros [= <-].
  - destruct fs as [?|es]; [discriminate|].
    destruct (entry c es) as [m|] eqn:E.
    + destruct (put p new m) as [e|m'] eqn:P; [discriminate|].
      intros [= <-]. simpl. rewrite entry_set_same. eauto.
    + destruct p; [|discriminate]. intros [= <-]. simpl.
      now rewrite entry_set_same.
Qed.

Lemma put_frame p new fs fs' q :
  put p new fs = inr fs' -> incomparable q p = true -> lookup q fs' = lookup q fs.
Proof.
  revert fs fs' q. induction p as [|c p IH]; intros fs fs' q; simpl.
  - now rewrite incomparable_nil_r.
  - destruct fs as [?|es]; [discriminate|].
    destruct q as [|d q]; [discriminate|]. simpl.
    destruct (String.eqb d c) eqn:Edc.
    + apply String.eqb_eq in Edc. subst d.
      destruct (entry c es) as [m|] eqn:E.
      * destruct (put p new m) as [e|m'] eqn:P; [discriminate|].
        intros [= <-] Hinc. simpl. rewrite entry_set_same, ?E. eauto.
      * destruct p; [|discriminate]. now rewrite incomparable_nil_r.
    + assert (c <> d) by (intros ->; now rewrite String.eqb_refl in Edc).
      intros Hput _.
      assert (exists m', fs' = Dir (set_entry c m' es)) as [m' ->].
      { destruct (entry c es) as [m|].
        - destruct (put p new m); [discriminate|]. inversion Hput. eauto.
        - destruct p; [|discriminate]. inversion Hput. eauto. }
      simpl. now rewrite entry_set_other.
Qed.


Lemma put_parents_frame p new fs fs' q :
  put_parents p new fs = inr fs' -> incomparable q p = true ->
  lookup q fs' = lookup q fs.
Proof.
  revert fs fs' q. induction p as [|c p IH]; intros fs fs' q; simpl.
  - now rewrite incomparable_nil_r.
  - destruct fs as [?|es]; [discriminate|].
    destruct q as [|d q]; [discriminate|]. simpl.
    destruct (put_parents p new _) as [e|m'] eqn:P; [discriminate|].
    intros [= <-]. simpl.
    destruct (String.eqb d c) eqn:Edc.
    + apply String.eqb_eq in Edc. subst d. intros Hinc.
      rewrite entry_set_same. rewrite (IH _ _ _ P Hinc).
      destruct (entry c es); auto. now destruct q.
    + assert (c <> d) by (intros ->; now rewrite String.eqb_refl in Edc).
      intros _. now rewrite entry_set_other.
Qed.

(** *** Creating directories *)

Lemma mkdirs_is_dir p fs fs' : mkdirs p fs = inr fs' -> is_dir p fs' = true.
Proof.
  unfold is_dir. revert fs fs'. induction p as [|c p IH]; intros fs fs'; simpl.
  - destruct fs; [discriminate|]. now intros [= <-].
  - destruct fs as [?|es]; [discriminate|].
    destruct (mkdirs p _) as [e|m'] eqn:P; [discriminate|].
    intros [= <-]. simpl. rewrite entry_set_same. eauto.
Qed.

(** Only the directories on the way to [p] change, and they only gain
    entries: every path that is not a prefix of [p] is looked up as
    before. *)
Lemma mkdirs_keeps p fs fs' q x :
  mkdirs p fs = inr fs' ->
  (forall r, p <> q ++ x :: r) ->
  lookup (q ++ [x]) fs' = lookup (q ++ [x]) fs.
Proof.
  intros Hmk. revert fs fs' q Hmk.
  induction p as [|c p IH]; intros fs fs' q; simpl.
  - destruct fs; [discriminate|]. now intros [= <-].
  - destruct fs as [?|es]; [discriminate|].
    destruct (mkdirs p _) as [e|m'] eqn:P; [discriminate|].
    intros [= <-] Hnp.
    destruct q as [|d q]; simpl.
    + destruct (String.eqb x c) eqn:Exc.
      * apply String.eqb_eq in Exc. subst x. exfalso. now apply (Hnp p).
      * assert (c <> x) by (intros ->; now rewrite String.eqb_refl in Exc).
        now rewrite entry_set_other.
    + destruct (String.eqb d c) eqn:Edc.
      * apply String.eqb_eq in Edc. subst d. rewrite entry_set_same.
        rewrite (IH _ _ q P).
        -- destruct (entry c es); auto.
           simpl. destruct q; simpl; auto.
        -- intros r ->. now apply (Hnp r).
      * assert (c <> d) by (intros ->; now rewrite String.eqb_refl in Edc).
        now rewrite entry_set_other.
Qed.

(** *** Removing a tree *)

Lemma remove_same p fs : p <> [] -> lookup p (remove p fs) = None.
Proof.
  revert fs. induction p as [|c p IH]; intros fs Hne; [congruence|].
  simpl. destruct fs as [?|es]; auto.
  destruct p as [|c' p].
  - simpl. now rewrite entry_del_same.
  - destruct (entry c es) as [m|] eqn:E.
    + cbn [lookup]. rewrite entry_set_same. apply IH. discriminate.
    + cbn [lookup]. now rewrite E.
Qed.

Lemma remove_frame p fs q :
  incomparable q p = true -> lookup q (remove p fs) = lookup q fs.
Proof.
  revert fs q. induction p as [|c p IH]; intros fs q; [now rewrite incomparable_nil_r|].
  destruct q as [|d q]; [discriminate|]. simpl.
  destruct fs as [?|es]; auto.
  destruct (String.eqb d c) eqn:Edc.
  - apply String.eqb_eq in Edc. subst d. intros Hinc.
    destruct p as [|c' p]; [now rewrite incomparable_nil_r in Hinc|].
    destruct (entry c es) as [m|] eqn:E.
    + cbn [lookup]. rewrite entry_set_same, ?E. now apply IH.
    + cbn [lookup]. now rewrite ?E.
  - assert (c <> d) by (intros ->; now rewrite String.eqb_refl in Edc).
    intros _. destruct p as [|c' p].
    + cbn [lookup]. now rewrite entry_del_other.
    + destruct (entry c es) as [m|] eqn:E; auto.
      cbn [lookup]. now rewrite entry_set_other.
Qed.

(** *** Copying a tree *)

Lemma copy_node_dir k es dst :
  copy_node k (Dir es) dst =
  match dst with
  | Some (File _) => (None, [EEXIST])
  | _ => let '(ds', errs) :=
           copy_all es (match dst with Some (Dir ds) => ds | _ => [] end) in
         (Some (Dir ds'), errs)
  end.
Proof. destruct dst as [[?|?]|]; reflexivity. Qed.


Lemma node_induction (P : node -> Prop) :
  (forall c, P (File c)) ->
  (forall es, Forall (fun kn => P (snd kn)) es -> P (Dir es)) ->
  forall n, P n.
Proof.
  intros HF HD. fix self 1. intros [c|es]; [apply HF|apply HD].
  induction es as [|kn es IH]; constructor; auto.
Qed.




Lemma copy_failures_dir k src dst es d :
  copy_failures k src dst (Dir es) d =
  match d with
  | Some (File _) => [(src, dst, EEXIST, dst)]
  | _ => failures_all src dst es (match d with Some (Dir ds) => ds | _ => [] end)
  end.
Proof. destruct d as [[?|?]|]; reflexivity. Qed.

(** The failures [copytree] reports are the errors met while copying, one
    for one and in their order. *)
Lemma copy_failures_errno n :
  forall k src dst d,
    map (fun f : failure => snd (fst f)) (copy_failures k src dst n d)
    = snd (copy_node k n d).
Proof.
  induction n as [c|es IH] using node_induction; intros k src dst d.
  - destruct d as [[?|inner]|]; simpl; try reflexivity.
    destruct (entry k inner) as [[?|?]|]; reflexivity.
  - rewrite copy_failures_dir, copy_node_dir.
    assert (forall ds, map (fun f : failure => snd (fst f)) (failures_all src dst es ds)
                       = snd (copy_all es ds)) as Hall.
    { induction es as [|[k' m] es IHes]; intros ds; [reflexivity|].
      inversion IH as [|? ? Hm IH']; subst. simpl in Hm.
      change (failures_all src dst ((k', m) :: es) ds)
        with (copy_failures k' (src ++ [k']) (dst ++ [k']) m (entry k' ds)
              ++ failures_all src dst es
                   (match fst (copy_node k' m (entry k' ds)) with
                    | Some u => set_entry k' u ds
                    | None => ds
                    end)).
      cbn [copy_all]. rewrite map_app, Hm, (IHes IH').
      destruct (copy_node k' m (entry k' ds)) as [upd e1]. cbn [fst snd].
      now destruct (copy_all es _) as [ds2 e2]. }
    destruct d as [[?|ds]|]; [reflexivity| |];
      rewrite Hall; now destruct (copy_all es _).
Qed.

End FSFacts.

(** ** Computations: what they leave untouched *)

Module ShFacts.
Import FS FSFacts.
Import Sh (preserves, off).

Lemma preserves_ret {A} P (a : A) : preserves P (ret a).
Proof. intros fs o fs' [= _ <-]; auto. Qed.



Lemma preserves_bind {A B} P (c : M A) (k : A -> M B) :
  preserves P c -> (forall a, preserves P (k a)) -> preserves P (bind c k).
Proof.
  intros Hc Hk fs o fs'. unfold bind.
  destruct (c fs) as [[a|e] fs1] eqn:E.
  - intros H q Hq. rewrite (Hk a _ _ _ H q Hq). eapply Hc; eauto.
  - intros [= <- <-] q Hq. eapply Hc; eauto.
Qed.

Lemma preserves_weaken {A} (P Q : path -> Prop) (c : M A) :
  preserves P c -> (forall q, Q q -> P q) -> preserves Q c.
Proof. intros Hc HPQ fs o fs' H q Hq. eapply Hc; eauto. Qed.

Lemma preserves_is_dir P p : preserves P (Sh.is_dir p).
Proof. intros fs o fs' [= _ <-]; auto. Qed.

Lemma preserves_is_file P p : preserves P (Sh.is_file p).
Proof. intros fs o fs' [= _ <-]; auto. Qed.

Lemma from_errno_inv p r fs o fs' :
  Sh.from_errno p r fs = (o, fs') ->
  (r = inr fs' /\ o = Ret tt) \/ (exists e, r = inl e /\ o = Raise (os_error e p) /\ fs' = fs).
Proof.
  unfold Sh.from_errno. destruct r as [e|n]; intros [= <- <-]; eauto.
Qed.

Lemma preserves_write_file p c : preserves (off p) (Sh.write_file p c).
Proof.
  intros fs o fs' H q Hq. unfold Sh.write_file in H.
  destruct (lookup p fs) as [[?|?]|];
    try (now inversion H);
    apply from_errno_inv in H as [[H _]|(e & _ & _ & ->)]; auto;
    eapply put_frame; eauto.
Qed.

Lemma write_file_ok p c fs fs' :
  Sh.write_file p c fs = (Ret tt, fs') ->
  put p (File c) fs = inr fs' /\ lookup p fs' = Some (File c).
Proof.
  unfold Sh.write_file. intros H.
  assert (Sh.from_errno p (put p (File c) fs) fs = (Ret tt, fs')) as H'
    by (destruct (lookup p fs) as [[?|?]|]; auto; discriminate).
  apply from_errno_inv in H' as [[H' _]|(e & _ & [=] & _)].
  split; auto. eapply put_same; eauto.
Qed.

(** [json.dump] into a file: when it returns, the whole document was
    written. *)
Lemma json_dump_ret b p c fs u fs' :
  Sh.json_dump b p c fs = (Ret u, fs') -> Sh.write_file p c fs = (Ret tt, fs').
Proof.
  unfold Sh.json_dump. destruct (dump_error b c) as [e|].
  - destruct (Sh.write_file p (Partial c) fs) as [[?|?] ?]; discriminate.
  - now destruct u.
Qed.

Lemma preserves_json_dump b p c : preserves (off p) (Sh.json_dump b p c).
Proof.
  intros fs o fs' H q Hq. unfold Sh.json_dump in H.
  destruct (dump_error b c) as [e|].
  - destruct (Sh.write_file p (Partial c) fs) as [[u|e'] fs1] eqn:E;
      inversion H; subst; eapply (preserves_write_file _ _ _ _ _ E); eauto.
  - eapply (preserves_write_file _ _ _ _ _ H); eauto.
Qed.

(** A document without payload, an error record, is always written. *)
Lemma json_dump_error_data b p task_id error error_type traceback output_dir fs :
  Sh.json_dump b p (ResultJson (ErrorData task_id error error_type traceback output_dir)) fs
  = Sh.write_file p (ResultJson (ErrorData task_id error error_type traceback output_dir))
                  fs.
Proof. reflexivity. Qed.

Lemma off_child q p x : off p q -> off (p ++ [x]) q.
Proof.
  unfold off. intros H. rewrite <- (app_nil_r q). now apply incomparable_app.
Qed.

Lemma preserves_copy2 src dst : preserves (off dst) (Sh.copy2 src dst).
Proof.
  intros fs o fs' H q Hq. unfold Sh.copy2 in H.
  destruct (lookup src fs) as [[c|?]|]; try (now inversion H).
  set (dst' := match lookup dst fs with
               | Some (Dir _) => dst ++ [last src ""]
               | _ => dst
               end) in *.
  assert (off dst' q) as Hq'
    by (subst dst'; destruct (lookup dst fs) as [[?|?]|]; auto using off_child).
  destruct (Sh.path_eqb src dst'); [now inversion H|].
  destruct (lookup dst' fs) as [[?|?]|];
    try (now inversion H);
    apply from_errno_inv in H as [[H _]|(e & _ & _ & ->)]; auto;
    eapply put_frame; eauto.
Qed.

Lemma preserves_copytree src dst : preserves (off dst) (Sh.copytree src dst).
Proof.
  intros fs o fs' H q Hq. unfold Sh.copytree in H.
  destruct (lookup src fs) as [[c|es]|]; try (now inversion H).
  destruct (copy_node _ _ _) as [[n'|] errs]; [|now inversion H].
  destruct (put_parents dst n' fs) as [e|fs1] eqn:P; [now inversion H|].
  assert (fs' = fs1) as -> by (destruct errs; now inversion H).
  eapply put_parents_frame; eauto.
Qed.

Lemma preserves_rmtree p b : preserves (off p) (Sh.rmtree p b).
Proof.
  intros fs o fs' H q Hq. unfold Sh.rmtree in H.
  destruct (lookup p fs) as [[?|?]|]; try (destruct b; now inversion H).
  inversion H. now apply remove_frame.
Qed.

(** With [ignore_errors] the call returns, and no directory is left at
    [p]. *)
Lemma rmtree_ignore_errors p fs :
  exists fs', Sh.rmtree p true fs = (Ret tt, fs') /\
              (p <> [] -> is_dir p fs' = false) /\
              (is_file p fs = false -> p <> [] -> lookup p fs' = None).
Proof.
  unfold Sh.rmtree, is_dir, is_file. destruct (lookup p fs) as [[c|es]|] eqn:E.
  - exists fs. rewrite E. repeat split; auto. discriminate.
  - exists (remove p fs). repeat split; intros; rewrite ?remove_same; auto.
  - exists fs. rewrite E. repeat split; auto.
Qed.

End ShFacts.

(** ** The runner *)

Section RunnerFacts.

Import GitTaskBenchRunner (runner, gittaskbench_root, output_root, api_type, PLACEHOLDER, find_doc, config_dir, queries_dir, code_base_dir, locals, task_description, repository, input_data, temp_work_dir, final_output_dir, RESULT_FILE, ERROR_FILE, DATASET_DIR, PROGRESS_FILE, SUMMARY_FILE, skipped_name, collect, collect_item, rate, counters, get_all_tasks).

Variable self : runner.
Variables config_store query_store : list (string * dict).
Variables cwd tempdir : FS.path.
Variable random_name : nat -> string.
Variable TMP_MAX : nat.
Variable agent : string -> FS.path -> value -> string -> option value -> M payload.
Variable format_exc : exc -> string.

Local Abbreviation load_task_config :=
  (GitTaskBenchRunner.load_task_config self config_store query_store).
Local Abbreviation loc :=
  (GitTaskBenchRunner.loc cwd).
Local Abbreviation mkdtemp :=
  (GitTaskBenchRunner.mkdtemp tempdir random_name TMP_MAX).
Local Abbreviation setup :=
  (GitTaskBenchRunner.setup self config_store query_store cwd tempdir random_name TMP_MAX).
Local Abbreviation invoke :=
  (GitTaskBenchRunner.invoke self agent).
Local Abbreviation collect_and_save :=
  (GitTaskBenchRunner.collect_and_save cwd).
Local Abbreviation attempt :=
  (GitTaskBenchRunner.attempt self cwd agent).
Local Abbreviation on_error :=
  (GitTaskBenchRunner.on_error cwd format_exc).
Local Abbreviation run_single_task :=
  (GitTaskBenchRunner.run_single_task self config_store query_store cwd tempdir random_name TMP_MAX
                   agent format_exc).
Local Abbreviation _save_progress :=
  (GitTaskBenchRunner._save_progress self cwd).
Local Abbreviation _generate_summary :=
  (GitTaskBenchRunner._generate_summary self cwd).
Local Abbreviation select_tasks :=
  (GitTaskBenchRunner.select_tasks config_store).
Local Abbreviation batch_step :=
  (GitTaskBenchRunner.batch_step self config_store query_store cwd tempdir random_name TMP_MAX
              agent format_exc).
Local Abbreviation batch_loop :=
  (GitTaskBenchRunner.batch_loop self config_store query_store cwd tempdir random_name TMP_MAX
              agent format_exc).
Local Abbreviation run_batch :=
  (GitTaskBenchRunner.run_batch self config_store query_store cwd tempdir random_name TMP_MAX
             agent format_exc).

(** *** Shape of a run *)

Lemma run_single_task_setup_raises task_id verbose fs e fs1 :
  setup task_id verbose fs = (Raise e, fs1) ->
  run_single_task task_id verbose fs = (Raise e, fs1).
Proof. intros H. unfold GitTaskBenchRunner.run_single_task, bind. now rewrite H. Qed.

Lemma run_single_task_enters_try task_id verbose fs l fs_d :
  setup task_id verbose fs = (Ret l, fs_d) ->
  run_single_task task_id verbose fs =
  try_except (attempt task_id l) (on_error task_id l) fs_d.
Proof. intros H. unfold GitTaskBenchRunner.run_single_task, bind. now rewrite H. Qed.

(** A missing metadata document stops [setup] at once. *)
Lemma setup_config_missing task_id verbose fs :
  find_doc task_id config_store = None ->
  setup task_id verbose fs =
  (Raise (ValueError ("Task config not found: "
                      ++ str (config_dir self // task_id // "task_info.yaml"))),
   fs).
Proof.
  intros H. unfold GitTaskBenchRunner.setup, bind, lift, GitTaskBenchRunner.load_task_config.
  now rewrite H.
Qed.

Lemma setup_no_repository task_id task_info verbose fs :
  load_task_config task_id = Ret task_info ->
  truthy (Dict.get_default "repositories" (VList []) task_info) = false ->
  setup task_id verbose fs =
  (Raise (ValueError ("No repository found for task " ++ task_id)), fs).
Proof.
  intros Hl Ht. unfold GitTaskBenchRunner.setup, bind, lift. rewrite Hl, Ht. reflexivity.
Qed.

(** *** The batch loop *)

Lemma batch_loop_app done rest st fs :
  batch_loop (done ++ rest) st fs =
  bind (batch_loop done st) (batch_loop rest) fs.
Proof.
  revert st fs. induction done as [|t done IH]; intros st fs; simpl.
  - reflexivity.
  - unfold bind. destruct (batch_step t st fs) as [[st1|e] fs1]; [|reflexivity].
    rewrite IH. reflexivity.
Qed.

Lemma batch_step_raises task_id st fs e fs1 :
  run_single_task task_id false fs = (Raise e, fs1) ->
  batch_step task_id st fs = (Raise e, fs1).
Proof.
  intros H. destruct st as [[rs s] f]. unfold GitTaskBenchRunner.batch_step, bind.
  now rewrite H.
Qed.

(** C5: a task identifier without metadata document makes
    [load_task_config] fail with the "Task config not found" error; the run
    of that task raises this error and leaves the file system as it was, so
    neither directory is created and no error JSON is written. *)
Theorem C5_missing_metadata task_id verbose fs :
  find_doc task_id config_store = None ->
  load_task_config task_id =
    Raise (ValueError ("Task config not found: "
                       ++ str (config_dir self // task_id // "task_info.yaml"))) /\
  run_single_task task_id verbose fs =
    (Raise (ValueError ("Task config not found: "
                        ++ str (config_dir self // task_id // "task_info.yaml"))),
     fs).
Proof.
  intros H. split.
  - unfold GitTaskBenchRunner.load_task_config. now rewrite H.
  - apply run_single_task_setup_raises. now apply setup_config_missing.
Qed.

(** C9: a task whose merged record has a falsy repository list (empty, or
    absent and so defaulted to the empty list) makes the run raise
    "No repository found" with the file system untouched; in a batch the
    error leaves the loop: the batch ends with this error in the state
    reached after the tasks before it, the later tasks are not run and no
    summary is made. *)
Theorem C9_no_repository task_id task_info verbose fs :
  load_task_config task_id = Ret task_info ->
  truthy (Dict.get_default "repositories" (VList []) task_info) = false ->
  run_single_task task_id verbose fs =
    (Raise (ValueError ("No repository found for task " ++ task_id)), fs) /\
  forall task_ids max_tasks done rest st fs0 fs1,
    select_tasks task_ids max_tasks = done ++ task_id :: rest ->
    batch_loop done ([], 0, 0) fs0 = (Ret st, fs1) ->
    run_batch task_ids max_tasks fs0 =
      (Raise (ValueError ("No repository found for task " ++ task_id)), fs1).
Proof.
  intros Hl Ht.
  assert (forall v s, run_single_task task_id v s =
            (Raise (ValueError ("No repository found for task " ++ task_id)), s)) as Hrun.
  { intros v s. apply run_single_task_setup_raises.
    eapply setup_no_repository; eauto. }
  split; [apply Hrun|].
  intros task_ids max_tasks done rest st fs0 fs1 Hsel Hdone.
  unfold GitTaskBenchRunner.run_batch. unfold bind at 1.
  rewrite Hsel, batch_loop_app. unfold bind at 1. rewrite Hdone.
  simpl. unfold bind at 1.
  now rewrite (batch_step_raises _ _ _ _ _ (Hrun false fs1)).
Qed.

(** *** Collecting the outputs *)

Import FS FSFacts ShFacts.
Import Sh (preserves, off).

Lemma preserves_collect_item repo scratch out nm :
  preserves (off (out ++ [nm])) (collect_item repo scratch out nm).
Proof.
  unfold collect_item.
  apply preserves_bind; [apply preserves_is_dir|]. intros d.
  destruct (d && skipped_name repo nm); [apply preserves_ret|].
  apply preserves_bind; [apply preserves_is_file|]. intros [|].
  - apply preserves_copy2.
  - apply preserves_bind; [apply preserves_is_dir|]. intros [|].
    + apply preserves_copytree.
    + apply preserves_ret.
Qed.

Lemma preserves_collect repo scratch out names :
  preserves (fun q => forall nm, In nm names -> off (out ++ [nm]) q)
            (collect repo scratch out names).
Proof.
  induction names as [|nm names IH]; simpl.
  - apply preserves_ret.
  - apply preserves_bind.
    + eapply preserves_weaken; [apply preserves_collect_item|].
      intros q Hq. apply Hq. now left.
    + intros _. eapply preserves_weaken; [apply IH|].
      intros q Hq nm' Hin. apply Hq. now right.
Qed.










(** *** The steps of a run *)

Lemma mkdtemp_from_inv n i prefix fs p fs' :
  GitTaskBenchRunner.mkdtemp_from tempdir random_name n i prefix fs = (Ret p, fs') ->
  (exists j, p = tempdir ++ [(prefix ++ random_name j)%string]) /\
  lookup p fs = None /\ put p (Dir []) fs = inr fs'.
Proof.
  revert i. induction n as [|n IH]; intros i; simpl; [discriminate|].
  destruct (lookup (tempdir ++ _) fs) eqn:E; [apply IH|].
  destruct (put (tempdir ++ _) _ fs) as [e|fs1] eqn:P; [discriminate|].
  intros [= <- <-]. eauto.
Qed.

Lemma setup_inv task_id verbose fs l fs_d :
  setup task_id verbose fs = (Ret l, fs_d) ->
  final_output_dir l = output_root self // task_id /\
  temp_work_dir l <> [] /\
  exists fs_m,
    lookup (temp_work_dir l) fs = None /\
    put (temp_work_dir l) (Dir []) fs = inr fs_m /\
    mkdirs (loc (final_output_dir l)) fs_m = inr fs_d.
Proof.
  unfold GitTaskBenchRunner.setup, bind, lift, raise, ret.
  destruct (load_task_config task_id) as [task_info|]; [|discriminate].
  destruct (negb (truthy _)); [discriminate|].
  destruct (Py.index0 _) as [repo_info|]; [|discriminate].
  destruct (GitTaskBenchRunner.resolve_repository _ _) as [repo|]; [|discriminate].
  destruct (GitTaskBenchRunner.resolve_input_data _ _) as [inp|]; [|discriminate].
  destruct (mkdtemp _ fs) as [[tmp|] fs_m] eqn:Etmp; [|discriminate].
  apply mkdtemp_from_inv in Etmp as ((j & Hj) & Hnone & Hput).
  unfold Sh.mkdir_p.
  destruct (mkdirs _ fs_m) as [e|fs1] eqn:Emk; simpl; [discriminate|].
  assert (tmp <> []) by (rewrite Hj; now destruct tempdir).
  destruct verbose.
  - destruct (Py.sliceable _); [|discriminate]. intros [= <- <-]. simpl. eauto 8.
  - intros [= <- <-]. simpl. eauto 8.
Qed.

(** [setup] leaves what is under the output directory as it was. *)
Lemma setup_keeps_outputs task_id verbose fs l fs_d x :
  setup task_id verbose fs = (Ret l, fs_d) ->
  incomparable (temp_work_dir l) (loc (final_output_dir l)) = true ->
  lookup (loc (final_output_dir l) ++ [x]) fs_d =
  lookup (loc (final_output_dir l) ++ [x]) fs.
Proof.
  intros H Hinc. apply setup_inv in H as (_ & _ & fs_m & _ & Hput & Hmk).
  rewrite (mkdirs_keeps _ _ _ _ _ Hmk).
  - eapply put_frame; eauto. rewrite incomparable_sym.
    rewrite <- (app_nil_r (temp_work_dir l)). now apply incomparable_app.
  - intros r E. apply (f_equal (@length string)) in E.
    rewrite !length_app in E. simpl in E. lia.
Qed.

Lemma write_file_raises p c fs e fs' :
  Sh.write_file p c fs = (Raise e, fs') -> fs' = fs.
Proof.
  unfold Sh.write_file.
  destruct (lookup p fs) as [[?|?]|]; try (now intros [= _ <-]);
    intros H; apply from_errno_inv in H as [[_ [=]]|(? & _ & _ & ->)]; auto.
Qed.

(** When [json.dump] into a file raises, either the file could not be
    opened and nothing changed, or the document was refused and the file
    holds what was written of it. *)
Lemma json_dump_raises b p c fs e fs' :
  Sh.json_dump b p c fs = (Raise e, fs') ->
  fs' = fs \/
  (dump_error b c = Some e /\ Sh.write_file p (Partial c) fs = (Ret tt, fs')).
Proof.
  unfold Sh.json_dump. destruct (dump_error b c) as [e0|].
  - destruct (Sh.write_file p (Partial c) fs) as [[[]|e'] fs1] eqn:E.
    + intros [= <- <-]. auto.
    + intros [= <- <-]. left. eapply write_file_raises; eauto.
  - intros H. left. eapply write_file_raises; eauto.
Qed.

Lemma iterdir_inv p fs o fs' :
  Sh.iterdir p fs = (o, fs') ->
  fs' = fs /\
  ((exists es, lookup p fs = Some (Dir es) /\ o = Ret (map fst es)) \/
   (exists e, o = Raise e)).
Proof.
  unfold Sh.iterdir. destruct (lookup p fs) as [[?|es]|]; intros [= <- <-]; eauto.
Qed.

Lemma collect_and_save_returns task_id l res fs_a r fs' :
  collect_and_save task_id l res fs_a = (Ret r, fs') ->
  r = ResultData task_id res (str (final_output_dir l)) (repository l)
                 (task_description l) /\
  exists es fs_c fs_w,
    lookup (temp_work_dir l) fs_a = Some (Dir es) /\
    collect (repository l) (temp_work_dir l) (loc (final_output_dir l))
            (map fst es) fs_a = (Ret tt, fs_c) /\
    Sh.write_file (loc (final_output_dir l) ++ [RESULT_FILE]) (ResultJson r) fs_c
      = (Ret tt, fs_w) /\
    Sh.rmtree (temp_work_dir l) true fs_w = (Ret tt, fs').
Proof.
  unfold GitTaskBenchRunner.collect_and_save, bind.
  destruct (Sh.iterdir _ fs_a) as [[names|] fs1] eqn:Eit; [|discriminate].
  apply iterdir_inv in Eit as [-> [(es & Hes & [= ->])|(e & [=])]].
  destruct (collect _ _ _ _ fs_a) as [[[]|] fs_c] eqn:Ec; [|discriminate].
  destruct (Sh.json_dump _ _ _ fs_c) as [[[]|] fs_w] eqn:Ew; [|discriminate].
  apply json_dump_ret in Ew.
  destruct (Sh.rmtree _ _ fs_w) as [[[]|] fs2] eqn:Er; [|discriminate].
  unfold ret. intros [= <- <-]. split; auto. exists es, fs_c, fs_w. auto.
Qed.

(** When collecting and saving fails, only names listed in the scratch
    directory, and the result document, can have been written in the
    output directory. *)
Lemma collect_and_save_raises task_id l res fs_a e fs' q :
  collect_and_save task_id l res fs_a = (Raise e, fs') ->
  (forall es nm, lookup (temp_work_dir l) fs_a = Some (Dir es) ->
                 In nm (map fst es) ->
                 off (loc (final_output_dir l) ++ [nm]) q) ->
  off (loc (final_output_dir l) ++ [RESULT_FILE]) q ->
  lookup q fs' = lookup q fs_a.
Proof.
  unfold GitTaskBenchRunner.collect_and_save, bind. intros H Hq Hres.
  destruct (Sh.iterdir _ fs_a) as [[names|] fs1] eqn:Eit;
    apply iterdir_inv in Eit as [-> Hit]; [|now inversion H].
  destruct Hit as [(es & Hes & [= ->])|(? & [=])].
  destruct (collect _ _ _ _ fs_a) as [[[]|] fs_c] eqn:Ec.
  - assert (lookup q fs_c = lookup q fs_a) as <-
      by (eapply (preserves_collect _ _ _ _ _ _ _ Ec); eauto).
    destruct (Sh.json_dump _ _ _ fs_c) as [[[]|] fs_w] eqn:Ew.
    + destruct (rmtree_ignore_errors (temp_work_dir l) fs_w) as (fs2 & Er & _).
      rewrite Er in H. discriminate.
    + inversion H; subst. eapply (preserves_json_dump _ _ _ _ _ _ Ew); eauto.
  - inversion H; subst. eapply (preserves_collect _ _ _ _ _ _ _ Ec); eauto.
Qed.

Lemma on_error_returns task_id l e fs_x r fs' :
  on_error task_id l e fs_x = (Ret r, fs') ->
  r = ErrorData task_id (exc_msg e) (exc_type e) (format_exc e)
                (str (final_output_dir l)) /\
  exists fs_w,
    Sh.write_file (loc (final_output_dir l) ++ [ERROR_FILE]) (ResultJson r) fs_x
      = (Ret tt, fs_w) /\
    Sh.rmtree (temp_work_dir l) true fs_w = (Ret tt, fs').
Proof.
  unfold GitTaskBenchRunner.on_error, bind.
  rewrite json_dump_error_data.
  destruct (Sh.write_file _ _ fs_x) as [[[]|] fs_w] eqn:Ew; [|discriminate].
  destruct (Sh.rmtree _ _ fs_w) as [[[]|] fs2] eqn:Er; [|discriminate].
  unfold ret. intros [= <- <-]. eauto.
Qed.

(** A run that returns a record either succeeded, or failed inside [try]
    with an exception that the handler recorded. *)
Lemma run_single_task_returns task_id verbose fs l fs_d r fs' :
  setup task_id verbose fs = (Ret l, fs_d) ->
  run_single_task task_id verbose fs = (Ret r, fs') ->
  (success r = true /\
   exists res fs_a, invoke l fs_d = (Ret res, fs_a) /\
                    collect_and_save task_id l res fs_a = (Ret r, fs')) \/
  (success r = false /\
   exists e fs_x, attempt task_id l fs_d = (Raise e, fs_x) /\
                  is_Exception e = true /\
                  on_error task_id l e fs_x = (Ret r, fs')).
Proof.
  intros Hs. rewrite (run_single_task_enters_try _ _ _ _ _ Hs).
  unfold try_except.
  destruct (attempt task_id l fs_d) as [[r0|e] fs1] eqn:Ea.
  - intros [= <- <-]. left.
    revert Ea. unfold GitTaskBenchRunner.attempt, bind.
    destruct (invoke l fs_d) as [[res|] fs_a]; [|discriminate].
    intros Ecs. split; eauto.
    now apply collect_and_save_returns in Ecs as [-> _].
  - destruct (is_Exception e) eqn:Ex; [|discriminate].
    intros Hh. right. split; eauto 6.
    now apply on_error_returns in Hh as [-> _].
Qed.

Lemma attempt_raises task_id l fs_d o fs_a e fs_x :
  invoke l fs_d = (o, fs_a) ->
  attempt task_id l fs_d = (Raise e, fs_x) ->
  (o = Raise e /\ fs_x = fs_a) \/
  (exists res, o = Ret res /\ collect_and_save task_id l res fs_a = (Raise e, fs_x)).
Proof.
  intros Hi. unfold GitTaskBenchRunner.attempt, bind. rewrite Hi.
  destruct o as [res|e0]; [eauto|]. intros [= <- <-]. auto.
Qed.

Lemma run_single_task_task_id task_id verbose fs r fs' :
  run_single_task task_id verbose fs = (Ret r, fs') -> task_id_of r = task_id.
Proof.
  intros H. destruct (setup task_id verbose fs) as [[l|e] fs_d] eqn:Hs.
  - destruct (run_single_task_returns _ _ _ _ _ _ _ Hs H)
      as [(_ & res & fs_a & _ & Hc)|(_ & e & fs_x & _ & _ & Hh)].
    + now apply collect_and_save_returns in Hc as [-> _].
    + now apply on_error_returns in Hh as [-> _].
  - rewrite (run_single_task_setup_raises _ _ _ _ _ Hs) in H. discriminate.
Qed.

(** What the last two steps of either branch leave in place: the document
    is written, the scratch directory is removed, nothing else changes. *)
Lemma record_and_cleanup scratch out file doc fs_x fs_w fs' :
  incomparable scratch out = true ->
  Sh.write_file (out ++ [file]) doc fs_x = (Ret tt, fs_w) ->
  Sh.rmtree scratch true fs_w = (Ret tt, fs') ->
  lookup (out ++ [file]) fs' = Some (File doc) /\
  (forall x, x <> file -> lookup (out ++ [x]) fs' = lookup (out ++ [x]) fs_x) /\
  (forall x, is_dir (out ++ [x]) fs_x = false -> is_dir (out ++ [x]) fs' = false).
Proof.
  intros Hinc Hw Hr.
  assert (forall x, off scratch (out ++ [x])) as Hoff.
  { intros x. unfold off. rewrite incomparable_sym.
    rewrite <- (app_nil_r scratch). now apply incomparable_app. }
  assert (forall x, lookup (out ++ [x]) fs' = lookup (out ++ [x]) fs_w) as Hr'
    by (intros x; eapply (preserves_rmtree _ _ _ _ _ Hr); auto).
  assert (forall x, x <> file -> lookup (out ++ [x]) fs_w = lookup (out ++ [x]) fs_x)
    as Hw'.
  { intros x Hx. eapply (preserves_write_file _ _ _ _ _ Hw).
    now apply incomparable_siblings. }
  destruct (write_file_ok _ _ _ _ Hw) as [_ Hdoc].
  repeat split.
  - now rewrite Hr'.
  - intros x Hx. now rewrite Hr', Hw'.
  - intros x Hx. unfold is_dir in *. rewrite Hr'.
    destruct (string_dec x file) as [->|Hne]; [now rewrite Hdoc|now rewrite Hw'].
Qed.

(** C4: when a run ends with a record, success or failure, no directory is
    left at the path of its scratch directory; nothing at all is left
    there when the agent kept that path a directory (or removed it) and the
    scratch and output directories are apart.  The removal is called with
    [ignore_errors=True]: it always returns, whatever it finds. *)
Theorem C4_scratch_removed task_id verbose fs l fs_d r fs' :
  setup task_id verbose fs = (Ret l, fs_d) ->
  run_single_task task_id verbose fs = (Ret r, fs') ->
  is_dir (temp_work_dir l) fs' = false /\
  (forall o fs_a,
     invoke l fs_d = (o, fs_a) ->
     is_file (temp_work_dir l) fs_a = false ->
     incomparable (temp_work_dir l) (loc (final_output_dir l)) = true ->
     lookup (temp_work_dir l) fs' = None) /\
  (forall p s, exists s', Sh.rmtree p true s = (Ret tt, s')).
Proof.
  intros Hs Hrun.
  destruct (setup_inv _ _ _ _ _ Hs) as (_ & Hne & _).
  assert (forall fs_w, Sh.rmtree (temp_work_dir l) true fs_w = (Ret tt, fs') ->
            is_dir (temp_work_dir l) fs' = false /\
            (is_file (temp_work_dir l) fs_w = false ->
             lookup (temp_work_dir l) fs' = None)) as Hrm.
  { intros fs_w Hr.
    destruct (rmtree_ignore_errors (temp_work_dir l) fs_w) as (s & Hr' & Hd & Hn).
    rewrite Hr in Hr'. inversion Hr'; subst. auto. }
  assert (forall x q, incomparable (temp_work_dir l) q = true ->
            off (q ++ [x]) (temp_work_dir l)) as Hoff.
  { intros x q Hinc. unfold off. rewrite <- (app_nil_r (temp_work_dir l)).
    now apply incomparable_app. }
  destruct (run_single_task_returns _ _ _ _ _ _ _ Hs Hrun)
    as [(_ & res & fs_a & Hi & Hc)|(_ & e & fs_x & Ha & _ & Hh)].
  - apply collect_and_save_returns in Hc as (_ & es & fs_c & fs_w & Hes & Hc & Hw & Hr).
    destruct (Hrm _ Hr) as [Hd Hn]. repeat split; auto.
    + intros o fs_a' Hi' Hf Hinc. rewrite Hi in Hi'. inversion Hi'; subst.
      apply Hn. unfold is_file in *.
      rewrite (preserves_write_file _ _ _ _ _ Hw) by auto.
      rewrite (preserves_collect _ _ _ _ _ _ _ Hc); auto.
    + intros p s. destruct (rmtree_ignore_errors p s) as (s' & ? & _). eauto.
  - apply on_error_returns in Hh as (_ & fs_w & Hw & Hr).
    destruct (Hrm _ Hr) as [Hd Hn]. repeat split; auto.
    + intros o fs_a Hi Hf Hinc. apply Hn. unfold is_file in *.
      rewrite (preserves_write_file _ _ _ _ _ Hw) by auto.
      destruct (attempt_raises _ _ _ _ _ _ _ Hi Ha) as [[_ ->]|(res & _ & Hc)]; auto.
      rewrite (collect_and_save_raises _ _ _ _ _ _ _ Hc); auto.
    + intros p s. destruct (rmtree_ignore_errors p s) as (s' & ? & _). eauto.
Qed.


Lemma entry_notin k (es : list (string * node)) :
  entry k es = None -> ~ In k (map fst es).
Proof.
  induction es as [|[k' n] es IH]; simpl; [tauto|].
  destruct (String.eqb k k') eqn:E; [discriminate|].
  intros H [->|Hin]; [now rewrite String.eqb_refl in E|now apply IH].
Qed.

Lemma lookup_child_None p k es fs :
  lookup p fs = Some (Dir es) -> lookup (p ++ [k]) fs = None -> entry k es = None.
Proof.
  intros Hp. rewrite lookup_app, Hp. simpl. now destruct (entry k es).
Qed.

(** When collecting and saving fails, the result document is as it was
    unless an entry of the scratch directory has its name, with one
    exception: [json.dump] refused the record, after the outputs were
    collected and the file was opened, and the file holds the beginning of
    its text. *)
Lemma collect_and_save_raises_result task_id l res fs_a e fs' :
  collect_and_save task_id l res fs_a = (Raise e, fs') ->
  lookup (temp_work_dir l ++ [RESULT_FILE]) fs_a = None ->
  lookup (loc (final_output_dir l) ++ [RESULT_FILE]) fs'
  = lookup (loc (final_output_dir l) ++ [RESULT_FILE]) fs_a \/
  (payload_error false res = Some e /\
   lookup (loc (final_output_dir l) ++ [RESULT_FILE]) fs'
   = Some (File (Partial (ResultJson
                            (ResultData task_id res (str (final_output_dir l))
                                        (repository l) (task_description l)))))).
Proof.
  unfold GitTaskBenchRunner.collect_and_save, bind. intros H Hno.
  destruct (Sh.iterdir _ fs_a) as [[names|] fs1] eqn:Eit;
    apply iterdir_inv in Eit as [-> Hit]; [|inversion H; auto].
  destruct Hit as [(es & Hes & [= ->])|(? & [=])].
  assert (forall nm, In nm (map fst es) ->
                     off (loc (final_output_dir l) ++ [nm])
                         (loc (final_output_dir l) ++ [RESULT_FILE])) as Hoff.
  { intros nm Hin. apply incomparable_siblings. intros <-.
    eapply entry_notin; eauto. eapply lookup_child_None; eauto. }
  destruct (collect _ _ _ _ fs_a) as [[[]|] fs_c] eqn:Ec.
  - assert (lookup (loc (final_output_dir l) ++ [RESULT_FILE]) fs_c
            = lookup (loc (final_output_dir l) ++ [RESULT_FILE]) fs_a) as <-
      by (eapply (preserves_collect _ _ _ _ _ _ _ Ec); eauto).
    destruct (Sh.json_dump _ _ _ fs_c) as [[[]|] fs_w] eqn:Ew.
    + destruct (rmtree_ignore_errors (temp_work_dir l) fs_w) as (fs2 & Er & _).
      rewrite Er in H. discriminate.
    + inversion H; subst.
      apply json_dump_raises in Ew as [->|[He Hw]]; [now left|right].
      split; [exact He|]. now apply write_file_ok in Hw.
  - inversion H; subst. left. eapply (preserves_collect _ _ _ _ _ _ _ Ec); eauto.
Qed.

(** C6, as the code has it: a run that ends with a record writes the one
    fixed-name document of its outcome, holding that record.  The file of
    the other outcome is not touched by [setup], and is after the run as
    the agent left it, provided the scratch directory has no entry of that
    name: such an entry would be collected over it.  There is one more
    exception: the run ends with the error record because [json.dump]
    refused the success record; the result document was then opened for
    writing, and holds the beginning of the text of that record. *)
Theorem C6_one_document task_id verbose fs l fs_d o fs_a r fs' :
  setup task_id verbose fs = (Ret l, fs_d) ->
  invoke l fs_d = (o, fs_a) ->
  run_single_task task_id verbose fs = (Ret r, fs') ->
  incomparable (temp_work_dir l) (loc (final_output_dir l)) = true ->
  let out := loc (final_output_dir l) in
  let mine := if success r then RESULT_FILE else ERROR_FILE in
  let other := if success r then ERROR_FILE else RESULT_FILE in
  lookup (out ++ [mine]) fs' = Some (File (ResultJson r)) /\
  lookup (out ++ [other]) fs_d = lookup (out ++ [other]) fs /\
  (lookup (temp_work_dir l ++ [other]) fs_a = None ->
   lookup (out ++ [other]) fs' = lookup (out ++ [other]) fs_a \/
   exists res e,
     o = Ret res /\
     payload_error false res = Some e /\
     r = ErrorData task_id (exc_msg e) (exc_type e) (format_exc e)
                   (str (final_output_dir l)) /\
     lookup (out ++ [RESULT_FILE]) fs'
     = Some (File (Partial (ResultJson
                              (ResultData task_id res (str (final_output_dir l))
                                          (repository l) (task_description l)))))).
Proof.
  intros Hs Hi Hrun Hinc out mine other.
  assert (lookup (out ++ [other]) fs_d = lookup (out ++ [other]) fs) as Hsetup
    by (eapply setup_keeps_outputs; eauto).
  destruct (run_single_task_returns _ _ _ _ _ _ _ Hs Hrun)
    as [(Hsucc & res & fs_a' & Hi' & Hc)|(Hfail & e & fs_x & Ha & _ & Hh)].
  - rewrite Hi in Hi'. inversion Hi'; subst o fs_a'.
    apply collect_and_save_returns in Hc as (_ & es & fs_c & fs_w & Hes & Hc & Hw & Hr).
    destruct (record_and_cleanup _ _ _ _ _ _ _ Hinc Hw Hr) as (Hdoc & Hkeep & _).
    subst mine other. rewrite Hsucc in *. split; [exact Hdoc|]. split; [exact Hsetup|].
    intros Hno. left. rewrite Hkeep by discriminate.
    eapply (preserves_collect _ _ _ _ _ _ _ Hc).
    intros nm Hin. apply incomparable_siblings. intros <-.
    eapply entry_notin; eauto. eapply lookup_child_None; eauto.
  - apply on_error_returns in Hh as (Hrec & fs_w & Hw & Hr).
    destruct (record_and_cleanup _ _ _ _ _ _ _ Hinc Hw Hr) as (Hdoc & Hkeep & _).
    subst mine other. rewrite Hfail in *. split; [exact Hdoc|]. split; [exact Hsetup|].
    intros Hno. rewrite Hkeep by discriminate.
    destruct (attempt_raises _ _ _ _ _ _ _ Hi Ha) as [[_ ->]|(res & -> & Hc)];
      [now left|].
    destruct (collect_and_save_raises_result _ _ _ _ _ _ Hc Hno) as [Hsame|[He Hpart]];
      [now left|right].
    exists res, e. auto.
Qed.


(** *** The batch *)


Lemma batch_step_progress task_id st fs st' fs' :
  batch_step task_id st fs = (Ret st', fs') ->
  lookup (loc (output_root self) ++ [PROGRESS_FILE]) fs'
  = Some (File (ProgressJson (fst (fst st')))).
Proof.
  destruct st as [[rs s] f]. unfold GitTaskBenchRunner.batch_step, bind.
  destruct (run_single_task task_id false fs) as [[r|] fs0]; [|discriminate].
  destruct (success r);
    (destruct (_save_progress _ fs0) as [[[]|] fs1] eqn:Ep; [|discriminate]);
    intros [= <- <-]; apply json_dump_ret in Ep; now apply write_file_ok in Ep.
Qed.

Lemma batch_loop_results task_ids st fs st' fs' :
  batch_loop task_ids st fs = (Ret st', fs') ->
  map task_id_of (fst (fst st')) = map task_id_of (fst (fst st)) ++ task_ids.
Proof.
  revert st fs. induction task_ids as [|t ts IH]; intros st fs; simpl.
  - intros [= <- _]. now rewrite app_nil_r.
  - unfold bind at 1. destruct (batch_step t st fs) as [[st1|] fs1] eqn:E; [|discriminate].
    intros H. rewrite (IH _ _ H). clear H IH.
    destruct st as [[rs s] f]. revert E.
    unfold GitTaskBenchRunner.batch_step, bind.
    destruct (run_single_task t false fs) as [[r|] fs0] eqn:Er; [|discriminate].
    apply run_single_task_task_id in Er.
    destruct (success r);
      (destruct (_save_progress _ fs0) as [[[]|] ?]; [|discriminate]);
      intros [= <- _]; simpl; rewrite map_app; simpl; rewrite Er, <- app_assoc;
      reflexivity.
Qed.

Lemma run_batch_results task_ids max_tasks fs s fs' :
  run_batch task_ids max_tasks fs = (Ret s, fs') ->
  map task_id_of (results s) = select_tasks task_ids max_tasks.
Proof.
  unfold GitTaskBenchRunner.run_batch, bind.
  destruct (batch_loop _ _ fs) as [[[[rs sc] fl]|] fs1] eqn:E; [|discriminate].
  apply batch_loop_results in E. simpl in E.
  unfold GitTaskBenchRunner._generate_summary, bind.
  destruct (Sh.json_dump _ _ _ fs1) as [[[]|] ?]; [|discriminate].
  now intros [= <- _].
Qed.




(** *** Loading and resolving the configuration *)

Lemma dict_get_set_same k v d : Dict.get k (Dict.set k v d) = Some v.
Proof.
  induction d as [|[k' v'] d IH]; simpl.
  - now rewrite String.eqb_refl.
  - destruct (String.eqb k k') eqn:E; simpl; rewrite ?String.eqb_refl, ?E; auto.
Qed.

Lemma dict_get_set_other k k' v d :
  k' <> k -> Dict.get k' (Dict.set k v d) = Dict.get k' d.
Proof.
  intros Hne. induction d as [|[k0 v0] d IH]; simpl.
  - destruct (String.eqb k' k) eqn:E; auto. apply String.eqb_eq in E. congruence.
  - destruct (String.eqb k k0) eqn:E; simpl.
    + apply String.eqb_eq in E. subst k0.
      destruct (String.eqb k' k) eqn:E'; auto. apply String.eqb_eq in E'. congruence.
    + now rewrite IH.
Qed.

(** C7, as the code has it: with a metadata document, loading succeeds
    when the query document is missing and returns the metadata document
    as it is (its three fields, if any, included).  When the query document
    exists (its [file_paths], if present, being a mapping), the three
    fields of the record are set from it, each to the default (empty
    string, empty list, empty list) when the query document omits it,
    whatever the metadata document held for them; the other metadata
    fields are kept. *)
Theorem C7_merge task_id task_info :
  find_doc task_id config_store = Some task_info ->
  (find_doc task_id query_store = None -> load_task_config task_id = Ret task_info) /\
  (forall query_info file_paths,
     find_doc task_id query_store = Some query_info ->
     Dict.get_default "file_paths" (VDict []) query_info = VDict file_paths ->
     exists d,
       load_task_config task_id = Ret d /\
       Dict.get "task_description" d
         = Some (Dict.get_default "task_description" (VStr "") query_info) /\
       Dict.get "repositories" d
         = Some (Dict.get_default "repositories" (VList []) query_info) /\
       Dict.get "input_data" d
         = Some (Dict.get_default "input_files" (VList []) file_paths) /\
       forall k, k <> "task_description" -> k <> "repositories" -> k <> "input_data" ->
                 Dict.get k d = Dict.get k task_info).
Proof.
  intros Hc. unfold GitTaskBenchRunner.load_task_config. rewrite Hc. split.
  - now intros ->.
  - intros query_info file_paths -> ->. simpl. eexists. split; [reflexivity|].
    repeat split.
    + rewrite !dict_get_set_other by discriminate. apply dict_get_set_same.
    + rewrite dict_get_set_other by discriminate. apply dict_get_set_same.
    + apply dict_get_set_same.
    + intros k H1 H2 H3. now rewrite !dict_get_set_other.
Qed.

(** The placeholder occurring once, as a prefix: the path is joined to the
    benchmark root without it. *)
Lemma replace_from_skip u old new t :
  PyStr.replace_from (String.length u) old new (u ++ t) = PyStr.replace_from 0 old new t.
Proof. induction u as [|c u IH]; simpl; auto. Qed.

Lemma replace_absent old new t :
  PyStr.contains old t = false -> PyStr.replace t old new = t.
Proof.
  unfold PyStr.replace. induction t as [|c t IH]; auto.
  cbn [PyStr.contains]. intros H. apply orb_false_elim in H as [Hp Hc].
  cbn [PyStr.replace_from]. rewrite Hp, IH; auto.
Qed.

Lemma prefix_append s t : String.prefix s (s ++ t) = true.
Proof.
  induction s as [|c s IH]; simpl; [now destruct t|].
  destruct (ascii_dec c c); [auto|congruence].
Qed.

Lemma replace_prefix_once c old new t :
  PyStr.contains (String c old) t = false ->
  PyStr.replace (String c old ++ t) (String c old) new = (new ++ t)%string.
Proof.
  intros H. unfold PyStr.replace.
  change (String c old ++ t)%string with (String c (old ++ t)).
  cbn [PyStr.replace_from].
  change (String c (old ++ t)) with (String c old ++ t)%string.
  rewrite prefix_append.
  replace (String.length (String c old) - 1) with (String.length old)
    by (cbn [String.length]; lia).
  rewrite replace_from_skip.
  f_equal. now apply (replace_absent _ new).
Qed.

Lemma resolve_repository_placeholder d rest :
  Dict.get "path" d = Some (VStr (PLACEHOLDER ++ rest)) ->
  PyStr.contains PLACEHOLDER rest = false ->
  GitTaskBenchRunner.resolve_repository self (VDict d)
  = Ret (str (gittaskbench_root self // rest)).
Proof.
  intros Hp Hc. unfold GitTaskBenchRunner.resolve_repository, Py.get, Dict.get_default.
  rewrite Hp. cbn [obind Py.startswith]. unfold PyStr.startswith.
  rewrite prefix_append. cbn [obind Py.replace].
  unfold PLACEHOLDER in *. now rewrite (replace_prefix_once _ _ "" _ Hc).
Qed.

Lemma resolve_repository_fallback d p nm :
  Dict.get "path" d = Some (VStr p) ->
  PyStr.startswith p PLACEHOLDER = false ->
  Dict.get "name" d = Some (VStr nm) ->
  GitTaskBenchRunner.resolve_repository self (VDict d)
  = Ret (str (code_base_dir self // nm)).
Proof.
  intros Hp Hs Hn. unfold GitTaskBenchRunner.resolve_repository, Py.get, Dict.get_default.
  rewrite Hp. cbn [obind Py.startswith]. rewrite Hs, Hn. reflexivity.
Qed.

Lemma resolve_item_unprefixed d p :
  Dict.get "path" d = Some (VStr p) ->
  PyStr.startswith p PLACEHOLDER = false ->
  GitTaskBenchRunner.resolve_item self (VDict d) = Ret (VDict d).
Proof.
  intros Hp Hs. unfold GitTaskBenchRunner.resolve_item, Py.contains_path, Dict.get_default.
  rewrite Hp. cbn [obind Py.startswith]. now rewrite Hs.
Qed.

(** ** Further facts: listing, selecting and the batch *)

Lemma insert_sorted_perm x l : Permutation (x :: l) (Py.insert_sorted x l).
Proof.
  induction l as [|y l IH]; simpl; auto.
  destruct (String.leb x y); auto.
  rewrite perm_swap. now constructor.
Qed.

Lemma insert_sorted_HdRel a x l :
  String.leb a x = true -> HdRel (fun u v => String.leb u v = true) a l ->
  HdRel (fun u v => String.leb u v = true) a (Py.insert_sorted x l).
Proof.
  intros Hax Hl. destruct l as [|y l]; simpl; [now constructor|].
  destruct (String.leb x y); constructor; auto. now inversion Hl.
Qed.

Lemma insert_sorted_Sorted x l :
  Sorted (fun u v => String.leb u v = true) l ->
  Sorted (fun u v => String.leb u v = true) (Py.insert_sorted x l).
Proof.
  induction 1 as [|y l Hs IH Hhd]; simpl.
  - repeat constructor.
  - destruct (String.leb x y) eqn:E.
    + repeat constructor; auto.
    + constructor; auto. apply insert_sorted_HdRel; auto.
      destruct (String.leb_total x y); congruence.
Qed.

(** [get_all_tasks] lists every task that has a metadata document, each as
    often as the store has it, in the order of [sorted]: every identifier
    is at most its successor. *)
Theorem get_all_tasks_sorted :
  Permutation (map fst config_store) (get_all_tasks config_store) /\
  Sorted (fun u v => String.leb u v = true) (get_all_tasks config_store).
Proof.
  unfold get_all_tasks, Py.sorted. induction (map fst config_store) as [|x l [IHp IHs]].
  - split; constructor.
  - simpl. split.
    + rewrite <- insert_sorted_perm. now constructor.
    + now apply insert_sorted_Sorted.
Qed.

Lemma firstn_length_firstn {A} k (l : list A) :
  firstn k l = firstn (length (firstn k l)) l.
Proof.
  rewrite length_firstn. destruct (Nat.le_ge_cases k (length l)).
  - now rewrite Nat.min_l.
  - rewrite Nat.min_r by auto. now rewrite firstn_all, firstn_all2.
Qed.

(** Whatever the cap, [run_batch] runs a prefix of the task list; a
    negative cap, which [task_ids[:max_tasks]] accepts, leaves out the last
    tasks, as many as the cap says. *)
Theorem select_tasks_prefix task_ids max_tasks :
  let ids := select_tasks task_ids None in
  let kept := select_tasks task_ids max_tasks in
  kept = firstn (length kept) ids /\
  length kept =
    match max_tasks with
    | None => length ids
    | Some n =>
        if (n =? 0)%Z then length ids
        else if (0 <? n)%Z then Nat.min (Z.to_nat n) (length ids)
        else length ids - Z.to_nat (- n)
    end.
Proof.
  intros ids kept. subst ids kept. unfold GitTaskBenchRunner.select_tasks.
  set (ids := match task_ids with Some l => l | None => _ end).
  destruct max_tasks as [n|]; [|split; [now rewrite firstn_all|reflexivity]].
  destruct (Z.eqb_spec n 0); cbn [negb];
    [split; [now rewrite firstn_all|reflexivity]|].
  unfold Py.slice_to. destruct (Z.leb_spec 0 n), (Z.ltb_spec 0 n); try lia;
    (split; [apply firstn_length_firstn|rewrite length_firstn; lia]).
Qed.

Lemma batch_step_inv task_id rs s f fs st' fs' :
  batch_step task_id (rs, s, f) fs = (Ret st', fs') ->
  exists r fs1,
    run_single_task task_id false fs = (Ret r, fs1) /\
    _save_progress (rs ++ [r]) fs1 = (Ret tt, fs') /\
    st' = (rs ++ [r], (if success r then S s else s), (if success r then f else S f)).
Proof.
  unfold GitTaskBenchRunner.batch_step, bind.
  destruct (run_single_task task_id false fs) as [[r|] fs1]; [|discriminate].
  destruct (success r) eqn:Es;
    (destruct (_save_progress _ fs1) as [[[]|] fs2] eqn:Ep; [|discriminate]);
    intros [= <- <-]; exists r, fs1; rewrite Es; repeat split; auto.
Qed.

(** The loop keeps its counters in step with its results. *)
Lemma batch_loop_counts task_ids rs s f fs rs' s' f' fs' :
  batch_loop task_ids (rs, s, f) fs = (Ret (rs', s', f'), fs') ->
  s = length (filter success rs) ->
  f = length (filter (fun r => negb (success r)) rs) ->
  s' = length (filter success rs') /\
  f' = length (filter (fun r => negb (success r)) rs').
Proof.
  revert rs s f fs. induction task_ids as [|t ts IH]; intros rs s f fs.
  - intros [= <- <- <- _]. auto.
  - cbn [GitTaskBenchRunner.batch_loop]. unfold bind at 1.
    destruct (batch_step t (rs, s, f) fs) as [[[[rs1 s1] f1]|] fs1] eqn:E;
      [|intros H; discriminate H].
    apply batch_step_inv in E as (r & fs0 & _ & _ & [= -> -> ->]).
    intros H Hs Hf. apply (IH _ _ _ _ H); rewrite filter_app, length_app; simpl;
      destruct (success r); simpl; lia.
Qed.

Lemma generate_summary_inv rs s f fs sm fs' :
  _generate_summary rs s f fs = (Ret sm, fs') ->
  sm = {| total_tasks := length rs; successful := s; failed := f;
          success_rate := rate s (length rs);
          summary_api_type := api_type self;
          summary_output_root := str (output_root self);
          results := rs |} /\
  Sh.write_file (loc (output_root self) ++ [SUMMARY_FILE]) (SummaryJson sm) fs
    = (Ret tt, fs').
Proof.
  unfold GitTaskBenchRunner._generate_summary, bind.
  destruct (Sh.json_dump _ _ _ fs) as [[[]|] fs1] eqn:E; [|discriminate].
  apply json_dump_ret in E. intros [= <- <-]. auto.
Qed.

Lemma run_batch_inv task_ids max_tasks fs sm fs' :
  run_batch task_ids max_tasks fs = (Ret sm, fs') ->
  exists fs1,
    batch_loop (select_tasks task_ids max_tasks) ([], 0, 0) fs
      = (Ret (results sm, successful sm, failed sm), fs1) /\
    _generate_summary (results sm) (successful sm) (failed sm) fs1 = (Ret sm, fs').
Proof.
  unfold GitTaskBenchRunner.run_batch, bind.
  destruct (batch_loop _ _ fs) as [[[[rs s] f]|] fs1] eqn:E; [|discriminate].
  intros H. pose proof (generate_summary_inv _ _ _ _ _ _ H) as [-> _].
  simpl. eauto.
Qed.

(** The summary of a batch that returns counts what it lists: its results
    are those of the selected tasks, one each and in their order; the
    successes and the failures are counted apart and add up to the
    total. *)
Theorem batch_summary_counts task_ids max_tasks fs sm fs' :
  run_batch task_ids max_tasks fs = (Ret sm, fs') ->
  map task_id_of (results sm) = select_tasks task_ids max_tasks /\
  total_tasks sm = length (select_tasks task_ids max_tasks) /\
  successful sm = length (filter success (results sm)) /\
  failed sm = length (filter (fun r => negb (success r)) (results sm)) /\
  successful sm + failed sm = total_tasks sm /\
  success_rate sm = rate (successful sm) (total_tasks sm).
Proof.
  intros H. pose proof (run_batch_results _ _ _ _ _ H) as Hids.
  apply run_batch_inv in H as (fs1 & Hloop & Hsum).
  apply generate_summary_inv in Hsum as [Hsm _].
  destruct (batch_loop_counts _ _ _ _ _ _ _ _ _ Hloop eq_refl eq_refl) as [Hs Hf].
  assert (total_tasks sm = length (results sm)) as Htot by (rewrite Hsm; reflexivity).
  repeat split; auto.
  - rewrite Htot, <- Hids. now rewrite length_map.
  - rewrite Htot, Hs, Hf. clear. induction (results sm) as [|r rs IH]; simpl; auto.
    destruct (success r); simpl; lia.
  - rewrite Hsm at 1. simpl. now rewrite Htot.
Qed.

Lemma batch_loop_progress task_ids st fs st' fs' :
  task_ids <> [] ->
  batch_loop task_ids st fs = (Ret st', fs') ->
  lookup (loc (output_root self) ++ [PROGRESS_FILE]) fs'
  = Some (File (ProgressJson (fst (fst st')))).
Proof.
  revert st fs. induction task_ids as [|t ts IH]; intros st fs Hne; [congruence|].
  simpl. unfold bind at 1.
  destruct (batch_step t st fs) as [[st1|] fs1] eqn:E; [|discriminate].
  destruct ts as [|t' ts].
  - simpl. intros [= <- <-]. eapply batch_step_progress; eauto.
  - apply IH. discriminate.
Qed.

(** When a batch returns, the summary document holds the summary it
    returns and, if a task was run, the progress document holds the
    results of that summary. *)
Theorem batch_documents task_ids max_tasks fs sm fs' :
  run_batch task_ids max_tasks fs = (Ret sm, fs') ->
  lookup (loc (output_root self) ++ [SUMMARY_FILE]) fs' = Some (File (SummaryJson sm)) /\
  (select_tasks task_ids max_tasks <> [] ->
   lookup (loc (output_root self) ++ [PROGRESS_FILE]) fs'
   = Some (File (ProgressJson (results sm)))).
Proof.
  intros H. apply run_batch_inv in H as (fs1 & Hloop & Hsum).
  apply generate_summary_inv in Hsum as [_ Hw]. split.
  - now apply write_file_ok in Hw.
  - intros Hne. rewrite (preserves_write_file _ _ _ _ _ Hw).
    + apply (batch_loop_progress _ _ _ _ _ Hne Hloop).
    + apply incomparable_siblings. discriminate.
Qed.

(** A batch of no task is not an error: nothing is run, the progress
    document is not written, and the summary, which is written, counts
    zero tasks with the rate "0%", no division being made. *)
Theorem batch_of_nothing task_ids max_tasks fs sm fs' :
  select_tasks task_ids max_tasks = [] ->
  run_batch task_ids max_tasks fs = (Ret sm, fs') ->
  sm = {| total_tasks := 0; successful := 0; failed := 0; success_rate := "0%";
          summary_api_type := api_type self;
          summary_output_root := str (output_root self);
          results := [] |} /\
  put (loc (output_root self) ++ [SUMMARY_FILE]) (File (SummaryJson sm)) fs = inr fs' /\
  forall q, incomparable q (loc (output_root self) ++ [SUMMARY_FILE]) = true ->
            lookup q fs' = lookup q fs.
Proof.
  intros Hsel H. unfold GitTaskBenchRunner.run_batch, bind in H. rewrite Hsel in H.
  simpl in H. apply generate_summary_inv in H as [Hsm Hw].
  split; [exact Hsm|]. split.
  - now apply write_file_ok in Hw.
  - intros q Hq. now apply (preserves_write_file _ _ _ _ _ Hw).
Qed.

(** ** Further facts: the two directories of a run *)

Lemma set_entry_id k n es : entry k es = Some n -> set_entry k n es = es.
Proof.
  induction es as [|[k' n'] es IH]; simpl; [discriminate|].
  destruct (String.eqb k k') eqn:E.
  - apply String.eqb_eq in E. now intros [= ->]; subst.
  - intros H. now rewrite IH.
Qed.

(** [mkdir(exist_ok=True)] on a directory that is there changes nothing. *)
Lemma mkdirs_idem p fs : is_dir p fs = true -> mkdirs p fs = inr fs.
Proof.
  unfold is_dir. revert fs. induction p as [|c p IH]; intros fs; simpl.
  - now destruct fs.
  - destruct fs as [?|es]; [discriminate|].
    destruct (entry c es) as [m|] eqn:E; [|discriminate].
    intros H. rewrite (IH _ H). now rewrite set_entry_id.
Qed.

Lemma mkdirs_frame p fs fs' q :
  mkdirs p fs = inr fs' -> incomparable q p = true -> lookup q fs' = lookup q fs.
Proof.
  revert fs fs' q. induction p as [|c p IH]; intros fs fs' q; simpl.
  - now rewrite incomparable_nil_r.
  - destruct fs as [?|es]; [discriminate|].
    destruct q as [|d q]; [discriminate|]. simpl.
    destruct (mkdirs p _) as [e|m'] eqn:P; [discriminate|].
    intros [= <-]. simpl.
    destruct (String.eqb d c) eqn:Edc.
    + apply String.eqb_eq in Edc. subst d. intros Hinc.
      rewrite entry_set_same. rewrite (IH _ _ _ P Hinc).
      destruct (entry c es); auto. now destruct q.
    + assert (c <> d) by (intros ->; now rewrite String.eqb_refl in Edc).
      intros _. now rewrite entry_set_other.
Qed.

(** What is there stays there: a regular file as it is, a directory as a
    directory. *)
Lemma mkdirs_grows p fs fs' q n :
  mkdirs p fs = inr fs' -> lookup q fs = Some n ->
  exists n', lookup q fs' = Some n' /\
             match n with
             | File c => n' = File c
             | Dir _ => exists es', n' = Dir es'
             end.
Proof.
  revert fs fs' q. induction p as [|c p IH]; intros fs fs' q; simpl.
  - destruct fs; [discriminate|]. intros [= <-] H. exists n. split; auto.
    destruct n; eauto.
  - destruct fs as [?|es]; [discriminate|].
    destruct (mkdirs p _) as [e|m'] eqn:P; [discriminate|].
    intros [= <-]. destruct q as [|d q]; simpl.
    + intros [= <-]. eauto.
    + destruct (String.eqb d c) eqn:Edc.
      * apply String.eqb_eq in Edc. subst d. rewrite entry_set_same.
        destruct (entry c es) as [m|]; [|discriminate]. now apply IH.
      * assert (c <> d) by (intros ->; now rewrite String.eqb_refl in Edc).
        rewrite entry_set_other by auto. intros H'. exists n. split; auto.
        destruct n; eauto.
Qed.

Lemma lookup_parent p x fs n :
  lookup (p ++ [x]) fs = Some n -> is_dir p fs = true.
Proof.
  unfold is_dir. rewrite lookup_app.
  destruct (lookup p fs) as [[?|?]|]; auto; discriminate.
Qed.

(** [mkdtemp] takes the first candidate name that is free. *)
Lemma mkdtemp_from_first n i prefix fs p fs' :
  GitTaskBenchRunner.mkdtemp_from tempdir random_name n i prefix fs = (Ret p, fs') ->
  exists j, i <= j < i + n /\
            p = tempdir ++ [(prefix ++ random_name j)%string] /\
            forall k, i <= k < j ->
                      lookup (tempdir ++ [(prefix ++ random_name k)%string]) fs <> None.
Proof.
  revert i. induction n as [|n IH]; intros i; simpl; [discriminate|].
  destruct (lookup (tempdir ++ _) fs) eqn:E.
  - intros H. apply IH in H as (j & Hj & Hp & Hk). exists j. repeat split; auto; try lia.
    intros k Hik. destruct (Nat.eq_dec k i) as [->|]; [congruence|]. apply Hk. lia.
  - destruct (put (tempdir ++ _) _ fs) as [e|fs1] eqn:P; [discriminate|].
    intros [= <- <-]. exists i. repeat split; auto; lia.
Qed.

Lemma setup_scratch task_id verbose fs l fs_d :
  setup task_id verbose fs = (Ret l, fs_d) ->
  exists j,
    j < TMP_MAX /\
    temp_work_dir l
      = tempdir ++ [(("repomaster_" ++ task_id ++ "_") ++ random_name j)%string] /\
    forall k, k < j ->
      lookup (tempdir ++ [(("repomaster_" ++ task_id ++ "_") ++ random_name k)%string]) fs
      <> None.
Proof.
  unfold GitTaskBenchRunner.setup, bind, lift, raise, ret.
  destruct (load_task_config task_id) as [task_info|]; [|discriminate].
  destruct (negb (truthy _)); [discriminate|].
  destruct (Py.index0 _) as [repo_info|]; [|discriminate].
  destruct (GitTaskBenchRunner.resolve_repository _ _) as [repo|]; [|discriminate].
  destruct (GitTaskBenchRunner.resolve_input_data _ _) as [inp|]; [|discriminate].
  destruct (mkdtemp _ fs) as [[tmp|] fs1] eqn:Etmp; [|discriminate].
  apply mkdtemp_from_first in Etmp as (j & Hj & Hp & Hk).
  intros H.
  assert (temp_work_dir l = tmp) as ->.
  { revert H. unfold Sh.mkdir_p.
    destruct (mkdirs _ fs1) as [e|fs2]; simpl; [discriminate|].
    destruct verbose; [destruct (Py.sliceable _); [|discriminate]|];
      now intros [= <- _]. }
  exists j. repeat split; auto; try lia. intros k Hk'. apply Hk. lia.
Qed.

(** When [run_single_task] reaches its [try] statement, its scratch
    directory is new: it is named by the first candidate, of fewer than
    [TMP_MAX], whose name was free in the temporary directory; it is a
    directory, and an empty one unless the output directory lies in it; and
    the output directory exists. *)
Theorem scratch_directory_fresh task_id verbose fs l fs_d :
  setup task_id verbose fs = (Ret l, fs_d) ->
  (exists j,
     j < TMP_MAX /\
     temp_work_dir l
       = tempdir ++ [(("repomaster_" ++ task_id ++ "_") ++ random_name j)%string] /\
     forall k, k < j ->
       lookup (tempdir ++ [(("repomaster_" ++ task_id ++ "_") ++ random_name k)%string]) fs
       <> None) /\
  lookup (temp_work_dir l) fs = None /\
  is_dir (temp_work_dir l) fs_d = true /\
  (incomparable (temp_work_dir l) (loc (final_output_dir l)) = true ->
   lookup (temp_work_dir l) fs_d = Some (Dir [])) /\
  is_dir (loc (output_root self // task_id)) fs_d = true.
Proof.
  intros H. pose proof (setup_inv _ _ _ _ _ H) as (Hout & _ & fs_m & Hnone & Hput & Hmk).
  assert (lookup (temp_work_dir l) fs_m = Some (Dir [])) as Hm
    by (eapply put_same; eauto).
  split; [now apply setup_scratch in H|repeat split; auto].
  - unfold is_dir.
    destruct (mkdirs_grows _ _ _ _ _ Hmk Hm) as (n' & -> & es' & ->). reflexivity.
  - intros Hinc. rewrite (mkdirs_frame _ _ _ _ Hmk); auto.
  - rewrite <- Hout. eapply mkdirs_is_dir; eauto.
Qed.

(** *** What a run leaves alone *)









(** *** Exceptions that are not caught *)

(** [except Exception] lets pass what is not an [Exception]
    ([KeyboardInterrupt], [SystemExit]): raised by the agent, it ends the run
    where the agent stopped -- no error document is written and the scratch
    directory is not removed -- and it ends the batch whose loop made the
    run, before the progress and the summary are written. *)
Theorem base_exception_escapes task_id verbose fs l fs_d e fs_a :
  setup task_id verbose fs = (Ret l, fs_d) ->
  invoke l fs_d = (Raise e, fs_a) ->
  is_Exception e = false ->
  run_single_task task_id verbose fs = (Raise e, fs_a) /\
  (verbose = false ->
   (forall rest st, batch_loop (task_id :: rest) st fs = (Raise e, fs_a)) /\
   (forall task_ids max_tasks rest,
      select_tasks task_ids max_tasks = task_id :: rest ->
      run_batch task_ids max_tasks fs = (Raise e, fs_a))).
Proof.
  intros Hs Hi He.
  assert (run_single_task task_id verbose fs = (Raise e, fs_a)) as Hrun.
  { rewrite (run_single_task_enters_try _ _ _ _ _ Hs).
    unfold try_except, GitTaskBenchRunner.attempt, bind. now rewrite Hi, He. }
  split; auto. intros ->.
  assert (forall rest st, batch_loop (task_id :: rest) st fs = (Raise e, fs_a)) as Hloop.
  { intros rest st. cbn [GitTaskBenchRunner.batch_loop]. unfold bind at 1.
    now rewrite (batch_step_raises _ st _ _ _ Hrun). }
  split; auto. intros task_ids max_tasks rest Hsel.
  unfold GitTaskBenchRunner.run_batch, bind. now rewrite Hsel, Hloop.
Qed.

(** *** The narration *)

Lemma setup_verbose task_id fs :
  setup task_id true fs =
  match setup task_id false fs with
  | (Ret l, fs_d) =>
      match Py.sliceable (task_description l) with
      | Ret _ => (Ret l, fs_d)
      | Raise e => (Raise e, fs_d)
      end
  | (Raise e, fs1) => (Raise e, fs1)
  end.
Proof.
  unfold GitTaskBenchRunner.setup, bind, lift, raise, ret.
  destruct (load_task_config task_id) as [task_info|]; auto.
  destruct (negb (truthy _)); auto.
  destruct (Py.index0 _) as [repo_info|]; auto.
  destruct (GitTaskBenchRunner.resolve_repository _ _) as [repo|]; auto.
  destruct (GitTaskBenchRunner.resolve_input_data _ _) as [inp|]; auto.
  destruct (mkdtemp _ fs) as [[tmp|] fs1]; auto.
  destruct (Sh.mkdir_p _ fs1) as [[[]|] fs2]; auto.
Qed.

(** [verbose] only adds the narration, with one exception: the narration
    slices the task description, before the [try] statement.  With a
    description that can be sliced (a string, a list) the verbose run is
    the silent run.  With another description (a number, a mapping) the
    verbose run raises once the two directories are made, and leaves them,
    where the silent run goes on to the agent. *)
Theorem verbose_narration task_id fs :
  match setup task_id false fs with
  | (Ret l, fs_d) =>
      match Py.sliceable (task_description l) with
      | Ret _ => run_single_task task_id true fs = run_single_task task_id false fs
      | Raise e =>
          run_single_task task_id true fs = (Raise e, fs_d) /\
          run_single_task task_id false fs
          = try_except (attempt task_id l) (on_error task_id l) fs_d
      end
  | (Raise e, fs1) =>
      run_single_task task_id true fs = run_single_task task_id false fs
  end.
Proof.
  pose proof (setup_verbose task_id fs) as Hv.
  destruct (setup task_id false fs) as [[l|e] fs_d] eqn:Hs.
  - destruct (Py.sliceable (task_description l)) as [[]|e] eqn:Esl.
    + unfold GitTaskBenchRunner.run_single_task, bind. now rewrite Hv, Hs.
    + split.
      * now apply run_single_task_setup_raises.
      * now apply run_single_task_enters_try.
  - unfold GitTaskBenchRunner.run_single_task, bind. now rewrite Hv, Hs.
Qed.

(** *** Loading and resolving *)

(** On stores of mappings, [load_task_config] is [load_task_config_from]
    on files that load. *)
Lemma load_task_config_as_loaded task_id :
  GitTaskBenchRunner.load_task_config_from
    (config_dir self // task_id // "task_info.yaml")
    (GitTaskBenchRunner.as_loaded (find_doc task_id config_store))
    (GitTaskBenchRunner.as_loaded (find_doc task_id query_store))
  = match load_task_config task_id with
    | Ret d => Ret (VDict d)
    | Raise e => Raise e
    end.
Proof.
  unfold GitTaskBenchRunner.load_task_config, GitTaskBenchRunner.load_task_config_from,
    GitTaskBenchRunner.as_loaded.
  destruct (find_doc task_id config_store) as [task_info|]; [|reflexivity].
  destruct (find_doc task_id query_store) as [query_info|]; [|reflexivity].
  cbn [option_map obind Py.get Py.setitem].
  now destruct (Dict.get_default "file_paths" (VDict []) query_info).
Qed.

(** [load_task_config] fails in these cases and no other: the metadata
    file is missing; one of the two files is there and does not load; the
    query file loads, and it is not a mapping, or the metadata is not one
    (an empty [task_info.yaml] loads as [None]), or its [file_paths] is
    not one.  Of two failures the one that comes first in this list is
    raised. *)
Theorem load_task_config_raises config_path config_file query_file e :
  GitTaskBenchRunner.load_task_config_from config_path config_file query_file = Raise e <->
  (config_file = None /\
   e = ValueError ("Task config not found: " ++ str config_path)) \/
  config_file = Some (Raise e) \/
  (exists task_info,
     config_file = Some (Ret task_info) /\
     (query_file = Some (Raise e) \/
      exists query_info,
        query_file = Some (Ret query_info) /\
        match query_info with
        | VDict q =>
            match task_info with
            | VDict _ =>
                exists v, Dict.get "file_paths" q = Some v /\
                          (forall d, v <> VDict d) /\
                          e = AttributeError
                                ("'" ++ type_name v ++ "' object has no attribute 'get'")
            | _ => e = Py.not_assignable task_info
            end
        | _ => e = AttributeError
                     ("'" ++ type_name query_info ++ "' object has no attribute 'get'")
        end)).
Proof.
  unfold GitTaskBenchRunner.load_task_config_from. split.
  - destruct config_file as [[task_info|e0]|]; cbn [obind].
    + intros H. right. right. exists task_info. split; auto.
      destruct query_file as [[query_info|e1]|]; cbn [obind] in H; try discriminate.
      * right. exists query_info. split; auto.
        destruct query_info as [| | | | |q]; try (now inversion H).
        destruct task_info as [| | | | |t]; try (now inversion H).
        cbn [Py.get Py.setitem obind] in H. unfold Dict.get_default in H.
        destruct (Dict.get "file_paths" q) as [v|]; [|discriminate].
        exists v. split; auto.
        destruct v; try discriminate; (split; [discriminate|now inversion H]).
      * left. now inversion H.
    + intros [= ->]. auto.
    + intros [= <-]. auto.
  - intros [[-> ->]|[->|(task_info & -> & [->|(query_info & -> & H)])]];
      cbn [obind]; auto.
    destruct query_info as [| | | | |q]; try (now subst).
    destruct task_info as [| | | | |t]; try (now subst).
    destruct H as (v & Hv & Hnd & ->).
    cbn [Py.get Py.setitem obind]. unfold Dict.get_default. rewrite Hv.
    destruct v; auto. now destruct (Hnd d).
Qed.

Lemma dict_set_keys k v v0 d :
  Dict.get k d = Some v0 -> map fst (Dict.set k v d) = map fst d.
Proof.
  induction d as [|[k' v'] d IH]; simpl; [discriminate|].
  destruct (String.eqb k k') eqn:E; simpl.
  - apply String.eqb_eq in E. now subst.
  - intros H. now rewrite IH.
Qed.

Lemma resolve_item_shape x x' :
  GitTaskBenchRunner.resolve_item self x = Ret x' ->
  x' = x \/
  exists d d', x = VDict d /\ x' = VDict d' /\
               map fst d' = map fst d /\
               (exists p, Dict.get "path" d' = Some (VStr p)) /\
               forall k, k <> "path" -> Dict.get k d' = Dict.get k d.
Proof.
  unfold GitTaskBenchRunner.resolve_item.
  destruct (Py.contains_path x) as [[|]|] eqn:Ec; cbn [obind];
    [|intros [= <-]; auto|discriminate].
  destruct x as [| | | |?|d]; try discriminate.
  unfold Dict.get_default.
  destruct (Py.startswith _ _) as [[|]|]; cbn [obind];
    [|intros [= <-]; auto|discriminate].
  destruct (Py.replace _ _ _) as [rel|]; cbn [obind]; [|discriminate].
  intros [= <-]. right. exists d. eexists. repeat split.
  - revert Ec. unfold Py.contains_path.
    destruct (Dict.get "path" d) as [v0|] eqn:E; [|discriminate].
    intros _. eapply dict_set_keys; eauto.
  - eexists. apply dict_get_set_same.
  - intros k Hk. now apply dict_get_set_other.
Qed.

(** Resolving the input data of a task keeps the list as it is but for
    the ['path'] of its items: no item is added, dropped or moved; an item
    that is a mapping keeps its keys, in their order, and every value but
    the one of ['path']; any other item is passed on as it is. *)
Theorem resolve_input_data_shape items v' :
  GitTaskBenchRunner.resolve_input_data self (VList items) = Ret v' ->
  exists items',
    v' = VList items' /\
    Forall2 (fun x x' =>
               x' = x \/
               exists d d', x = VDict d /\ x' = VDict d' /\
                            map fst d' = map fst d /\
                            (exists p, Dict.get "path" d' = Some (VStr p)) /\
                            forall k, k <> "path" -> Dict.get k d' = Dict.get k d)
            items items'.
Proof.
  unfold GitTaskBenchRunner.resolve_input_data.
  destruct (truthy (VList items)) eqn:Et.
  - cbn [Py.iter obind].
    destruct (GitTaskBenchRunner.resolve_items self items) as [items'|] eqn:E;
      cbn [obind]; [|discriminate].
    intros [= <-]. exists items'. split; auto.
    clear Et. revert items' E. induction items as [|x items IH]; intros items'; simpl.
    + intros [= <-]. constructor.
    + destruct (GitTaskBenchRunner.resolve_item self x) as [x'|] eqn:Ex;
        cbn [obind]; [|discriminate].
      destruct (GitTaskBenchRunner.resolve_items self items) as [rest'|];
        cbn [obind]; [|discriminate].
      intros [= <-]. constructor; auto. now apply resolve_item_shape.
  - intros [= <-]. exists items. split; auto.
    destruct items; [constructor|discriminate].
Qed.

(** *** Grading *)

Variable import_TaskEvaluator : M unit.
Variable evaluate : string -> string -> M value.
Variable is_ImportError : exc -> bool.

Local Abbreviation try_grade :=
  (GitTaskBenchRunner.try_grade self cwd import_TaskEvaluator evaluate).
Local Abbreviation grade_with_gittaskbench :=
  (GitTaskBenchRunner.grade_with_gittaskbench self cwd import_TaskEvaluator evaluate
     is_ImportError).

Lemma try_grade_task task_id fs g fs' :
  try_grade task_id fs = (Ret g, fs') -> GitTaskBenchRunner.graded_task g = task_id.
Proof.
  unfold GitTaskBenchRunner.try_grade, bind, Sh.path_exists, ret.
  destruct (import_TaskEvaluator fs) as [[[]|] fs1]; [|discriminate].
  destruct (lookup _ fs1); cbn [negb].
  - destruct (evaluate _ _ fs1) as [[v|] fs2]; [|discriminate]. now intros [= <- _].
  - now intros [= <- _].
Qed.

(** Grading answers every failure that is an [Exception] with a record
    that is not graded: whatever the import and the evaluator do, it
    returns a record of the task it was asked, or passes on what is not an
    [Exception]. *)
Theorem grade_answers task_id fs :
  match grade_with_gittaskbench task_id fs with
  | (Ret g, _) => GitTaskBenchRunner.graded_task g = task_id
  | (Raise e, _) => is_Exception e = false /\ is_ImportError e = false
  end.
Proof.
  unfold GitTaskBenchRunner.grade_with_gittaskbench.
  destruct (try_grade task_id fs) as [[g|e] fs1] eqn:E.
  - eapply try_grade_task; eauto.
  - destruct (is_ImportError e) eqn:Ei; [reflexivity|].
    destruct (is_Exception e) eqn:Ex; [reflexivity|]. auto.
Qed.


(** [except ImportError] stands for the whole [try] body: an [ImportError]
    that the evaluator raises while grading, the module being imported and
    the output directory there, is answered as if the grading module were
    not installed. *)
Theorem grade_import_error_inside task_id fs fs1 e fs2 :
  import_TaskEvaluator fs = (Ret tt, fs1) ->
  lookup (loc (output_root self // task_id)) fs1 <> None ->
  evaluate task_id (str (output_root self // task_id)) fs1 = (Raise e, fs2) ->
  is_ImportError e = true ->
  grade_with_gittaskbench task_id fs
  = (Ret (GitTaskBenchRunner.NotGraded task_id GitTaskBenchRunner.NO_MODULE), fs2).
Proof.
  intros Hi Hn He Himp.
  unfold GitTaskBenchRunner.grade_with_gittaskbench, GitTaskBenchRunner.try_grade, bind,
    Sh.path_exists.
  rewrite Hi. destruct (lookup _ fs1); [|congruence]. cbn [negb].
  now rewrite He, Himp.
Qed.

Lemma run_leaves_output_dir task_id verbose fs l fs_d r fs' :
  setup task_id verbose fs = (Ret l, fs_d) ->
  run_single_task task_id verbose fs = (Ret r, fs') ->
  incomparable (temp_work_dir l) (loc (final_output_dir l)) = true ->
  is_dir (loc (output_root self // task_id)) fs' = true.
Proof.
  intros Hs Hrun Hinc.
  destruct (setup_inv _ _ _ _ _ Hs) as (Hout & _). rewrite <- Hout.
  destruct (run_single_task_returns _ _ _ _ _ _ _ Hs Hrun)
    as [(_ & res & fs_a & _ & Hc)|(_ & e & fs_x & _ & _ & Hh)].
  - apply collect_and_save_returns in Hc as (_ & es & fs_c & fs_w & _ & _ & Hw & Hr).
    destruct (record_and_cleanup _ _ _ _ _ _ _ Hinc Hw Hr) as (Hdoc & _).
    eapply lookup_parent; eauto.
  - apply on_error_returns in Hh as (_ & fs_w & Hw & Hr).
    destruct (record_and_cleanup _ _ _ _ _ _ _ Hinc Hw Hr) as (Hdoc & _).
    eapply lookup_parent; eauto.
Qed.

(** A task that was run can be graded: after a run that returned a
    record, failed or not, the output directory of the task is there, so
    the evaluator is called on it and its grade is the answer. *)
Theorem grade_after_run task_id verbose fs l fs_d r fs' fs1 v fs2 :
  setup task_id verbose fs = (Ret l, fs_d) ->
  run_single_task task_id verbose fs = (Ret r, fs') ->
  incomparable (temp_work_dir l) (loc (final_output_dir l)) = true ->
  import_TaskEvaluator fs' = (Ret tt, fs1) ->
  lookup (loc (output_root self // task_id)) fs1
  = lookup (loc (output_root self // task_id)) fs' ->
  evaluate task_id (str (output_root self // task_id)) fs1 = (Ret v, fs2) ->
  is_dir (loc (output_root self // task_id)) fs' = true /\
  grade_with_gittaskbench task_id fs'
  = (Ret (GitTaskBenchRunner.Graded task_id v), fs2).
Proof.
  intros Hs Hrun Hinc Hi Hkeep Hv.
  pose proof (run_leaves_output_dir _ _ _ _ _ _ _ Hs Hrun Hinc) as Hd.
  split; auto.
  unfold GitTaskBenchRunner.grade_with_gittaskbench, GitTaskBenchRunner.try_grade, bind,
    Sh.path_exists.
  rewrite Hi, Hkeep. unfold is_dir in Hd.
  destruct (lookup _ fs') as [[?|?]|]; try discriminate. cbn [negb].
  now rewrite Hv.
Qed.

(** *** When a run raises *)

(** A run raises in three cases and no other: before its [try]
    statement, where nothing is caught; inside it, with an exception that
    is not an [Exception]; and in its handler, when the error document
    cannot be written -- the removal of the scratch directory, which
    ignores errors, never raises.  In the last two cases the scratch
    directory is not removed. *)
Theorem run_raises_only task_id verbose fs e fs' :
  run_single_task task_id verbose fs = (Raise e, fs') <->
  setup task_id verbose fs = (Raise e, fs') \/
  exists l fs_d,
    setup task_id verbose fs = (Ret l, fs_d) /\
    ((attempt task_id l fs_d = (Raise e, fs') /\ is_Exception e = false) \/
     (exists e0,
        attempt task_id l fs_d = (Raise e0, fs') /\ is_Exception e0 = true /\
        Sh.write_file (loc (final_output_dir l) ++ [ERROR_FILE])
          (ResultJson (ErrorData task_id (exc_msg e0) (exc_type e0) (format_exc e0)
                                 (str (final_output_dir l)))) fs'
        = (Raise e, fs'))).
Proof.
  split.
  - intros H. destruct (setup task_id verbose fs) as [[l|e1] fs_d] eqn:Hs.
    + right. exists l, fs_d. split; auto.
      rewrite (run_single_task_enters_try _ _ _ _ _ Hs) in H. revert H.
      unfold try_except.
      destruct (attempt task_id l fs_d) as [[r|e0] fs_x]; [discriminate|].
      destruct (is_Exception e0) eqn:Ex; [|intros [= <- <-]; auto].
      unfold GitTaskBenchRunner.on_error, bind. rewrite json_dump_error_data.
      destruct (Sh.write_file _ _ fs_x) as [[[]|e1] fs_w] eqn:Ew.
      * destruct (rmtree_ignore_errors (temp_work_dir l) fs_w) as (fs2 & -> & _).
        discriminate.
      * intros [= <- <-]. pose proof (write_file_raises _ _ _ _ _ Ew) as ->.
        right. exists e0. auto.
    + rewrite (run_single_task_setup_raises _ _ _ _ _ Hs) in H.
      injection H as <- <-. now left.
  - intros [Hs|(l & fs_d & Hs & [[Ha Hx]|(e0 & Ha & Hx & Hw)])].
    + now apply run_single_task_setup_raises.
    + rewrite (run_single_task_enters_try _ _ _ _ _ Hs).
      unfold try_except. now rewrite Ha, Hx.
    + rewrite (run_single_task_enters_try _ _ _ _ _ Hs).
      unfold try_except. rewrite Ha, Hx.
      unfold GitTaskBenchRunner.on_error, bind.
      now rewrite json_dump_error_data, Hw.
Qed.

(** *** The record of a run *)

(** The record that a run returns tells how its [try] body ended.  When
    the body returned, it is the success record, with the payload of the
    agent as it came, the repository as resolved and the task description
    as loaded.  When the body raised, what it raised is an [Exception], and
    the record holds its message, the name of its class and the traceback.
    Both name the task and its output directory. *)
Theorem run_record task_id verbose fs l fs_d r fs' :
  setup task_id verbose fs = (Ret l, fs_d) ->
  run_single_task task_id verbose fs = (Ret r, fs') ->
  match attempt task_id l fs_d with
  | (Ret r0, fs1) =>
      r = r0 /\ fs' = fs1 /\
      exists res fs_a,
        invoke l fs_d = (Ret res, fs_a) /\
        r = ResultData task_id res (str (output_root self // task_id))
                       (repository l) (task_description l)
  | (Raise e, _) =>
      is_Exception e = true /\
      r = ErrorData task_id (exc_msg e) (exc_type e) (format_exc e)
                    (str (output_root self // task_id))
  end.
Proof.
  intros Hs Hrun. destruct (setup_inv _ _ _ _ _ Hs) as (<- & _).
  rewrite (run_single_task_enters_try _ _ _ _ _ Hs) in Hrun. revert Hrun.
  unfold try_except.
  destruct (attempt task_id l fs_d) as [[r0|e] fs1] eqn:Ha.
  - intros [= <- <-]. split; [reflexivity|]. split; [reflexivity|].
    revert Ha. unfold GitTaskBenchRunner.attempt, bind.
    destruct (invoke l fs_d) as [[res|] fs_a]; [|discriminate].
    intros Hc. apply collect_and_save_returns in Hc as [-> _]. now exists res, fs_a.
  - destruct (is_Exception e); [|discriminate].
    intros Hh. apply on_error_returns in Hh as [-> _]. auto.
Qed.

(** The repository of a task resolves exactly when its entry is a mapping
    whose ['path'] is a string and, unless that string begins with the
    placeholder, whose ['name'] is a string; a missing key counts as the
    empty string.  Any other entry raises, before the [try] statement. *)
Theorem resolve_repository_returns repo_info :
  (exists repository, GitTaskBenchRunner.resolve_repository self repo_info = Ret repository)
  <->
  exists d p,
    repo_info = VDict d /\
    Dict.get_default "path" (VStr "") d = VStr p /\
    (PyStr.startswith p PLACEHOLDER = true \/
     exists nm, Dict.get_default "name" (VStr "") d = VStr nm).
Proof.
  unfold GitTaskBenchRunner.resolve_repository. split.
  - intros [repository H]. destruct repo_info as [| | | | |d]; try discriminate.
    cbn [Py.get obind] in H.
    destruct (Dict.get_default "path" (VStr "") d) as [| | |p| |] eqn:Ep;
      try discriminate.
    exists d, p. split; [reflexivity|]. split; [exact Ep|].
    cbn [Py.startswith obind] in H.
    destruct (PyStr.startswith p PLACEHOLDER); [now left|right].
    destruct (Dict.get_default "name" (VStr "") d) as [| | |nm| |];
      cbn [Py.get Py.truediv obind] in H; try discriminate.
    now exists nm.
  - intros (d & p & -> & Hp & Hn). cbn [Py.get obind]. rewrite Hp.
    cbn [Py.startswith obind].
    destruct (PyStr.startswith p PLACEHOLDER) eqn:Es; [cbn; eauto|].
    destruct Hn as [|[nm ->]]; [discriminate|]. cbn. eauto.
Qed.

End RunnerFacts.

(** ** Walking a path, and making directories along it *)

Module WalkFacts.
Import FS FSFacts.
Import Sh (adds_directories, same_kind, grows, no_new_file, aside).

Lemma same_kind_refl n : same_kind n n.
Proof. destruct n; simpl; eauto. Qed.

Lemma same_kind_trans n1 n2 n3 : same_kind n1 n2 -> same_kind n2 n3 -> same_kind n1 n3.
Proof.
  destruct n1; simpl.
  - intros ->. auto.
  - intros [es' ->]. auto.
Qed.

Lemma grows_refl fs : grows fs fs.
Proof. intros q n H. exists n. split; auto. apply same_kind_refl. Qed.

Lemma grows_trans fs1 fs2 fs3 : grows fs1 fs2 -> grows fs2 fs3 -> grows fs1 fs3.
Proof.
  intros H12 H23 q n H. destruct (H12 _ _ H) as (n2 & H2 & K2).
  destruct (H23 _ _ H2) as (n3 & H3 & K3). exists n3. split; auto.
  eapply same_kind_trans; eauto.
Qed.

Lemma no_new_file_refl fs : no_new_file fs fs.
Proof. now intros q c. Qed.

Lemma no_new_file_trans fs1 fs2 fs3 :
  no_new_file fs1 fs2 -> no_new_file fs2 fs3 -> no_new_file fs1 fs3.
Proof. intros H12 H23 q c H. auto. Qed.

Lemma grows_adds fs fs' : grows fs fs' -> no_new_file fs fs' -> adds_directories fs fs'.
Proof.
  intros Hg Hn. split.
  - intros q c. split; [apply Hn|].
    intros H. destruct (Hg _ _ H) as (n' & -> & ->). reflexivity.
  - intros q. unfold is_dir. destruct (lookup q fs) as [[c|es]|] eqn:E; try discriminate.
    destruct (Hg _ _ E) as (n' & -> & es' & ->). reflexivity.
Qed.

Lemma grows_dir fs fs' q es :
  grows fs fs' -> lookup q fs = Some (Dir es) -> exists es', lookup q fs' = Some (Dir es').
Proof. intros Hg H. destruct (Hg _ _ H) as (n' & Hn' & es' & ->). eauto. Qed.

(** *** Binding a new directory *)

Lemma put_grows p new fs fs' :
  put p new fs = inr fs' -> lookup p fs = None -> grows fs fs'.
Proof.
  revert fs fs'. induction p as [|c p IH]; intros fs fs'; simpl; [discriminate|].
  destruct fs as [?|es]; [discriminate|].
  destruct (entry c es) as [m|] eqn:E.
  - destruct (put p new m) as [e|m'] eqn:P; [discriminate|].
    intros [= <-] Hnone q n. destruct q as [|d q]; simpl.
    + intros [= <-]. eexists. split; eauto. simpl. eauto.
    + destruct (String.eqb d c) eqn:Edc.
      * apply String.eqb_eq in Edc. subst d. rewrite entry_set_same, E.
        now apply (IH _ _ P).
      * assert (c <> d) by (intros ->; now rewrite String.eqb_refl in Edc).
        rewrite entry_set_other by auto. intros H'. exists n. split; auto.
        apply same_kind_refl.
  - destruct p; [|discriminate]. intros [= <-] _ q n. destruct q as [|d q]; simpl.
    + intros [= <-]. eexists. split; eauto. simpl. eauto.
    + destruct (String.eqb d c) eqn:Edc.
      * apply String.eqb_eq in Edc. subst d. now rewrite E.
      * assert (c <> d) by (intros ->; now rewrite String.eqb_refl in Edc).
        rewrite entry_set_other by auto. intros H'. exists n. split; auto.
        apply same_kind_refl.
Qed.

Lemma lookup_empty_dir q c : lookup q (Dir []) <> Some (File c).
Proof. destruct q; simpl; discriminate. Qed.

Lemma put_dir_no_new_file p fs fs' :
  put p (Dir []) fs = inr fs' -> no_new_file fs fs'.
Proof.
  revert fs fs'. induction p as [|c p IH]; intros fs fs'; simpl.
  - intros [= <-] q c H. now apply lookup_empty_dir in H.
  - destruct fs as [?|es]; [discriminate|].
    destruct (entry c es) as [m|] eqn:E.
    + destruct (put p (Dir []) m) as [e|m'] eqn:P; [discriminate|].
      intros [= <-] q c0. destruct q as [|d q]; simpl; [discriminate|].
      destruct (String.eqb d c) eqn:Edc.
      * apply String.eqb_eq in Edc. subst d. rewrite entry_set_same, E.
        now apply (IH _ _ P).
      * assert (c <> d) by (intros ->; now rewrite String.eqb_refl in Edc).
        now rewrite entry_set_other by auto.
    + destruct p; [|discriminate]. intros [= <-] q c0.
      destruct q as [|d q]; simpl; [discriminate|].
      destruct (String.eqb d c) eqn:Edc.
      * apply String.eqb_eq in Edc. subst d. rewrite entry_set_same.
        intros H. now apply lookup_empty_dir in H.
      * assert (c <> d) by (intros ->; now rewrite String.eqb_refl in Edc).
        now rewrite entry_set_other by auto.
Qed.

Lemma lookup_snoc p c fs :
  lookup (p ++ [c]) fs =
  match lookup p fs with
  | Some (Dir es) => entry c es
  | _ => None
  end.
Proof.
  rewrite lookup_app. destruct (lookup p fs) as [[?|es]|]; simpl; auto.
  now destruct (entry c es).
Qed.

Lemma last_view {A} (l : list A) : l = [] \/ exists l' a, l = l' ++ [a].
Proof.
  destruct l as [|x l]; [auto|]. right.
  destruct (@exists_last _ (x :: l)) as (l' & a & ->); [discriminate|eauto].
Qed.

(** *** The walk *)

(** The last step of a walk. *)
Lemma resolve_snoc fs p : forall cur c,
  resolve fs cur (p ++ [c]) =
  match resolve fs cur p with
  | inr d => resolve fs d [c]
  | inl e => inl e
  end.
Proof.
  induction p as [|x p IH]; intros cur c; [reflexivity|].
  cbn [app resolve]. destruct (lookup cur fs) as [[?|es]|]; auto.
  destruct (String.eqb x ".."); [apply IH|].
  destruct (entry x es); [apply IH|reflexivity].
Qed.

(** A walk that arrives still arrives, at the same place, when
    directories were added. *)
Lemma resolve_grows fs fs' p : grows fs fs' -> forall cur d,
  resolve fs cur p = inr d -> resolve fs' cur p = inr d.
Proof.
  intros Hg. induction p as [|x p IH]; intros cur d; [auto|].
  cbn [resolve]. destruct (lookup cur fs) as [[?|es]|] eqn:E; try discriminate.
  destruct (grows_dir _ _ _ _ Hg E) as [es' E']. rewrite E'.
  destruct (String.eqb x ".."); [apply IH|].
  destruct (entry x es) as [m|] eqn:Ex; [|discriminate].
  assert (lookup (cur ++ [x]) fs = Some m) as Hm by now rewrite lookup_snoc, E.
  destruct (Hg _ _ Hm) as (m' & Hm' & _).
  rewrite lookup_snoc, E' in Hm'. rewrite Hm'. apply IH.
Qed.

Lemma stat_grows fs fs' cur p n :
  grows fs fs' -> stat cur p fs = inr n ->
  exists n', stat cur p fs' = inr n' /\ same_kind n n'.
Proof.
  intros Hg. unfold stat.
  destruct (resolve fs cur p) as [e|d] eqn:R; [discriminate|].
  rewrite (resolve_grows _ _ _ Hg _ _ R).
  destruct (lookup d fs) as [m|] eqn:E; [|discriminate]. intros [= <-].
  destruct (Hg _ _ E) as (n' & -> & K). eauto.
Qed.

(** *** [os.mkdir] *)

(** A path that leads somewhere was walked up to its last component, which
    is [..] or an entry of the directory reached. *)
Lemma stat_snoc cur p c fs n :
  stat cur (p ++ [c]) fs = inr n ->
  exists dir es, resolve fs cur p = inr dir /\ lookup dir fs = Some (Dir es) /\
                 (String.eqb c ".." = true \/ exists m, entry c es = Some m).
Proof.
  unfold stat. rewrite resolve_snoc.
  destruct (resolve fs cur p) as [e|dir]; [discriminate|]. cbn [resolve].
  destruct (lookup dir fs) as [[?|es]|] eqn:E; try discriminate.
  intros H. exists dir, es. repeat split; auto. revert H.
  destruct (String.eqb c ".."); auto.
  destruct (entry c es); [eauto|discriminate].
Qed.

(** Nothing is made where a directory is. *)
Lemma mkdir_exists cur p fs es :
  stat cur p fs = inr (Dir es) -> mkdir cur p fs = inl EEXIST.
Proof.
  destruct (last_view p) as [->|(p0 & c & ->)].
  - unfold stat, mkdir. cbn [removelast resolve].
    destruct (lookup cur fs) as [[?|?]|]; try discriminate. reflexivity.
  - intros H. apply stat_snoc in H as (dir & es1 & R & E & Hc).
    unfold mkdir. rewrite removelast_last, R, E, last_last.
    destruct (p0 ++ [c]) eqn:Ep; [now destruct p0|].
    destruct Hc as [->|[m ->]]; auto. now destruct (String.eqb c "..").
Qed.

(** What [os.mkdir] makes is an empty directory, at the end of the path;
    all else is as it was. *)
Lemma mkdir_made cur p fs fs' :
  mkdir cur p fs = inr fs' ->
  grows fs fs' /\ no_new_file fs fs' /\ stat cur p fs' = inr (Dir []).
Proof.
  unfold mkdir.
  destruct (resolve fs cur (removelast p)) as [e|dir] eqn:R; [discriminate|].
  destruct (lookup dir fs) as [[?|es]|] eqn:E; try discriminate.
  destruct (last_view p) as [->|(p0 & c & ->)]; [discriminate|].
  rewrite removelast_last in R. rewrite last_last.
  destruct (p0 ++ [c]) eqn:Ep; [now destruct p0|]. rewrite <- Ep. clear Ep.
  destruct (String.eqb c "..") eqn:Ec; [discriminate|].
  destruct (entry c es) as [m|] eqn:Em; [discriminate|].
  intros Hput.
  assert (grows fs fs') as Hg.
  { apply (put_grows _ _ _ _ Hput). now rewrite lookup_snoc, E. }
  repeat split; auto.
  - apply (put_dir_no_new_file _ _ _ Hput).
  - unfold stat. rewrite resolve_snoc, (resolve_grows _ _ _ Hg _ _ R).
    cbn [resolve]. destruct (grows_dir _ _ _ _ Hg E) as [es' E']. rewrite E', Ec.
    pose proof (put_same _ _ _ _ Hput) as Hs. rewrite lookup_snoc, E' in Hs.
    now rewrite Hs, lookup_snoc, E', Hs.
Qed.

(** *** [Path.mkdir(parents=True, exist_ok=True)] *)

Lemma mkdir_rec_eq cur rp fs :
  Sh.mkdir_rec cur rp fs =
  let p := rev rp in
  match FS.mkdir cur p fs with
  | inr fs' => (Ret tt, fs')
  | inl ENOENT =>
      match rp with
      | [] => (Raise (os_error ENOENT (cur ++ p)), fs)
      | _ :: rparent =>
          match Sh.mkdir_rec cur rparent fs with
          | (Ret _, fs1) =>
              match FS.mkdir cur p fs1 with
              | inr fs2 => (Ret tt, fs2)
              | inl ENOENT => (Raise (os_error ENOENT (cur ++ p)), fs1)
              | inl e =>
                  match Sh.is_dir_from cur p fs1 with
                  | (Ret true, _) => (Ret tt, fs1)
                  | _ => (Raise (os_error e (cur ++ p)), fs1)
                  end
              end
          | (Raise e, fs1) => (Raise e, fs1)
          end
      end
  | inl e =>
      match Sh.is_dir_from cur p fs with
      | (Ret true, _) => (Ret tt, fs)
      | _ => (Raise (os_error e (cur ++ p)), fs)
      end
  end.
Proof. destruct rp; reflexivity. Qed.

Lemma is_dir_from_true cur p fs fs0 :
  Sh.is_dir_from cur p fs = (Ret true, fs0) -> exists es, stat cur p fs = inr (Dir es).
Proof.
  unfold Sh.is_dir_from. destruct (stat cur p fs) as [e|[c|es]]; try discriminate. eauto.
Qed.

(** However it ends, the call has only added directories; when it returns,
    the path leads to a directory; what it raises is an operating-system
    error. *)
Lemma mkdir_rec_spec cur rp : forall fs o fs',
  Sh.mkdir_rec cur rp fs = (o, fs') ->
  grows fs fs' /\ no_new_file fs fs' /\
  match o with
  | Ret _ => exists es, stat cur (rev rp) fs' = inr (Dir es)
  | Raise e => exists en q, e = os_error en q
  end.
Proof.
  assert (forall fs e p fs0 o fs',
            match Sh.is_dir_from cur p fs with
            | (Ret true, _) => (Ret tt, fs)
            | _ => (Raise (os_error e (cur ++ p)), fs0)
            end = (o, fs') ->
            fs0 = fs ->
            grows fs fs' /\ no_new_file fs fs' /\
            match o with
            | Ret _ => exists es, stat cur p fs' = inr (Dir es)
            | Raise e => exists en q, e = os_error en q
            end) as Hdir.
  { intros fs e p fs0 o fs' H ->.
    destruct (Sh.is_dir_from cur p fs) as [[[|]|e1] fs1] eqn:D;
      inversion H; subst;
      (split; [apply grows_refl|split; [apply no_new_file_refl|]]);
      try (now exists e, (cur ++ p)).
    now apply is_dir_from_true in D. }
  induction rp as [|c rp IH]; intros fs o fs'; rewrite mkdir_rec_eq; cbv zeta.
  - destruct (FS.mkdir cur (rev []) fs) as [e|fs1] eqn:Em.
    + destruct e; try (intros H; now apply (Hdir _ _ _ _ _ _ H)).
      intros [= <- <-].
      split; [apply grows_refl|split; [apply no_new_file_refl|]].
      now exists ENOENT, (cur ++ rev []).
    + intros [= <- <-]. destruct (mkdir_made _ _ _ _ Em) as (Hg & Hn & Hs). eauto.
  - destruct (FS.mkdir cur (rev (c :: rp)) fs) as [e|fs1] eqn:Em.
    + destruct e; try (intros H; now apply (Hdir _ _ _ _ _ _ H)).
      destruct (Sh.mkdir_rec cur rp fs) as [[u|e1] fs1] eqn:Er.
      * destruct (IH _ _ _ Er) as (Hg & Hn & _).
        destruct (FS.mkdir cur (rev (c :: rp)) fs1) as [e|fs2] eqn:Em2.
        -- assert (forall (o' : outcome unit) fs'',
                     grows fs1 fs'' /\ no_new_file fs1 fs'' /\
                     match o' with
                     | Ret _ => exists es, stat cur (rev (c :: rp)) fs'' = inr (Dir es)
                     | Raise e => exists en q, e = os_error en q
                     end ->
                     grows fs fs'' /\ no_new_file fs fs'' /\
                     match o' with
                     | Ret _ => exists es, stat cur (rev (c :: rp)) fs'' = inr (Dir es)
                     | Raise e => exists en q, e = os_error en q
                     end) as Hstep.
           { intros o' fs'' (Hg' & Hn' & Ho).
             split; [eapply grows_trans; eauto|].
             split; [eapply no_new_file_trans; eauto|auto]. }
           destruct e; try (intros H; apply Hstep; now apply (Hdir _ _ _ _ _ _ H)).
           intros [= <- <-]. split; [auto|split; [auto|]].
           now exists ENOENT, (cur ++ rev (c :: rp)).
        -- intros [= <- <-]. destruct (mkdir_made _ _ _ _ Em2) as (Hg2 & Hn2 & Hs).
           split; [eapply grows_trans; eauto|].
           split; [eapply no_new_file_trans; eauto|eauto].
      * intros [= <- <-]. apply (IH _ _ _ Er).
    + intros [= <- <-]. destruct (mkdir_made _ _ _ _ Em) as (Hg & Hn & Hs). eauto.
Qed.

(** On a directory that is there, the call changes nothing. *)
Lemma mkdir_rec_idem cur rp fs es :
  stat cur (rev rp) fs = inr (Dir es) -> Sh.mkdir_rec cur rp fs = (Ret tt, fs).
Proof.
  intros H. rewrite mkdir_rec_eq. cbv zeta.
  rewrite (mkdir_exists _ _ _ _ H). unfold Sh.is_dir_from. now rewrite H.
Qed.

Lemma mkdir_parents_spec cur p fs o fs' :
  Sh.mkdir_parents cur p fs = (o, fs') ->
  adds_directories fs fs' /\ grows fs fs' /\
  match o with
  | Ret _ => exists es, stat cur p fs' = inr (Dir es)
  | Raise e => exists en q, e = os_error en q
  end.
Proof.
  unfold Sh.mkdir_parents. intros H.
  destruct (mkdir_rec_spec _ _ _ _ _ H) as (Hg & Hn & Ho).
  rewrite rev_involutive in Ho. auto using grows_adds.
Qed.

Lemma mkdir_parents_idem cur p fs es :
  stat cur p fs = inr (Dir es) -> Sh.mkdir_parents cur p fs = (Ret tt, fs).
Proof.
  intros H. unfold Sh.mkdir_parents. apply (mkdir_rec_idem _ _ _ es).
  now rewrite rev_involutive.
Qed.

(** *** Paths without [..]

    Such a path leads to the place its components spell, and making it
    touches nothing but the directories on the way. *)

Lemma resolve_plain fs p : ~ In ".." p -> forall cur d,
  resolve fs cur p = inr d -> d = cur ++ p.
Proof.
  induction p as [|c p IH]; intros Hp cur d; cbn [resolve].
  - intros [= <-]. now rewrite app_nil_r.
  - destruct (lookup cur fs) as [[?|es]|]; try discriminate.
    destruct (String.eqb_spec c "..") as [->|_]; [destruct Hp; now left|].
    destruct (entry c es); [|discriminate].
    intros H. apply IH in H; [|intros Hin; apply Hp; now right].
    now rewrite H, <- app_assoc.
Qed.

Lemma resolve_bound fs p : ~ In ".." p -> forall cur m,
  lookup (cur ++ p) fs = Some m -> resolve fs cur p = inr (cur ++ p).
Proof.
  induction p as [|c p IH]; intros Hp cur m; cbn [resolve].
  - now rewrite app_nil_r.
  - intros H. pose proof H as H'. rewrite lookup_app in H'.
    destruct (lookup cur fs) as [[?|es]|]; try discriminate.
    destruct (String.eqb_spec c "..") as [->|_]; [destruct Hp; now left|].
    simpl in H'. destruct (entry c es); [|discriminate].
    replace (cur ++ c :: p) with ((cur ++ [c]) ++ p) in * by now rewrite <- app_assoc.
    apply (IH (fun Hin => Hp (or_intror Hin)) _ m H).
Qed.

Lemma aside_incomparable p q : incomparable q p = true -> aside p q.
Proof.
  revert q. induction p as [|c p IH]; intros q; [now rewrite incomparable_nil_r|].
  destruct q as [|d q]; [discriminate|]. simpl.
  destruct (String.eqb_spec d c) as [->|Hne].
  - intros H r [= Hr]. now apply (IH _ H r).
  - intros _ r [= Hr _]. congruence.
Qed.

Lemma aside_longer p c q : aside (p ++ [c]) q -> aside p q.
Proof. intros H r ->. apply (H (r ++ [c])). now rewrite app_assoc. Qed.

Lemma aside_child p c : aside p (p ++ [c]).
Proof.
  intros r H. apply (f_equal (@length _)) in H. rewrite !length_app in H.
  simpl in H. lia.
Qed.

Lemma put_aside p fs fs' q :
  put p (Dir []) fs = inr fs' -> lookup p fs = None -> aside p q ->
  lookup q fs' = lookup q fs.
Proof.
  revert fs fs' q. induction p as [|c p IH]; intros fs fs' q; simpl; [discriminate|].
  destruct fs as [?|es]; [discriminate|].
  destruct q as [|d q]; [intros _ _ H; now destruct (H (c :: p))|].
  intros Hput Hnone Hq.
  destruct (String.eqb_spec d c) as [->|Hne].
  - assert (aside p q) as Hq' by (intros r ->; now apply (Hq r)).
    destruct (entry c es) as [m|] eqn:E.
    + destruct (put p (Dir []) m) as [e|m'] eqn:P; [discriminate|].
      injection Hput as <-. simpl. rewrite entry_set_same, E. now apply (IH _ _ _ P).
    + destruct p; [|discriminate]. injection Hput as <-. simpl.
      rewrite entry_set_same, E. destruct q as [|x q]; [now destruct (Hq' [])|].
      reflexivity.
  - assert (exists m', fs' = Dir (set_entry c m' es)) as [m' ->].
    { destruct (entry c es) as [m|].
      - destruct (put p _ m); [discriminate|]. inversion Hput. eauto.
      - destruct p; [|discriminate]. inversion Hput. eauto. }
    simpl. rewrite entry_set_other; auto.
Qed.

Lemma put_child dir c new fs es :
  lookup dir fs = Some (Dir es) -> entry c es = None ->
  exists fs', put (dir ++ [c]) new fs = inr fs'.
Proof.
  revert fs. induction dir as [|d dir IH]; intros fs; simpl.
  - intros [= ->] ->. eauto.
  - destruct fs as [?|ds]; [discriminate|].
    destruct (entry d ds) as [m|]; [|discriminate].
    intros Hm Hc. destruct (IH _ Hm Hc) as [m' ->]. eauto.
Qed.

(** On a path that is not the empty one, [os.mkdir] makes nothing where
    anything is. *)
Lemma mkdir_bound cur p c fs n :
  stat cur (p ++ [c]) fs = inr n -> mkdir cur (p ++ [c]) fs = inl EEXIST.
Proof.
  intros H. apply stat_snoc in H as (dir & es1 & R & E & Hc).
  unfold mkdir. rewrite removelast_last, R, E, last_last.
  destruct (p ++ [c]) eqn:Ep; [now destruct p|].
  destruct Hc as [->|[m ->]]; auto. now destruct (String.eqb c "..").
Qed.

(** Making a path without [..] binds directories on the way to it and
    nothing else; and when the call fails, it has made nothing. *)
Lemma mkdir_rec_plain cur rp : ~ In ".." rp -> forall fs o fs',
  Sh.mkdir_rec cur rp fs = (o, fs') ->
  (forall q, aside (cur ++ rev rp) q -> lookup q fs' = lookup q fs) /\
  (forall e, o = Raise e -> fs' = fs).
Proof.
  assert (forall fs e p fs0 (o : outcome unit) fs',
            match Sh.is_dir_from cur p fs with
            | (Ret true, _) => (Ret tt, fs)
            | _ => (Raise (os_error e (cur ++ p)), fs0)
            end = (o, fs') ->
            fs0 = fs -> fs' = fs) as Hdir.
  { intros fs e p fs0 o fs' H ->.
    destruct (Sh.is_dir_from cur p fs) as [[[|]|e1] fs1]; now inversion H. }
  assert (forall fs p c fs', ~ In ".." (p ++ [c]) ->
            mkdir cur (p ++ [c]) fs = inr fs' ->
            forall q, aside (cur ++ p ++ [c]) q -> lookup q fs' = lookup q fs) as Hmade.
  { intros fs p c fs' Hp. unfold mkdir. rewrite removelast_last, last_last.
    destruct (resolve fs cur p) as [e|dir] eqn:R; [discriminate|].
    apply resolve_plain in R; [|intros Hin; apply Hp, in_or_app; now left]. subst dir.
    destruct (lookup (cur ++ p) fs) as [[?|es]|] eqn:E; try discriminate.
    destruct (p ++ [c]) eqn:Ep; [now destruct p|]. rewrite <- Ep. clear Ep.
    destruct (String.eqb c ".."); [discriminate|].
    destruct (entry c es) as [m|] eqn:Em; [discriminate|].
    rewrite <- app_assoc. intros Hput q Hq. apply (put_aside _ _ _ _ Hput); auto.
    now rewrite app_assoc, lookup_snoc, E. }
  induction rp as [|c rp IH]; intros Hp fs o fs'; rewrite mkdir_rec_eq; cbv zeta.
  - assert (fs' = fs -> (forall q, aside (cur ++ rev []) q -> lookup q fs' = lookup q fs) /\
                        (forall e, o = Raise e -> fs' = fs)) as Hsame
      by (intros ->; auto).
    destruct (FS.mkdir cur (rev []) fs) as [e|fs1] eqn:Em.
    + intros H. apply Hsame.
      destruct e; try (now apply (Hdir _ _ _ _ _ _ H)). now inversion H.
    + exfalso. revert Em. unfold mkdir. simpl.
      destruct (lookup cur fs) as [[?|?]|]; discriminate.
  - assert (~ In ".." rp) as Hp' by (intros Hin; apply Hp; now right).
    assert (~ In ".." (rev rp ++ [c])) as Hpc
      by (intros Hin; apply Hp; apply in_rev; exact Hin).
    assert (fs' = fs -> (forall q, aside (cur ++ rev (c :: rp)) q ->
                                   lookup q fs' = lookup q fs) /\
                        (forall e, o = Raise e -> fs' = fs)) as Hsame
      by (intros ->; auto).
    cbn [rev] in *.
    destruct (FS.mkdir cur (rev rp ++ [c]) fs) as [e|fs1] eqn:Em.
    + destruct e; try (intros H; apply Hsame; now apply (Hdir _ _ _ _ _ _ H)).
      destruct (Sh.mkdir_rec cur rp fs) as [[u|e1] fs1] eqn:Er.
      * destruct (IH Hp' _ _ _ Er) as [Hfr _].
        destruct (mkdir_rec_spec _ _ _ _ _ Er) as (Hg & _ & es & Hs).
        assert (resolve fs1 cur (rev rp) = inr (cur ++ rev rp) /\
                lookup (cur ++ rev rp) fs1 = Some (Dir es)) as [R1 E1].
        { revert Hs. unfold stat.
          destruct (resolve fs1 cur (rev rp)) as [?|d] eqn:R; [discriminate|].
          apply resolve_plain in R; [|now rewrite <- in_rev]. subst d.
          destruct (lookup (cur ++ rev rp) fs1); [|discriminate]. now intros [= ->]. }
        assert (entry c es = None) as Hfresh.
        { destruct (entry c es) as [m|] eqn:Ec; auto. exfalso.
          assert (lookup (cur ++ rev rp ++ [c]) fs = Some m) as Hb.
          { rewrite <- (Hfr (cur ++ rev rp ++ [c])).
            - now rewrite app_assoc, lookup_snoc, E1.
            - rewrite app_assoc. apply aside_child. }
          pose proof (resolve_bound _ _ Hpc _ _ Hb) as Rb.
          assert (stat cur (rev rp ++ [c]) fs = inr m) as Hst
            by (unfold stat; now rewrite Rb, Hb).
          rewrite (mkdir_bound _ _ _ _ _ Hst) in Em. discriminate. }
        destruct (put_child _ _ (Dir []) _ _ E1 Hfresh) as [fs2 Hput].
        assert (FS.mkdir cur (rev rp ++ [c]) fs1 = inr fs2) as Em2.
        { unfold mkdir. rewrite removelast_last, last_last, R1, E1.
          destruct (rev rp ++ [c]) eqn:Ep; [now destruct (rev rp)|].
          destruct (String.eqb_spec c "..") as [->|_]; [destruct Hp; now left|].
          rewrite Hfresh. exact Hput. }
        rewrite Em2. intros [= <- <-]. split; [|discriminate].
        intros q Hq. rewrite (Hmade _ _ _ _ Hpc Em2 q Hq). apply Hfr.
        rewrite app_assoc in Hq. now apply aside_longer in Hq.
      * intros [= <- <-]. destruct (IH Hp' _ _ _ Er) as [Hfr Hraise].
        apply Hsame. now apply (Hraise e1).
    + intros [= <- <-]. split; [|discriminate]. now apply Hmade.
Qed.

Lemma mkdir_parents_plain cur p fs o fs' :
  ~ In ".." p -> Sh.mkdir_parents cur p fs = (o, fs') ->
  (forall q, incomparable q (cur ++ p) = true -> lookup q fs' = lookup q fs) /\
  (forall e, o = Raise e -> fs' = fs).
Proof.
  intros Hp H. unfold Sh.mkdir_parents in H.
  apply mkdir_rec_plain in H as [Hfr Hraise]; [|now rewrite <- in_rev].
  rewrite rev_involutive in Hfr. split; auto.
  intros q Hq. now apply Hfr, aside_incomparable.
Qed.

End WalkFacts.

(** ** The constructor and the command line *)

Section CliFacts.

Import FS FSFacts ShFacts.
Import GitTaskBenchRunner (runner, loc).

Variables config_store query_store : list (string * dict).
Variables cwd tempdir : FS.path.
Variable random_name : nat -> string.
Variable TMP_MAX : nat.
Variable agent : string -> FS.path -> value -> string -> option value -> M payload.
Variable format_exc : exc -> string.
Variable module_file : ppath.
Variable import_TaskEvaluator : M unit.
Variable evaluate : string -> string -> M value.
Variable is_ImportError : exc -> bool.

Local Abbreviation __init__ := (GitTaskBenchRunner.__init__ cwd module_file).
Local Abbreviation run_single_task self :=
  (GitTaskBenchRunner.run_single_task self config_store query_store cwd tempdir
     random_name TMP_MAX agent format_exc).
Local Abbreviation run_batch self :=
  (GitTaskBenchRunner.run_batch self config_store query_store cwd tempdir
     random_name TMP_MAX agent format_exc).
Local Abbreviation grade_with_gittaskbench self :=
  (GitTaskBenchRunner.grade_with_gittaskbench self cwd import_TaskEvaluator evaluate
     is_ImportError).
Local Abbreviation main :=
  (Cli.main config_store query_store cwd tempdir random_name TMP_MAX agent format_exc
     module_file import_TaskEvaluator evaluate is_ImportError).
Local Abbreviation construct a :=
  (__init__ (Some (Cli.gittaskbench_root a)) (Some (Cli.output_dir a))
            (Some (Cli.api_type a))).

Local Abbreviation start := (GitTaskBenchRunner.start cwd).

Lemma loc_start p : loc cwd p = start p ++ parts p.
Proof.
  unfold GitTaskBenchRunner.loc, GitTaskBenchRunner.start.
  now destruct (String.eqb (root p) "").
Qed.

Lemma init_inv g o a fs self fs' :
  __init__ g o a fs = (Ret self, fs') ->
  Sh.exists_from (start (GitTaskBenchRunner.gittaskbench_root self))
                 (parts (GitTaskBenchRunner.gittaskbench_root self)) fs = (Ret true, fs) /\
  Sh.mkdir_parents (start (GitTaskBenchRunner.output_root self))
                   (parts (GitTaskBenchRunner.output_root self)) fs = (Ret tt, fs') /\
  self = {| GitTaskBenchRunner.gittaskbench_root :=
              match g with
              | None => parent (parent (parent (parent module_file))) // "GitTaskBench"
              | Some s => parse s
              end;
            GitTaskBenchRunner.output_root :=
              match o with
              | None => parent (parent (parent module_file)) // "gittaskbench_results"
              | Some s => parse s
              end;
            GitTaskBenchRunner.api_type :=
              match a with None => "basic" | Some s => s end |}.
Proof.
  unfold GitTaskBenchRunner.__init__, bind, raise, ret.
  destruct (Sh.exists_from _ _ fs) as [[[|]|e] fs0] eqn:Er; cbn [negb]; try discriminate.
  assert (fs0 = fs) as -> by (unfold Sh.exists_from in Er; now inversion Er).
  destruct (Sh.mkdir_parents _ _ fs) as [[[]|e] fs1] eqn:Em; [|discriminate].
  intros [= <- <-].
  cbn [GitTaskBenchRunner.gittaskbench_root GitTaskBenchRunner.output_root]. auto.
Qed.

Lemma init_raises g o a fs e fs' :
  __init__ g o a fs = (Raise e, fs') ->
  let root := match g with
              | None => parent (parent (parent (parent module_file))) // "GitTaskBench"
              | Some s => parse s
              end in
  let out := match o with
             | None => parent (parent (parent module_file)) // "gittaskbench_results"
             | Some s => parse s
             end in
  (Sh.exists_from (start root) (parts root) fs = (Ret false, fs) /\ fs' = fs /\
   e = ValueError ("GitTaskBench not found at: " ++ str root)) \/
  (Sh.exists_from (start root) (parts root) fs = (Ret true, fs) /\
   Sh.mkdir_parents (start out) (parts out) fs = (Raise e, fs')).
Proof.
  unfold GitTaskBenchRunner.__init__, bind, raise, ret.
  destruct (Sh.exists_from _ _ fs) as [[[|]|e0] fs0] eqn:Er; cbn [negb].
  - assert (fs0 = fs) as -> by (unfold Sh.exists_from in Er; now inversion Er).
    destruct (Sh.mkdir_parents _ _ fs) as [[[]|e1] fs1] eqn:Em; [discriminate|].
    intros [= <- <-]. auto.
  - assert (fs0 = fs) as -> by (unfold Sh.exists_from in Er; now inversion Er).
    intros [= <- <-]. auto.
  - unfold Sh.exists_from in Er. discriminate.
Qed.

(** Making a runner twice is making it once: the constructor creates the
    output root when it is missing and keeps it when it is there, so that
    a second call on the file system the first call left returns the same
    runner and changes nothing.  The first call adds directories and
    nothing else, no regular file is touched; and with an output root
    given without [..], the directories it adds are on the way to the
    output root. *)
Theorem init_idempotent g o a fs self fs' :
  __init__ g o a fs = (Ret self, fs') ->
  __init__ g o a fs' = (Ret self, fs') /\
  Sh.is_dir_from (start (GitTaskBenchRunner.output_root self))
                 (parts (GitTaskBenchRunner.output_root self)) fs' = (Ret true, fs') /\
  (Sh.is_dir_from (start (GitTaskBenchRunner.output_root self))
                  (parts (GitTaskBenchRunner.output_root self)) fs = (Ret true, fs) ->
   fs' = fs) /\
  Sh.adds_directories fs fs' /\
  (~ In ".." (parts (GitTaskBenchRunner.output_root self)) ->
   forall q, incomparable q (loc cwd (GitTaskBenchRunner.output_root self)) = true ->
             lookup q fs' = lookup q fs).
Proof.
  intros H. destruct (init_inv _ _ _ _ _ _ H) as (Hroot & Hmk & Hself).
  destruct (WalkFacts.mkdir_parents_spec _ _ _ _ _ Hmk) as (Hadd & Hg & es & Hd).
  split; [|split; [|split; [|split]]]; auto.
  - unfold Sh.exists_from in Hroot.
    destruct (stat _ _ fs) as [?|n] eqn:Er; [discriminate|].
    destruct (WalkFacts.stat_grows _ _ _ _ _ Hg Er) as (n' & Hn' & _).
    pose proof (WalkFacts.mkdir_parents_idem _ _ _ _ Hd) as Hid.
    rewrite Hself in Hn', Hid.
    cbn [GitTaskBenchRunner.gittaskbench_root GitTaskBenchRunner.output_root] in Hn', Hid.
    unfold GitTaskBenchRunner.__init__, bind, Sh.exists_from, raise, ret.
    rewrite Hn'. cbn [negb]. rewrite Hid. now rewrite Hself.
  - unfold Sh.is_dir_from. now rewrite Hd.
  - intros Hd0. apply WalkFacts.is_dir_from_true in Hd0 as [es0 Hd0].
    rewrite (WalkFacts.mkdir_parents_idem _ _ _ _ Hd0) in Hmk. congruence.
  - intros Hp q Hq. rewrite loc_start in Hq.
    now apply (WalkFacts.mkdir_parents_plain _ _ _ _ _ Hp Hmk).
Qed.

(** When the constructor fails, [main] has written no file: at most,
    directories on the way to the output root were made, and none when the
    output root is given without [..].  [main] answers a missing benchmark
    root with the exit status 1; this is the one failure it catches: an
    error in creating the output root is passed on. *)
Theorem main_constructor_fails a fs e fs1 :
  construct a fs = (Raise e, fs1) ->
  Sh.adds_directories fs fs1 /\
  (~ In ".." (parts (parse (Cli.output_dir a))) -> fs1 = fs) /\
  ((Sh.exists_from (start (parse (Cli.gittaskbench_root a)))
                   (parts (parse (Cli.gittaskbench_root a))) fs = (Ret false, fs) /\
    fs1 = fs /\ main a fs = (Ret (Some 1%Z), fs)) \/
   (Sh.exists_from (start (parse (Cli.gittaskbench_root a)))
                   (parts (parse (Cli.gittaskbench_root a))) fs = (Ret true, fs) /\
    (exists en p, e = os_error en p) /\ main a fs = (Raise e, fs1))).
Proof.
  intros H. unfold Cli.main. rewrite H.
  destruct (init_raises _ _ _ _ _ _ H) as [(Hn & -> & ->)|(Hn & Hmk)].
  - split; [|split; [auto|left; auto]].
    apply WalkFacts.grows_adds;
      [apply WalkFacts.grows_refl|apply WalkFacts.no_new_file_refl].
  - destruct (WalkFacts.mkdir_parents_spec _ _ _ _ _ Hmk) as (Hadd & _ & en & p & ->).
    split; [auto|]. split.
    + intros Hp. exact (proj2 (WalkFacts.mkdir_parents_plain _ _ _ _ _ Hp Hmk) _ eq_refl).
    + right. split; [auto|]. split; [eauto|]. now destruct en.
Qed.

(** [main] runs no task when it is asked for the list, and none when the
    task it is given is the empty string, which [if args.task:] takes for
    no task: the file system is as the constructor left it, and the exit
    status is 0. *)
Theorem main_runs_nothing a fs self fs1 :
  construct a fs = (Ret self, fs1) ->
  Cli.list_ a = true \/
  (Cli.task a = Some "" /\ Cli.tasks a = None /\ Cli.all a = false) ->
  exists code, main a fs = (Ret code, fs1) /\ Cli.exit_status code = 0%Z.
Proof.
  intros H Hmode. unfold Cli.main. rewrite H. unfold Cli.dispatch.
  destruct (Cli.list_ a) eqn:El.
  - exists (Some 0%Z). auto.
  - destruct Hmode as [|(-> & -> & ->)]; [discriminate|]. exists None. auto.
Qed.

Lemma failed_none (rs : list exec_result) :
  Nat.eqb (length (filter (fun r => negb (success r)) rs)) 0 = forallb success rs.
Proof.
  induction rs as [|r rs IH]; simpl; auto. destruct (success r); simpl; auto.
Qed.

Lemma run_batch_failed self task_ids max_tasks fs sm fs' :
  run_batch self task_ids max_tasks fs = (Ret sm, fs') ->
  Nat.eqb (failed sm) 0 = forallb success (results sm).
Proof.
  intros H. apply run_batch_inv in H as (fs1 & Hloop & _).
  destruct (batch_loop_counts _ _ _ _ _ _ _ _ _ _ _ _ _ _ _ _ _ _ Hloop eq_refl eq_refl)
    as [_ ->].
  apply failed_none.
Qed.

(** The exit status of a batch, of given tasks or of all: when [main]
    returns, the batch returned a summary, and the status is 0 if every
    result of the summary is a success, 1 otherwise. *)
Theorem main_batch_status a fs self fs1 code fs' task_ids max_tasks :
  construct a fs = (Ret self, fs1) ->
  Cli.list_ a = false ->
  Cli.task a = None ->
  (exists t ts, Cli.tasks a = Some (t :: ts) /\ task_ids = Some (t :: ts) /\
                max_tasks = None) \/
  (Cli.tasks a = None /\ Cli.all a = true /\ task_ids = None /\
   max_tasks = Cli.max_tasks a) ->
  main a fs = (Ret code, fs') ->
  exists sm,
    run_batch self task_ids max_tasks fs1 = (Ret sm, fs') /\
    code = Some (if forallb success (results sm) then 0 else 1)%Z.
Proof.
  intros Hc Hl Ht Hmode. unfold Cli.main. rewrite Hc.
  unfold Cli.dispatch. rewrite Hl, Ht.
  assert (forall ids cap,
            bind (run_batch self ids cap)
                 (fun summary => ret (Some (if Nat.eqb (failed summary) 0 then 0 else 1)%Z)) fs1
            = (Ret code, fs') ->
            exists sm, run_batch self ids cap fs1 = (Ret sm, fs') /\
                       code = Some (if forallb success (results sm) then 0 else 1)%Z)
    as Hrun.
  { intros ids cap. unfold bind, ret.
    destruct (run_batch self ids cap fs1) as [[sm|] fs2] eqn:Hb; [|discriminate].
    intros [= <- <-]. exists sm. split; auto.
    now rewrite (run_batch_failed _ _ _ _ _ _ Hb). }
  destruct Hmode as [(t & ts & -> & -> & ->)|(-> & -> & -> & ->)];
    intros H; now apply Hrun in H.
Qed.

(** The exit status of a single task tells whether the run succeeded, and
    nothing about its grade.  A run that failed is not graded, whatever
    [--grade] says: [main] ends where the run ended.  A run that succeeded
    is graded on request, and the status is 0 whatever the grading
    answers. *)
Theorem main_single_status a fs self fs1 c t r fs2 :
  construct a fs = (Ret self, fs1) ->
  Cli.list_ a = false ->
  Cli.task a = Some (String c t) ->
  run_single_task self (String c t) true fs1 = (Ret r, fs2) ->
  (Cli.grade a && success r = false ->
   main a fs = (Ret (Some (if success r then 0 else 1)%Z), fs2)) /\
  (Cli.grade a && success r = true ->
   forall g fs3,
     grade_with_gittaskbench self (String c t) fs2 = (Ret g, fs3) ->
     main a fs = (Ret (Some 0%Z), fs3)).
Proof.
  intros Hc Hl Ht Hr. unfold Cli.main. rewrite Hc. unfold Cli.dispatch.
  rewrite Hl, Ht. split.
  - intros Hg. unfold bind at 1. rewrite Hr. cbv beta iota. now rewrite Hg.
  - intros Hg g fs3 Hgr. unfold bind at 1. rewrite Hr. cbv beta iota.
    rewrite Hg. unfold bind. rewrite Hgr.
    apply andb_prop in Hg as [_ ->]. reflexivity.
Qed.

End CliFacts.

(** ** Paths as text and back *)

Section PathFacts.

Lemma contains_slash_cons c x :
  PyStr.contains "/" (String c x) = Ascii.eqb c "/" || PyStr.contains "/" x.
Proof.
  cbn [PyStr.contains String.prefix].
  destruct (ascii_dec "/" c) as [<-|Hne].
  - now destruct x.
  - destruct (Ascii.eqb_spec c "/"); [congruence|reflexivity].
Qed.

Lemma split_noslash x : PyStr.contains "/" x = false -> PyStr.split "/" x = [x].
Proof.
  induction x as [|c x IH]; [reflexivity|].
  rewrite contains_slash_cons. intros H. apply orb_false_elim in H as [Hc Hx].
  cbn [PyStr.split]. now rewrite Hc, IH.
Qed.

Lemma split_app_slash x rest :
  PyStr.contains "/" x = false ->
  PyStr.split "/" (x ++ String "/" rest) = x :: PyStr.split "/" rest.
Proof.
  induction x as [|c x IH]; [reflexivity|].
  rewrite contains_slash_cons. intros H. apply orb_false_elim in H as [Hc Hx].
  cbn [append PyStr.split]. now rewrite Hc, IH.
Qed.

Lemma split_concat ps :
  ps <> [] -> Forall (fun x => PyStr.contains "/" x = false) ps ->
  PyStr.split "/" (String.concat "/" ps) = ps.
Proof.
  induction ps as [|x ps IH]; [congruence|]. intros _ H.
  inversion H as [|? ? Hx Hps]; subst. destruct ps as [|y ps].
  - now apply split_noslash.
  - cbn [String.concat]. change ("/" ++ ?s)%string with (String "/" s).
    rewrite split_app_slash by auto. f_equal. apply IH; [discriminate|auto].
Qed.

Lemma split_components s :
  Forall (fun x => PyStr.contains "/" x = false) (PyStr.split "/" s).
Proof.
  induction s as [|c s IH]; [repeat constructor|].
  cbn [PyStr.split]. destruct (Ascii.eqb c "/") eqn:Ec.
  - constructor; auto.
  - destruct (PyStr.split "/" s) as [|w ws].
    + repeat constructor. now rewrite contains_slash_cons, Ec.
    + inversion IH; subst. constructor; auto. now rewrite contains_slash_cons, Ec.
Qed.

Lemma parse_wf s :
  (root (parse s) = "" \/ root (parse s) = "/" \/ root (parse s) = "//") /\
  Forall (fun x => keep_part x = true /\ PyStr.contains "/" x = false) (parts (parse s)).
Proof.
  split.
  - cbn [parse root]. unfold splitroot.
    destruct (String.prefix "///" s); auto.
    destruct (String.prefix "//" s); auto.
    destruct (String.prefix "/" s); auto.
  - cbn [parse parts]. apply Forall_forall. intros x Hx.
    apply filter_In in Hx as [Hin Hk]. split; auto.
    pose proof (split_components s) as H. rewrite Forall_forall in H. auto.
Qed.

Lemma truediv_wf p s :
  (root p = "" \/ root p = "/" \/ root p = "//") /\
  Forall (fun x => keep_part x = true /\ PyStr.contains "/" x = false) (parts p) ->
  (root (p // s) = "" \/ root (p // s) = "/" \/ root (p // s) = "//") /\
  Forall (fun x => keep_part x = true /\ PyStr.contains "/" x = false) (parts (p // s)).
Proof.
  intros [Hr Hp]. unfold truediv. destruct (parse_wf s) as [Hr' Hp'].
  destruct (String.eqb (root (parse s)) ""); auto.
  cbn [root parts]. split; auto. apply Forall_app. auto.
Qed.

Lemma filter_all {A} (f : A -> bool) l : Forall (fun x => f x = true) l -> filter f l = l.
Proof. induction 1 as [|x l Hx _ IH]; simpl; [auto|now rewrite Hx, IH]. Qed.

Lemma concat_head x ps :
  keep_part x = true -> PyStr.contains "/" x = false ->
  exists c rest, String.concat "/" (x :: ps) = String c rest /\ c <> "/"%char.
Proof.
  destruct x as [|c x]; [discriminate|]. intros _.
  rewrite contains_slash_cons. intros H. apply orb_false_elim in H as [Hc _].
  assert (c <> "/"%char) by (intros ->; discriminate).
  destruct ps; cbn [String.concat append]; eauto.
Qed.

Lemma parse_str p :
  (root p = "" \/ root p = "/" \/ root p = "//") /\
  Forall (fun x => keep_part x = true /\ PyStr.contains "/" x = false) (parts p) ->
  parse (str p) = p.
Proof.
  destruct p as [r ps]. cbn [root parts]. intros [Hr Hp].
  assert (Forall (fun x => keep_part x = true) ps) as Hk
    by (eapply Forall_impl; [|exact Hp]; now intros x [? _]).
  assert (Forall (fun x => PyStr.contains "/" x = false) ps) as Hs
    by (eapply Forall_impl; [|exact Hp]; now intros x [_ ?]).
  destruct ps as [|x ps].
  - destruct Hr as [->|[->| ->]]; reflexivity.
  - inversion Hp as [|? ? [Hkx Hsx] _]; subst.
    destruct (concat_head x ps Hkx Hsx) as (c & rest & Hc & Hne).
    assert (PyStr.split "/" (String.concat "/" (x :: ps)) = x :: ps) as Hsplit
      by (apply split_concat; [discriminate|auto]).
    unfold parse, str. cbn [root parts].
    destruct Hr as [->|[->| ->]].
    + cbn [append]. f_equal.
      * rewrite Hc. unfold splitroot. cbn [String.prefix].
        destruct (ascii_dec "/" c); [congruence|reflexivity].
      * rewrite Hsplit. now apply filter_all.
    + change ("/" ++ ?s)%string with (String "/" s). f_equal.
      * rewrite Hc. unfold splitroot. cbn [String.prefix].
        destruct (ascii_dec "/" "/"); [|congruence].
        destruct (ascii_dec "/" c); [congruence|reflexivity].
      * change (PyStr.split "/" (String "/" ?s)) with ("" :: PyStr.split "/" s).
        rewrite Hsplit.
        change (filter keep_part ("" :: ?l)) with (filter keep_part l).
        now apply filter_all.
    + change ("//" ++ ?s)%string with (String "/" (String "/" s)). f_equal.
      * rewrite Hc. unfold splitroot. cbn [String.prefix].
        destruct (ascii_dec "/" "/"); [|congruence].
        destruct (ascii_dec "/" c); [congruence|reflexivity].
      * change (PyStr.split "/" (String "/" (String "/" ?s)))
          with ("" :: "" :: PyStr.split "/" s).
        rewrite Hsplit.
        change (filter keep_part ("" :: "" :: ?l)) with (filter keep_part l).
        now apply filter_all.
Qed.

(** A path that the runner builds -- parsed from a string, then joined
    with any number of strings -- is what its text parses to: [Path(str(p))]
    is [p].  So the directory name that the collection skips as the
    repository's is the last component of the repository path. *)
Theorem repository_path_round_trip g rels nm :
  let p := fold_left truediv rels (parse g) in
  parse (str p) = p /\
  GitTaskBenchRunner.skipped_name (str p) nm
  = (String.eqb nm (name p) || String.eqb nm GitTaskBenchRunner.DATASET_DIR).
Proof.
  intros p.
  assert (parse (str p) = p) as H.
  { apply parse_str. subst p. generalize (parse_wf g). generalize (parse g).
    induction rels as [|s rels IH]; intros q Hq; cbn [fold_left]; auto.
    apply IH. now apply truediv_wf. }
  split; auto. unfold GitTaskBenchRunner.skipped_name. now rewrite H.
Qed.

End PathFacts.

(** * The definitions at work on the small benchmark *)

Import FS.

Ltac run := vm_compute; reflexivity.

(** C8 at a path that holds the placeholder twice: [str.replace] drops
    every occurrence, so the repository of a task whose code base is itself
    named [GitTaskBench] resolves outside that directory, while the
    remainder after the prefix, joined to the benchmark root, is the path
    meant.  The same happens to the path of an input file. *)
Theorem C8_placeholder_repeated :
  let path := "/GitTaskBench/code_base/GitTaskBench/src" in
  PyStr.startswith path GitTaskBenchRunner.PLACEHOLDER = true /\
  joined_with_remainder (GitTaskBenchRunner.gittaskbench_root Example.self) path
    = "/bench/code_base/GitTaskBench/src" /\
  GitTaskBenchRunner.resolve_repository Example.self
    (VDict [("name", VStr "GitTaskBench"); ("path", VStr path)])
    = Ret "/bench/code_basesrc" /\
  GitTaskBenchRunner.resolve_item Example.self (VDict [("path", VStr path)])
    = Ret (VDict [("path", VStr "/bench/code_basesrc")]).
Proof. repeat split; run. Qed.

(** The rule holds when the placeholder is only the prefix, and in the two
    cases without prefix. *)
Example placeholder_once :
  GitTaskBenchRunner.resolve_repository Example.self Example.repo
    = Ret (joined_with_remainder (GitTaskBenchRunner.gittaskbench_root Example.self)
                                 "/GitTaskBench/code_base/Repo") /\
  GitTaskBenchRunner.resolve_repository Example.self
    (VDict [("name", VStr "Repo"); ("path", VStr "/srv/Repo")])
    = Ret "/bench/code_base/Repo" /\
  GitTaskBenchRunner.resolve_item Example.self (VDict [("path", VStr "notes.txt")])
    = Ret (VDict [("path", VStr "notes.txt")]).
Proof. repeat split; run. Qed.






Lemma C4_witness :
  Example.run_single_task "Y" false Example.fs0 = (Ret Example.Y_result, Example.Y_done) /\
  is_dir ["tmp"; "repomaster_Y_0"] Example.Y_done = false /\
  lookup ["tmp"; "repomaster_Y_0"] Example.Y_done = None.
Proof.
  destruct (C4_scratch_removed
              Example.self Example.config_store Example.query_store
              Example.cwd Example.tempdir Example.random_name Example.TMP_MAX
              Example.agent Example.format_exc
              "Y" false Example.fs0 Example.Y_locals Example.Y_entered
              Example.Y_result Example.Y_done ltac:(run) ltac:(run))
    as (Hdir & Hnone & _).
  split; [run|]. split; [exact Hdir|].
  apply (Hnone (Raise Example.boom) Example.Y_raised); run.
Defined.

(** A regular file is where the output directory of [X] should be: the
    run makes its scratch directory, fails to make the output directory and
    raises, before its [try] statement; the scratch directory stays.  So it
    does when the agent is interrupted on [X], a [KeyboardInterrupt] not
    being an [Exception]. *)
Lemma C4_counterexample :
  lookup ["tmp"; "repomaster_X_0"] CliExample.fs_blocked = None /\
  Example.run_single_task "X" false CliExample.fs_blocked
    = (Raise (os_error EEXIST ["out"; "X"]), CliExample.X_blocked) /\
  lookup ["tmp"; "repomaster_X_0"] CliExample.X_blocked = Some (Dir []) /\
  GitTaskBenchRunner.run_single_task
    Example.self Example.config_store Example.query_store Example.cwd Example.tempdir
    Example.random_name Example.TMP_MAX CliExample.interrupted Example.format_exc
    "X" false Example.fs0
    = (Raise CliExample.KeyboardInterrupt, CliExample.X_interrupted) /\
  is_dir ["tmp"; "repomaster_X_0"] CliExample.X_interrupted = true.
Proof. repeat split; run. Qed.

(** So it does when the handler itself fails, here because the agent left
    directories named as both documents: the exception leaves the run and
    the scratch directory stays. *)
Example handler_failure_keeps_scratch :
  exists e fs',
    Example.run_single_task "W" false Example.fs0 = (Raise e, fs') /\
    exc_type e = "IsADirectoryError" /\
    is_dir ["tmp"; "repomaster_W_0"] fs' = true.
Proof. do 2 eexists. repeat split; run. Qed.

Lemma C5_witness :
  Example.load_task_config "Z"
    = Raise (ValueError "Task config not found: /bench/config/Z/task_info.yaml") /\
  Example.run_single_task "Z" true Example.fs0
    = (Raise (ValueError "Task config not found: /bench/config/Z/task_info.yaml"),
       Example.fs0).
Proof.
  exact (C5_missing_metadata
           Example.self Example.config_store Example.query_store
           Example.cwd Example.tempdir Example.random_name Example.TMP_MAX
           Example.agent Example.format_exc "Z" true Example.fs0 ltac:(run)).
Defined.

Lemma C6_witness :
  lookup ["out"; "X"; "execution_result.json"] Example.X_done
    = Some (File (ResultJson Example.X_result)) /\
  lookup ["out"; "X"; "execution_error.json"] Example.X_done
    = lookup ["out"; "X"; "execution_error.json"] Example.fs0 /\
  lookup ["out"; "X"; "execution_error.json"] CliExample.X_refused
    = Some (File (ResultJson CliExample.X_refused_record)) /\
  lookup ["out"; "X"; "execution_result.json"] CliExample.X_refused
    = Some (File (Partial (ResultJson
                             (ResultData "X" (NotJson CliExample.not_serializable)
                                         "/out/X" "/bench/code_base/Repo"
                                         (VStr "collect"))))).
Proof.
  destruct (C6_one_document
              Example.self Example.config_store Example.query_store
              Example.cwd Example.tempdir Example.random_name Example.TMP_MAX
              CliExample.returns_set Example.format_exc
              "X" false Example.X_done Example.X_locals CliExample.X_again
              (Ret (NotJson CliExample.not_serializable)) CliExample.X_again_produced
              CliExample.X_refused_record CliExample.X_refused
              ltac:(run) ltac:(run) ltac:(run) ltac:(run))
    as (Hmine' & _ & Hother').
  assert (lookup ["out"; "X"; "execution_result.json"] CliExample.X_refused
          = Some (File (Partial (ResultJson
                                   (ResultData "X" (NotJson CliExample.not_serializable)
                                               "/out/X" "/bench/code_base/Repo"
                                               (VStr "collect")))))) as Hpartial.
  { destruct (Hother' ltac:(run)) as [Hsame|(res & e & Hres & _ & _ & Hpart)].
    - vm_compute in Hsame. discriminate Hsame.
    - injection Hres as <-. exact Hpart. }
  destruct (C6_one_document
              Example.self Example.config_store Example.query_store
              Example.cwd Example.tempdir Example.random_name Example.TMP_MAX
              Example.agent Example.format_exc
              "X" false Example.fs0 Example.X_locals Example.X_entered
              (Ret (Json (VStr "done"))) Example.X_produced Example.X_result Example.X_done
              ltac:(run) ltac:(run) ltac:(run) ltac:(run))
    as (Hmine & Hsetup & Hother).
  split; [exact Hmine|]. split; [|split; [exact Hmine'|exact Hpartial]].
  destruct (Hother ltac:(run)) as [Hsame|(res & e & _ & _ & Hrec & _)].
  - etransitivity; [exact Hsame|]. etransitivity; [|exact Hsetup]. run.
  - discriminate Hrec.
Defined.

(** Task [A] ran before and failed; it runs again, succeeds, and the agent
    leaves a file named as the error document: after the run the stale
    error document is gone, replaced by that file, and both fixed-name
    files are in the output directory. *)
Lemma C6_counterexample :
  lookup ["out"; "A"; "execution_error.json"] Example.fs_stale
    = Some (File (ResultJson Example.stale_error)) /\
  Example.run_single_task "A" false Example.fs_stale
    = (Ret Example.A_result, Example.A_done) /\
  success Example.A_result = true /\
  lookup ["out"; "A"; "execution_result.json"] Example.A_done
    = Some (File (ResultJson Example.A_result)) /\
  lookup ["out"; "A"; "execution_error.json"] Example.A_done
    = Some (File (Bytes "agent log")) /\
  lookup ["out"; "A"; "execution_error.json"] Example.A_done
    <> lookup ["out"; "A"; "execution_error.json"] Example.fs_stale.
Proof. repeat split; try run. vm_compute. discriminate. Qed.

Lemma C7_witness :
  exists d,
    Example.load_task_config "X" = Ret d /\
    Dict.get "task_description" d = Some (VStr "collect") /\
    Dict.get "repositories" d = Some (VList [Example.repo]) /\
    Dict.get "grading" d = Some (VStr "exact").
Proof.
  destruct (C7_merge Example.self Example.config_store Example.query_store
                     "X" [("grading", VStr "exact")] ltac:(run))
    as [_ Hmerge].
  destruct (Hmerge (Example.query "collect")
                   [("input_files",
                     VList [VDict [("path", VStr "/GitTaskBench/queries/in.txt")];
                            VDict [("path", VStr "notes.txt")]])]
                   ltac:(run) ltac:(run))
    as (d & Hd & Hdescr & Hrepos & _ & Hkept).
  exists d. repeat split; auto.
  rewrite Hkept by discriminate. run.
Defined.

(** The metadata document of [M] has a description and its query document
    omits it: the loaded description is the empty default, the one of the
    metadata is lost.  The query document of [N] is missing and its
    metadata has a description: the loaded record has it. *)
Lemma C7_counterexample :
  Dict.get "task_description"
           [("task_description", VStr "from metadata"); ("grading", VStr "exact")]
    = Some (VStr "from metadata") /\
  GitTaskBenchRunner.find_doc "M" Example.query_store = Some [] /\
  Example.load_task_config "M"
    = Ret [("task_description", VStr ""); ("grading", VStr "exact");
           ("repositories", VList []); ("input_data", VList [])] /\
  GitTaskBenchRunner.find_doc "N" Example.query_store = None /\
  Example.load_task_config "N" = Ret [("task_description", VStr "only metadata")] /\
  (forall d, Example.load_task_config "M" = Ret d ->
             Dict.get "task_description" d <> Some (VStr "from metadata")).
Proof.
  repeat split; try run.
  intros d. vm_compute. intros [= <-]. discriminate.
Qed.

Lemma C9_witness :
  Example.run_single_task "E" true Example.fs0
    = (Raise (ValueError "No repository found for task E"), Example.fs0) /\
  Example.run_batch (Some ["X"; "E"; "Y"]) None Example.fs0
    = (Raise (ValueError "No repository found for task E"), Example.XY_progress1).
Proof.
  destruct (C9_no_repository
              Example.self Example.config_store Example.query_store
              Example.cwd Example.tempdir Example.random_name Example.TMP_MAX
              Example.agent Example.format_exc
              "E" [("repositories", VList [])] true Example.fs0
              ltac:(run) ltac:(run))
    as [Hrun Hbatch].
  split; [exact Hrun|].
  exact (Hbatch (Some ["X"; "E"; "Y"]) None ["X"] ["Y"]
                ([Example.X_result], 1, 0) Example.fs0 Example.XY_progress1
                ltac:(run) ltac:(run)).
Defined.


(** ** The further facts on the small benchmark *)

Lemma batch_summary_counts_witness :
  Example.run_batch (Some ["X"; "Y"]) None Example.fs0
    = (Ret Example.XY_summary, Example.XY_done) /\
  map task_id_of (results Example.XY_summary) = ["X"; "Y"] /\
  successful Example.XY_summary + failed Example.XY_summary
    = total_tasks Example.XY_summary.
Proof.
  destruct (batch_summary_counts
              Example.self Example.config_store Example.query_store
              Example.cwd Example.tempdir Example.random_name Example.TMP_MAX
              Example.agent Example.format_exc
              (Some ["X"; "Y"]) None Example.fs0 Example.XY_summary Example.XY_done
              ltac:(run))
    as (Hids & _ & _ & _ & Hsum & _).
  split; [run|]. split; [exact Hids|exact Hsum].
Defined.

Lemma batch_documents_witness :
  Example.run_batch (Some ["X"; "Y"]) None Example.fs0
    = (Ret Example.XY_summary, Example.XY_done) /\
  lookup ["out"; "evaluation_summary.json"] Example.XY_done
    = Some (File (SummaryJson Example.XY_summary)) /\
  lookup ["out"; "evaluation_progress.json"] Example.XY_done
    = Some (File (ProgressJson [Example.X_result; Example.Y_result])).
Proof.
  destruct (batch_documents
              Example.self Example.config_store Example.query_store
              Example.cwd Example.tempdir Example.random_name Example.TMP_MAX
              Example.agent Example.format_exc
              (Some ["X"; "Y"]) None Example.fs0 Example.XY_summary Example.XY_done
              ltac:(run))
    as (Hsum & Hprog).
  split; [run|]. split; [exact Hsum|]. apply Hprog. discriminate.
Defined.

(** All eight tasks with the cap [-8]: the slice is empty. *)
Lemma batch_of_nothing_witness :
  GitTaskBenchRunner.select_tasks Example.config_store None (Some (-8)%Z) = [] /\
  exists fs',
    Example.run_batch None (Some (-8)%Z) Example.fs0
      = (Ret {| total_tasks := 0; successful := 0; failed := 0; success_rate := "0%";
                summary_api_type := "basic"; summary_output_root := "/out";
                results := [] |}, fs') /\
    lookup ["out"; "evaluation_progress.json"] fs' = None.
Proof.
  split; [run|].
  exists (snd (Example.run_batch None (Some (-8)%Z) Example.fs0)).
  destruct (batch_of_nothing
              Example.self Example.config_store Example.query_store
              Example.cwd Example.tempdir Example.random_name Example.TMP_MAX
              Example.agent Example.format_exc
              None (Some (-8)%Z) Example.fs0
              (fst (let (o, _) := Example.run_batch None (Some (-8)%Z) Example.fs0 in
                    match o with
                    | Ret sm => (sm, tt)
                    | Raise _ => (Example.XY_summary, tt)
                    end))
              (snd (Example.run_batch None (Some (-8)%Z) Example.fs0))
              ltac:(run) ltac:(run))
    as (_ & _ & Hkeep).
  split; [run|].
  rewrite Hkeep by run. run.
Defined.

Lemma scratch_directory_fresh_witness :
  Example.setup "X" false CliExample.fs_taken
    = (Ret CliExample.X_second, CliExample.X_second_entered) /\
  lookup ["tmp"; "repomaster_X_0"] CliExample.fs_taken = Some (Dir []) /\
  lookup ["tmp"; "repomaster_X_1"] CliExample.fs_taken = None /\
  lookup ["tmp"; "repomaster_X_1"] CliExample.X_second_entered = Some (Dir []) /\
  is_dir ["out"; "X"] CliExample.X_second_entered = true.
Proof.
  destruct (scratch_directory_fresh
              Example.self Example.config_store Example.query_store
              Example.cwd Example.tempdir Example.random_name Example.TMP_MAX
              "X" false CliExample.fs_taken CliExample.X_second
              CliExample.X_second_entered ltac:(run))
    as (_ & Hfree & _ & Hempty & Hout).
  split; [run|]. split; [run|]. split; [exact Hfree|]. split; [|exact Hout].
  apply Hempty. run.
Defined.


Lemma base_exception_escapes_witness :
  GitTaskBenchRunner.run_single_task
    Example.self Example.config_store Example.query_store Example.cwd Example.tempdir
    Example.random_name Example.TMP_MAX CliExample.interrupted Example.format_exc
    "X" false Example.fs0
    = (Raise CliExample.KeyboardInterrupt, CliExample.X_interrupted) /\
  lookup ["tmp"; "repomaster_X_0"; "out.txt"] CliExample.X_interrupted
    = Some (File (Bytes "hello")) /\
  lookup ["out"; "X"; "execution_error.json"] CliExample.X_interrupted = None /\
  GitTaskBenchRunner.run_batch
    Example.self Example.config_store Example.query_store Example.cwd Example.tempdir
    Example.random_name Example.TMP_MAX CliExample.interrupted Example.format_exc
    (Some ["X"; "Y"]) None Example.fs0
    = (Raise CliExample.KeyboardInterrupt, CliExample.X_interrupted).
Proof.
  destruct (base_exception_escapes
              Example.self Example.config_store Example.query_store
              Example.cwd Example.tempdir Example.random_name Example.TMP_MAX
              CliExample.interrupted Example.format_exc
              "X" false Example.fs0 Example.X_locals Example.X_entered
              CliExample.KeyboardInterrupt CliExample.X_interrupted
              ltac:(run) ltac:(run) ltac:(run))
    as (Hrun & Hbatch).
  split; [exact Hrun|]. split; [run|]. split; [run|].
  destruct (Hbatch eq_refl) as (_ & Hb). apply (Hb (Some ["X"; "Y"]) None ["Y"]). run.
Defined.

(** An empty [task_info.yaml] beside a query document. *)
Lemma load_task_config_raises_witness :
  GitTaskBenchRunner.load_task_config_from
    (parse "/bench/config/X/task_info.yaml")
    (Some (Ret VNone)) (Some (Ret (VDict [("task_description", VStr "collect")])))
  = Raise (TypeError "'NoneType' object does not support item assignment").
Proof.
  apply (proj2 (load_task_config_raises
                  (parse "/bench/config/X/task_info.yaml")
                  (Some (Ret VNone))
                  (Some (Ret (VDict [("task_description", VStr "collect")])))
                  (TypeError "'NoneType' object does not support item assignment"))).
  right. right. exists VNone. split; [reflexivity|].
  right. exists (VDict [("task_description", VStr "collect")]).
  split; reflexivity.
Defined.

Lemma resolve_input_data_shape_witness :
  GitTaskBenchRunner.resolve_input_data Example.self
    (VList [VDict [("size", VInt 3); ("path", VStr "/GitTaskBench/queries/in.txt")];
            VStr "notes.txt"])
  = Ret (VList [VDict [("size", VInt 3); ("path", VStr "/bench/queries/in.txt")];
                VStr "notes.txt"]) /\
  exists items',
    Forall2 (fun x x' =>
               x' = x \/
               exists d d', x = VDict d /\ x' = VDict d' /\
                            map fst d' = map fst d /\
                            (exists p, Dict.get "path" d' = Some (VStr p)) /\
                            forall k, k <> "path" -> Dict.get k d' = Dict.get k d)
            [VDict [("size", VInt 3); ("path", VStr "/GitTaskBench/queries/in.txt")];
             VStr "notes.txt"]
            items'.
Proof.
  split; [run|].
  destruct (resolve_input_data_shape
              Example.self
              [VDict [("size", VInt 3); ("path", VStr "/GitTaskBench/queries/in.txt")];
               VStr "notes.txt"]
              (VList [VDict [("size", VInt 3); ("path", VStr "/bench/queries/in.txt")];
                      VStr "notes.txt"])
              ltac:(run))
    as (items' & _ & H).
  exists items'. exact H.
Defined.


Lemma grade_import_error_inside_witness :
  CliExample.grade_with_gittaskbench "A" Example.fs_stale
  = (Ret (GitTaskBenchRunner.NotGraded "A"
            "GitTaskBench grading module not available. Install GitTaskBench properly."),
     Example.fs_stale).
Proof.
  apply (grade_import_error_inside
           Example.self Example.cwd CliExample.import_TaskEvaluator CliExample.evaluate
           CliExample.is_ImportError "A" Example.fs_stale Example.fs_stale
           (CliExample.ImportError "No module named 'cv2'") Example.fs_stale);
    try run.
  vm_compute. discriminate.
Defined.

Lemma grade_after_run_witness :
  Example.run_single_task "X" false Example.fs0 = (Ret Example.X_result, Example.X_done) /\
  CliExample.grade_with_gittaskbench "X" Example.X_done
  = (Ret CliExample.X_grade, Example.X_done).
Proof.
  split; [run|].
  apply (grade_after_run
           Example.self Example.config_store Example.query_store
           Example.cwd Example.tempdir Example.random_name Example.TMP_MAX
           Example.agent Example.format_exc
           CliExample.import_TaskEvaluator CliExample.evaluate CliExample.is_ImportError
           "X" false Example.fs0 Example.X_locals Example.X_entered
           Example.X_result Example.X_done Example.X_done
           (VDict [("status", VStr "pass"); ("output_dir", VStr "/out/X")])
           Example.X_done);
    run.
Defined.

(** Task [W]: neither document can be written, the handler raises. *)
Lemma run_raises_only_witness :
  Example.run_single_task "W" false Example.fs0
  = (Raise (os_error EISDIR ["out"; "W"; "execution_error.json"]), CliExample.W_left) /\
  is_dir ["tmp"; "repomaster_W_0"] CliExample.W_left = true.
Proof.
  split; [|run].
  apply (proj2 (run_raises_only
                  Example.self Example.config_store Example.query_store
                  Example.cwd Example.tempdir Example.random_name Example.TMP_MAX
                  Example.agent Example.format_exc
                  "W" false Example.fs0
                  (os_error EISDIR ["out"; "W"; "execution_error.json"])
                  CliExample.W_left)).
  right. exists CliExample.W_locals, CliExample.W_entered. split; [run|].
  right. exists (os_error EISDIR ["out"; "W"; "execution_result.json"]).
  repeat split; run.
Defined.

(** The benchmark beside RepoMaster, given as [../GitTaskBench]. *)
Lemma init_idempotent_witness :
  GitTaskBenchRunner.__init__ CliExample.cwd_repo CliExample.module_file
    (Some "../GitTaskBench") (Some "../results/run1") None CliExample.fs_side
  = (Ret CliExample.side_runner, CliExample.fs_side_made) /\
  lookup ["work"; "results"] CliExample.fs_side = None /\
  lookup ["work"; "results"] CliExample.fs_side_made = Some (Dir [("run1", Dir [])]) /\
  GitTaskBenchRunner.__init__ CliExample.cwd_repo CliExample.module_file
    (Some "../GitTaskBench") (Some "../results/run1") None CliExample.fs_side_made
  = (Ret CliExample.side_runner, CliExample.fs_side_made).
Proof.
  split; [run|]. split; [run|]. split; [run|].
  apply (init_idempotent
           CliExample.cwd_repo CliExample.module_file
           (Some "../GitTaskBench") (Some "../results/run1") None CliExample.fs_side).
  run.
Defined.

(** [Example.fs0] has no benchmark root; and on [CliExample.fs_side] the
    output directory leads through a regular file. *)
Lemma main_constructor_fails_witness :
  CliExample.main (CliExample.args_of (Some "X") None false false None false) Example.fs0
  = (Ret (Some 1%Z), Example.fs0) /\
  CliExample.main_side CliExample.args_through CliExample.fs_side
  = (Raise (os_error EEXIST ["work"; "RepoMaster"; "new"; ".."; "README"]),
     CliExample.fs_side_through) /\
  lookup ["work"; "RepoMaster"; "new"] CliExample.fs_side = None /\
  lookup ["work"; "RepoMaster"; "new"] CliExample.fs_side_through = Some (Dir []).
Proof.
  split; [|split; [|split; run]].
  - destruct (main_constructor_fails
                Example.config_store Example.query_store Example.cwd Example.tempdir
                Example.random_name Example.TMP_MAX Example.agent Example.format_exc
                CliExample.module_file CliExample.import_TaskEvaluator CliExample.evaluate
                CliExample.is_ImportError
                (CliExample.args_of (Some "X") None false false None false)
                Example.fs0 (ValueError "GitTaskBench not found at: /bench") Example.fs0
                ltac:(run))
      as (_ & _ & [(_ & _ & H)|(Hex & _)]).
    + exact H.
    + vm_compute in Hex. discriminate Hex.
  - destruct (main_constructor_fails
                Example.config_store Example.query_store CliExample.cwd_repo
                Example.tempdir
                Example.random_name Example.TMP_MAX Example.agent Example.format_exc
                CliExample.module_file CliExample.import_TaskEvaluator CliExample.evaluate
                CliExample.is_ImportError
                CliExample.args_through CliExample.fs_side
                (os_error EEXIST ["work"; "RepoMaster"; "new"; ".."; "README"])
                CliExample.fs_side_through
                ltac:(run))
      as (_ & _ & [(Hex & _)|(_ & _ & H)]).
    + vm_compute in Hex. discriminate Hex.
    + exact H.
Defined.

(** [--task ""] *)
Lemma main_runs_nothing_witness :
  exists code,
    CliExample.main (CliExample.args_of (Some "") None false false None false)
                    CliExample.fs_bench
    = (Ret code, CliExample.fs_bench) /\
    Cli.exit_status code = 0%Z.
Proof.
  apply (main_runs_nothing
           Example.config_store Example.query_store Example.cwd Example.tempdir
           Example.random_name Example.TMP_MAX Example.agent Example.format_exc
           CliExample.module_file CliExample.import_TaskEvaluator CliExample.evaluate
           CliExample.is_ImportError
           (CliExample.args_of (Some "") None false false None false)
           CliExample.fs_bench Example.self CliExample.fs_bench).
  - run.
  - right. repeat split.
Defined.

(** [--tasks X Y] *)
Lemma main_batch_status_witness :
  CliExample.main (CliExample.args_of None (Some ["X"; "Y"]) false false None false)
                  CliExample.fs_bench
  = (Ret (Some 1%Z), CliExample.XY_run) /\
  exists sm,
    Example.run_batch (Some ["X"; "Y"]) None CliExample.fs_bench
      = (Ret sm, CliExample.XY_run) /\
    Some 1%Z = Some (if forallb success (results sm) then 0 else 1)%Z.
Proof.
  split; [run|].
  apply (main_batch_status
           Example.config_store Example.query_store Example.cwd Example.tempdir
           Example.random_name Example.TMP_MAX Example.agent Example.format_exc
           CliExample.module_file CliExample.import_TaskEvaluator CliExample.evaluate
           CliExample.is_ImportError
           (CliExample.args_of None (Some ["X"; "Y"]) false false None false)
           CliExample.fs_bench Example.self CliExample.fs_bench
           (Some 1%Z) CliExample.XY_run (Some ["X"; "Y"]) None).
  - run.
  - reflexivity.
  - reflexivity.
  - left. exists "X", ["Y"]. repeat split.
  - run.
Defined.

(** [--task X --grade] *)
Lemma main_single_status_witness :
  Example.run_single_task "X" true CliExample.fs_bench
    = (Ret Example.X_result, CliExample.X_run) /\
  CliExample.grade_with_gittaskbench "X" CliExample.X_run
    = (Ret CliExample.X_grade, CliExample.X_run) /\
  CliExample.main (CliExample.args_of (Some "X") None false false None true)
                  CliExample.fs_bench
  = (Ret (Some 0%Z), CliExample.X_run).
Proof.
  split; [run|]. split; [run|].
  destruct (main_single_status
              Example.config_store Example.query_store Example.cwd Example.tempdir
              Example.random_name Example.TMP_MAX Example.agent Example.format_exc
              CliExample.module_file CliExample.import_TaskEvaluator CliExample.evaluate
              CliExample.is_ImportError
              (CliExample.args_of (Some "X") None false false None true)
              CliExample.fs_bench Example.self CliExample.fs_bench
              "X"%char ""%string Example.X_result CliExample.X_run
              ltac:(run) ltac:(run) ltac:(run) ltac:(run))
    as (_ & Hgraded).
  apply (Hgraded eq_refl CliExample.X_grade CliExample.X_run). run.
Defined.

(** The record of [Y], on which the agent raised [boom]. *)
Lemma run_record_witness :
  Example.run_single_task "Y" false Example.fs0 = (Ret Example.Y_result, Example.Y_done) /\
  Example.Y_result
  = ErrorData "Y" (exc_msg Example.boom) (exc_type Example.boom)
              (Example.format_exc Example.boom) "/out/Y".
Proof.
  split; [run|].
  pose proof (run_record
                Example.self Example.config_store Example.query_store
                Example.cwd Example.tempdir Example.random_name Example.TMP_MAX
                Example.agent Example.format_exc
                "Y" false Example.fs0 Example.Y_locals Example.Y_entered
                Example.Y_result Example.Y_done ltac:(run) ltac:(run)) as H.
  vm_compute in H. vm_compute. exact (proj2 H).
Defined.

(** A task whose description is the number 5: the verbose run stops at
    the narration, the two directories made. *)
Lemma verbose_narration_witness :
  let config_store := [("N5", [])] in
  let query_store :=
    [("N5", [("task_description", VInt 5); ("repositories", VList [Example.repo])])] in
  GitTaskBenchRunner.run_single_task
    Example.self config_store query_store Example.cwd Example.tempdir
    Example.random_name Example.TMP_MAX Example.agent Example.format_exc
    "N5" true Example.fs0
  = (Raise (TypeError "'int' object is not subscriptable"),
     Dir [("tmp", Dir [("repomaster_N5_0", Dir [])]); ("out", Dir [("N5", Dir [])])]).
Proof.
  intros config_store query_store.
  pose proof (verbose_narration
                Example.self config_store query_store Example.cwd Example.tempdir
                Example.random_name Example.TMP_MAX Example.agent Example.format_exc
                "N5" Example.fs0) as H.
  vm_compute in H. vm_compute. exact (proj1 H).
Defined.
